(** * make-migrations: column extraction, snapshot diff, type-tag rewriting

    A shallow embedding of [src/index.js] (and of its library variant, whose
    [getModelColumns], [getRawMigrations] and [formatMigrationContent] are
    the same code).

    - JavaScript objects used as string-keyed maps are association lists of
      their own properties in the order in which they were added ([Obj]).
      The properties every plain object inherits ([constructor],
      [toString], ...) are found where the source looks a name up without
      asking whether it is the object's own, and the order of enumeration,
      which puts array indices first, is taken where [getModelColumns]
      returns its columns.
    - The column objects that [getRawMigrations] shares between the
      snapshot, the model columns and the classification buckets live in an
      explicit store ([heap]) and are referred to by location, so that the
      transient [nextColumnName] mark lands on the object the source puts
      it on.
    - [deep-equal] is an external package: its comparison of two
      [defaultValue] payloads is the section parameter [value_equal]. *)

From Stdlib Require Import String Ascii List Bool Arith ZArith Lia Sorted.
From stdpp Require Import base option list strings.

Local Open Scope string_scope.

(** ** Objects as ordered property lists

    An object is the list of its own enumerable properties in the order in
    which they were added. The objects of this program are plain: what they
    do not have themselves they take from [Object.prototype]. *)

Abbreviation object A := (list (string * A)).

(** Locations of the store of column objects. *)
Abbreviation loc := nat.

Module Obj.

(** The properties of [Object.prototype]. Read on a plain object that has
    no property of that name, each gives a function, and [__proto__] gives
    the prototype itself: a value that is not undefined and holds as a
    condition. *)
Definition inherited (k : string) : bool :=
  existsb (String.eqb k)
    [ "constructor"; "__defineGetter__"; "__defineSetter__";
      "hasOwnProperty"; "__lookupGetter__"; "__lookupSetter__";
      "isPrototypeOf"; "propertyIsEnumerable"; "toString"; "valueOf";
      "__proto__"; "toLocaleString" ].

(** The value of a decimal digit. *)
Definition digit (c : ascii) : option N :=
  let n := N_of_ascii c in
  if (N.leb 48 n && N.leb n 57)%bool then Some (n - 48)%N else None.

Fixpoint digits (value : N) (s : string) : option N :=
  match s with
  | EmptyString => Some value
  | String c s' =>
      match digit c with
      | Some d => digits (10 * value + d)%N s'
      | None => None
      end
  end.

(** A property name that is an array index: the canonical decimal form of
    an integer from 0 to 2^32 - 2. *)
Definition index_of (k : string) : option N :=
  match k with
  | EmptyString => None
  | String c rest =>
      if (Ascii.eqb c "0" && negb (String.eqb rest EmptyString))%bool
      then None
      else match digits 0 k with
           | Some n => if N.leb n 4294967294 then Some n else None
           | None => None
           end
  end.

Section ops.
Context {A : Type}.

(** [o[k]], when [o] has the property itself *)
Fixpoint get (k : string) (o : object A) : option A :=
  match o with
  | [] => None
  | (k', v) :: o' => if String.eqb k k' then Some v else get k o'
  end.

(** [o] has the property [k] itself *)
Definition has (k : string) (o : object A) : bool :=
  match get k o with Some _ => true | None => false end.

(** [o[k]] used as a condition, for property values that are objects: the
    value is the object's own or comes from [Object.prototype]. *)
Definition present (k : string) (o : object A) : bool :=
  has k o || inherited k.

(** [o[k] = v]: an existing property keeps its place, a new one goes last *)
Fixpoint set (k : string) (v : A) (o : object A) : object A :=
  match o with
  | [] => [(k, v)]
  | (k', v') :: o' =>
      if String.eqb k k' then (k, v) :: o' else (k', v') :: set k v o'
  end.

(** [delete o[k]] *)
Fixpoint del (k : string) (o : object A) : object A :=
  match o with
  | [] => []
  | (k', v') :: o' =>
      if String.eqb k k' then del k o' else (k', v') :: del k o'
  end.

(** [o[k] = v] for an object [v]. Under [__proto__] an object that has no
    such property of its own gets [v] as its prototype and no property. *)
Definition assign (k : string) (v : A) (o : object A) : object A :=
  if String.eqb k "__proto__" && negb (has k o) then o else set k v o.

(** The names of the properties, as [Object.keys(o)] gives them for an
    object whose properties were added in the order of enumeration. *)
Definition keys (o : object A) : list string := map fst o.

(** The order of enumeration, which is that of [Object.entries],
    [Object.keys] and [JSON.stringify]: the properties whose names are
    array indices by ascending index, then the others in the order in
    which they were added. *)
Fixpoint insert_index (n : N) (e : string * A)
    (sorted : list (N * (string * A))) : list (N * (string * A)) :=
  match sorted with
  | [] => [(n, e)]
  | (m, e') :: sorted' =>
      if N.ltb n m then (n, e) :: sorted
      else (m, e') :: insert_index n e sorted'
  end.

Fixpoint indexed (o : object A) : list (N * (string * A)) :=
  match o with
  | [] => []
  | (k, v) :: o' =>
      match index_of k with
      | Some n => insert_index n (k, v) (indexed o')
      | None => indexed o'
      end
  end.

Definition named (o : object A) : object A :=
  List.filter (fun e => match index_of (fst e) with
                        | Some _ => false
                        | None => true
                        end) o.

(** [JSON.parse(JSON.stringify(o))] on the properties: the same properties,
    added in the order of enumeration. *)
Definition enumerate (o : object A) : object A :=
  (map snd (indexed o) ++ named o)%list.
End ops.
End Obj.

Arguments Obj.inherited : simpl never.

(** [String(x)] of a possibly undefined string, as a template literal or a
    computed property key produces it. *)
Definition property_key (x : option string) : string :=
  match x with Some s => s | None => "undefined" end.

(** A string used as a condition: undefined and the empty string are falsy. *)
Definition truthy (x : option string) : option string :=
  match x with
  | Some s => if String.eqb s "" then None else Some s
  | None => None
  end.

(** A declared attribute option before it is tested with [=== false]. *)
Inductive JsValue :=
| JsUndefined
| JsNull
| JsBool (b : bool)
| JsNumber (z : Z)
| JsString (s : string).

Definition strictly_false (v : JsValue) : bool :=
  match v with JsBool false => true | _ => false end.

Section MakeMigrations.
Context {Value : Type}.

(** [deep-equal] on two [defaultValue] payloads. *)
Variable value_equal : Value -> Value -> bool.

(** ** Data model *)

(** A column definition as it is stored in [meta.json]; an absent field is
    [None]. *)
Record ColumnDefinition := {
  type : string;
  allowNull : option bool;
  autoIncrement : option bool;
  unique : option bool;
  primaryKey : option bool;
  prevColumnName : option string;
  defaultValue : option Value
}.

(** An attribute of [model.getAttributes()]: [attr_type] is
    [type.constructor.name]. *)
Record Attribute := {
  attr_type : string;
  attr_field : string;
  attr_allowNull : JsValue;
  attr_unique : option bool;
  attr_primaryKey : option bool;
  attr_prevColumnName : option string;
  attr_defaultValue : option Value
}.

Record Model := {
  attributes : object Attribute;
  tableName : string;
  autoMigrations : bool;
  timestamps : bool;
  paranoid : bool
}.

(** ** GET-MODEL-COLUMNS *)

Definition baseColumns : object ColumnDefinition :=
  [ ("id", {| type := "DataTypes.INTEGER"; allowNull := Some false;
              autoIncrement := Some true; unique := None;
              primaryKey := Some true; prevColumnName := None;
              defaultValue := None |});
    ("createdAt", {| type := "DataTypes.DATE"; allowNull := Some false;
                     autoIncrement := None; unique := None;
                     primaryKey := None; prevColumnName := None;
                     defaultValue := None |});
    ("updatedAt", {| type := "DataTypes.DATE"; allowNull := Some false;
                     autoIncrement := None; unique := None;
                     primaryKey := None; prevColumnName := None;
                     defaultValue := None |});
    ("deletedAt", {| type := "DataTypes.DATE"; allowNull := None;
                     autoIncrement := None; unique := None;
                     primaryKey := None; prevColumnName := None;
                     defaultValue := None |}) ].

(** [Object.assign(columns, { k: baseColumns[k] })] *)
Definition assign_base (k : string) (columns : object ColumnDefinition)
  : object ColumnDefinition :=
  match Obj.get k baseColumns with
  | Some d => Obj.set k d columns
  | None => columns
  end.

(** The object literal built for one attribute. *)
Definition attributeColumn (modelColumnOptions : Attribute) : ColumnDefinition :=
  {| type := "DataTypes." +:+ attr_type modelColumnOptions;
     allowNull :=
       if strictly_false (attr_allowNull modelColumnOptions)
       then Some false else None;
     autoIncrement := None;
     unique := attr_unique modelColumnOptions;
     primaryKey := attr_primaryKey modelColumnOptions;
     prevColumnName := attr_prevColumnName modelColumnOptions;
     defaultValue := attr_defaultValue modelColumnOptions |}.

(** One turn of the loop over [Object.entries(attributes)]. *)
Definition attribute_step (columns : object ColumnDefinition)
    (entry : string * Attribute) : object ColumnDefinition :=
  let '(modelColumnName, modelColumnOptions) := entry in
  if negb (existsb (String.eqb modelColumnName) (Obj.keys baseColumns)) then
    if negb (String.eqb (attr_type modelColumnOptions) "VIRTUAL") then
      Obj.assign (attr_field modelColumnOptions)
                 (attributeColumn modelColumnOptions) columns
    else columns
  else columns.

(** The attributes for which a turn of the loop assigns to [columns]:
    those not named like a base column and not of the virtual type. *)
Definition writes_column (entry : string * Attribute) : bool :=
  negb (existsb (String.eqb (fst entry)) (Obj.keys baseColumns))
  && negb (String.eqb (attr_type (snd entry)) "VIRTUAL").

(** The final [JSON.parse(JSON.stringify(columns))] drops the undefined
    fields, which are [None] here already; the values of the other fields
    are JSON values, which it returns as they are. It returns the columns
    in the order of enumeration, in an object of its own, which has
    [Object.prototype] for prototype whatever [columns] had. *)
Definition getModelColumns (model : Model) : object ColumnDefinition :=
  let columns := [] in
  let columns :=
    if Obj.has "id" (attributes model) then assign_base "id" columns
    else columns in
  let columns := fold_left attribute_step (attributes model) columns in
  let columns :=
    if timestamps model
    then assign_base "updatedAt" (assign_base "createdAt" columns)
    else columns in
  let columns :=
    if paranoid model then assign_base "deletedAt" columns else columns in
  Obj.enumerate columns.

(** ** Column objects and the store

    [getRawMigrations] puts the very objects of [modelColumns] into the
    snapshot and into the buckets, and writes [nextColumnName] on objects it
    read from the snapshot. An object is a definition plus that mark; the
    store maps locations to objects. *)

Record ColumnObject := {
  options : ColumnDefinition;
  nextColumnName : option string
}.

(** A freshly parsed object: no mark. *)
Definition parsed (d : ColumnDefinition) : ColumnObject :=
  {| options := d; nextColumnName := None |}.

Definition set_nextColumnName (x : option string) (o : ColumnObject)
  : ColumnObject :=
  {| options := options o; nextColumnName := x |}.

(** ** deep-equal

    Two objects are equal when they have the same keys and equal values
    under them; a field is a key of an object when it is not [None]. The
    typed fields hold values of one type each, on which the package's
    comparison is equality. *)

Definition option_equal {A} (eqb : A -> A -> bool) (x y : option A) : bool :=
  match x, y with
  | Some a, Some b => eqb a b
  | None, None => true
  | _, _ => false
  end.

Definition equal_definition (a b : ColumnDefinition) : bool :=
  String.eqb (type a) (type b)
  && option_equal Bool.eqb (allowNull a) (allowNull b)
  && option_equal Bool.eqb (autoIncrement a) (autoIncrement b)
  && option_equal Bool.eqb (unique a) (unique b)
  && option_equal Bool.eqb (primaryKey a) (primaryKey b)
  && option_equal String.eqb (prevColumnName a) (prevColumnName b)
  && option_equal value_equal (defaultValue a) (defaultValue b).

Definition equal_object (a b : ColumnObject) : bool :=
  equal_definition (options a) (options b)
  && option_equal String.eqb (nextColumnName a) (nextColumnName b).

(** [equal(metaDataByTableName, modelColumns)] on two freshly parsed tables:
    the same number of keys, and under every key of the one an equal value
    in the other. *)
Definition equal (a b : object ColumnDefinition) : bool :=
  Nat.eqb (length a) (length b)
  && forallb (fun '(k, x) =>
                match Obj.get k b with
                | Some y => equal_object (parsed x) (parsed y)
                | None => false
                end) a.

(** [equal(x, y)] on two stored objects. *)
Definition equal_at (h : list ColumnObject) (x y : loc) : bool :=
  match h !! x, h !! y with
  | Some a, Some b => equal_object a b
  | _, _ => false
  end.

(** ** GET-RAW-MIGRATIONS: classification *)

Record Columns := {
  col_new : object loc;
  col_change : object loc;
  col_rename : object loc;
  col_remove : list string
}.

Record State := {
  heap : list ColumnObject;
  metaDataByTableName : object loc;
  columns : Columns
}.

Definition with_heap (h : list ColumnObject) (st : State) : State :=
  {| heap := h; metaDataByTableName := metaDataByTableName st;
     columns := columns st |}.

Definition prevColumnName_at (h : list ColumnObject) (x : loc) : option string :=
  match h !! x with
  | Some o => prevColumnName (options o)
  | None => None
  end.

Definition nextColumnName_at (h : list ColumnObject) (x : loc) : option string :=
  match h !! x with
  | Some o => nextColumnName o
  | None => None
  end.

(** One turn of the loop over [Object.entries(modelColumns)]. The inner
    [currentColumnOptions] of the rename branch shadows the outer one, so
    the closing [if (currentColumnOptions)] tests what was found under the
    column's own name.

    The table is a plain object, so a name it does not have is looked up
    in [Object.prototype]. For the column's own name this gives a function,
    which holds as a condition and which [equal] tells apart from any
    column object: the column is filed as changed, and the mark of the
    closing [if] lands on the function, which the table does not hold. For
    the previous name it gives a value that holds as a condition, and the
    [delete] finds nothing to delete.

    The model columns come out of [JSON.parse] in [getModelColumns] and
    have no property [__proto__] of their own, so the names assigned under
    here are never [__proto__]. *)
Definition forward_step (st : State) (entry : string * loc) : State :=
  let '(modelColumnName, modelColumnOptions) := entry in
  let currentColumnOptions :=
    Obj.get modelColumnName (metaDataByTableName st) in
  let changed :=
    {| heap := heap st;
       metaDataByTableName :=
         Obj.set modelColumnName modelColumnOptions
                 (metaDataByTableName st);
       columns :=
         {| col_new := col_new (columns st);
            col_change := Obj.set modelColumnName modelColumnOptions
                                  (col_change (columns st));
            col_rename := col_rename (columns st);
            col_remove := col_remove (columns st) |} |} in
  let st1 :=
    match currentColumnOptions with
    | Some current =>
        if negb (equal_at (heap st) current modelColumnOptions) then changed
        else st
    | None =>
        if Obj.inherited modelColumnName then changed
        else
        match truthy (prevColumnName_at (heap st) modelColumnOptions) with
        | Some prev =>
            if Obj.present prev (metaDataByTableName st)
               && negb (String.eqb modelColumnName prev)
            then
              {| heap := heap st;
                 metaDataByTableName :=
                   Obj.set modelColumnName modelColumnOptions
                           (Obj.del prev (metaDataByTableName st));
                 columns :=
                   {| col_new := col_new (columns st);
                      col_change := col_change (columns st);
                      col_rename := Obj.set modelColumnName modelColumnOptions
                                            (col_rename (columns st));
                      col_remove := col_remove (columns st) |} |}
            else st
        | None =>
            {| heap := heap st;
               metaDataByTableName :=
                 Obj.set modelColumnName modelColumnOptions
                         (metaDataByTableName st);
               columns :=
                 {| col_new := Obj.set modelColumnName modelColumnOptions
                                       (col_new (columns st));
                    col_change := col_change (columns st);
                    col_rename := col_rename (columns st);
                    col_remove := col_remove (columns st) |} |}
        end
    end in
  match currentColumnOptions with
  | Some current =>
      with_heap
        (alter (set_nextColumnName (Some modelColumnName)) current (heap st1))
        st1
  | None => st1
  end.

(** The test of the second loop: [!modelColumns[name] &&
    !modelColumns[options.nextColumnName]]. An object without the mark
    yields the key [undefined]. The model columns are a plain object: a
    name they do not have is looked up in [Object.prototype]. *)
Definition is_removed (modelColumns : object loc) (h : list ColumnObject)
    (currentColumnName : string) (currentColumnOptions : loc) : bool :=
  negb (Obj.present currentColumnName modelColumns)
  && negb (Obj.present
             (property_key (nextColumnName_at h currentColumnOptions))
             modelColumns).

(** One turn of the loop over [Object.entries(metaDataByTableName)], for a
    given removal test. *)
Definition removal_step_with
    (test : list ColumnObject -> string -> loc -> bool)
    (st : State) (entry : string * loc) : State :=
  let '(currentColumnName, currentColumnOptions) := entry in
  let st1 :=
    if test (heap st) currentColumnName currentColumnOptions then
      {| heap := heap st;
         metaDataByTableName :=
           Obj.del currentColumnName (metaDataByTableName st);
         columns :=
           {| col_new := col_new (columns st);
              col_change := col_change (columns st);
              col_rename := col_rename (columns st);
              col_remove := col_remove (columns st) ++ [currentColumnName] |} |}
    else st in
  with_heap (alter (set_nextColumnName None) currentColumnOptions (heap st1))
            st1.

Definition removal_step (modelColumns : object loc) : State -> string * loc -> State :=
  removal_step_with (is_removed modelColumns).

(** The objects of a parsed table placed in the store from location
    [base] on. *)
Fixpoint locations {A} (base : nat) (o : object A) : object loc :=
  match o with
  | [] => []
  | (k, _) :: o' => (k, base) :: locations (S base) o'
  end.

Definition emptyColumns : Columns :=
  {| col_new := []; col_change := []; col_rename := []; col_remove := [] |}.

(** The state in which the loops start: the snapshot's objects, then the
    model's, all distinct. *)
Definition initial_state (metaColumns modelColumns : object ColumnDefinition)
  : State :=
  {| heap := map (fun e => parsed (snd e)) metaColumns
             ++ map (fun e => parsed (snd e)) modelColumns;
     metaDataByTableName := locations 0 metaColumns;
     columns := emptyColumns |}.

Definition model_locations (metaColumns modelColumns : object ColumnDefinition)
  : object loc :=
  locations (length metaColumns) modelColumns.

Definition forward_pass (metaColumns modelColumns : object ColumnDefinition)
  : State :=
  fold_left forward_step (model_locations metaColumns modelColumns)
            (initial_state metaColumns modelColumns).

Definition removal_pass_with
    (test : list ColumnObject -> string -> loc -> bool) (st : State) : State :=
  fold_left (removal_step_with test) (metaDataByTableName st) st.

(** Both loops of the [else] branch, for a given removal test. *)
Definition classify_with
    (test : object loc -> list ColumnObject -> string -> loc -> bool)
    (metaColumns modelColumns : object ColumnDefinition) : State :=
  removal_pass_with (test (model_locations metaColumns modelColumns))
                    (forward_pass metaColumns modelColumns).

Definition classify : object ColumnDefinition -> object ColumnDefinition -> State :=
  classify_with is_removed.

(** The removal test reduced to its first conjunct,
    [!modelColumns[name]], as the specification's design notes propose: a
    stored column is removed when nothing is found under its own name in
    the model columns. *)
Definition name_is_absent (modelColumns : object loc) (h : list ColumnObject)
    (currentColumnName : string) (currentColumnOptions : loc) : bool :=
  negb (Obj.present currentColumnName modelColumns).

(** What [JSON.stringify] sees under the locations of an object. *)
Definition read (h : list ColumnObject) (o : object loc) : object ColumnObject :=
  omap (fun '(k, x) => match h !! x with
                       | Some v => Some (k, v)
                       | None => None
                       end) o.

(** ** GET-RAW-MIGRATIONS: descriptors

    The [content] template is kept as the calls it spells out, each with the
    values it interpolates; a payload is what is handed to [JSON.stringify],
    [None] when [JSON.stringify] makes [undefined] of it and the template
    prints [undefined]. A down-operation looks the column's name up in the
    frozen copy of the table: what it finds there, when the copy has no
    such column, is [undefined] or a function of [Object.prototype], of
    which [JSON.stringify] makes [undefined] as well. The one name for which
    it finds something else is [__proto__], under which a copy without such
    a column gives [Object.prototype] itself, printed as an empty object; a
    payload has no value for that, and [None] then stands in its place. *)

Inductive Operation :=
| createTable (table : string) (columns : object ColumnDefinition)
| dropTable (table : string)
| addColumn (table column : string) (payload : option ColumnObject)
| removeColumn (table column : string)
| changeColumn (table column : string) (payload : option ColumnObject)
| renameColumn (table before after : string) (payload : option ColumnObject).

Record Migration := {
  label : string;
  up : list Operation;
  down : list Operation
}.

(** [columnNames.length > 1 ? plural : singular] *)
Definition label_for (singular plural : string) (columnNames : list string)
  : string :=
  if Nat.ltb 1 (length columnNames) then plural else singular.

(** [bucket[columnName]], dereferenced when the template is filled in. *)
Definition payload_at (h : list ColumnObject) (bucket : object loc)
    (columnName : string) : option ColumnObject :=
  match Obj.get columnName bucket with
  | Some x => h !! x
  | None => None
  end.

Section descriptors.
Variable table : string.
Variable modelColumns : object loc.
Variable freezeMetaDataByTableName : object ColumnObject.
Variable st : State.

(** [modelColumns[columnName].prevColumnName] inside a template *)
Definition previous_name (columnName : string) : string :=
  property_key
    (match Obj.get columnName modelColumns with
     | Some x => prevColumnName_at (heap st) x
     | None => None
     end).

Definition migration_new : list Migration :=
  let columnNames := Obj.keys (col_new (columns st)) in
  match columnNames with
  | [] => []
  | _ =>
      [ {| label := label_for "add-column-to" "add-columns-to" columnNames;
           up := map (fun columnName =>
                        addColumn table columnName
                          (payload_at (heap st) (col_new (columns st))
                                      columnName)) columnNames;
           down := map (removeColumn table) columnNames |} ]
  end.

Definition migration_change : list Migration :=
  let columnNames := Obj.keys (col_change (columns st)) in
  match columnNames with
  | [] => []
  | _ =>
      [ {| label := label_for "change-column-to" "change-columns-to"
                              columnNames;
           up := map (fun columnName =>
                        changeColumn table columnName
                          (payload_at (heap st) (col_change (columns st))
                                      columnName)) columnNames;
           down := map (fun columnName =>
                          changeColumn table columnName
                            (Obj.get columnName freezeMetaDataByTableName))
                       columnNames |} ]
  end.

Definition migration_rename : list Migration :=
  let columnNames := Obj.keys (col_rename (columns st)) in
  match columnNames with
  | [] => []
  | _ =>
      [ {| label := label_for "rename-column-to" "rename-columns-to"
                              columnNames;
           up := map (fun columnName =>
                        renameColumn table (previous_name columnName)
                          columnName
                          (payload_at (heap st) (col_rename (columns st))
                                      columnName)) columnNames;
           down := map (fun columnName =>
                          renameColumn table columnName
                            (previous_name columnName)
                            (Obj.get (previous_name columnName)
                                     freezeMetaDataByTableName))
                       columnNames |} ]
  end.

Definition migration_remove : list Migration :=
  match col_remove (columns st) with
  | [] => []
  | _ =>
      [ {| label := label_for "remove-column-from" "remove-columns-from"
                              (col_remove (columns st));
           up := map (removeColumn table) (col_remove (columns st));
           down := map (fun columnName =>
                          addColumn table columnName
                            (Obj.get columnName freezeMetaDataByTableName))
                       (col_remove (columns st)) |} ]
  end.

Definition migrations_of : list Migration :=
  migration_new ++ migration_change ++ migration_rename ++ migration_remove.
End descriptors.

Definition migration_initial (table : string)
    (modelColumns : object ColumnDefinition) : Migration :=
  {| label := "initial";
     up := [createTable table modelColumns];
     down := [dropTable table] |}.

(** What a call of [getRawMigrations] ends with when it does not return:
    ['no change'], which it throws itself, or the [SyntaxError] of
    [JSON.parse]. [prototype_taken] is not thrown: it stands for the call
    on the table name [__proto__], which takes [Object.prototype] for the
    table's entry and writes the columns into it, where every later lookup
    by name finds them. This development does not follow that call. *)
Inductive Thrown := no_change | syntax_error | prototype_taken.

(** The body of [getRawMigrations] once [modelColumns] is computed: the
    result or the thrown value, and [metaData] as the call leaves it. A
    table written back to [meta.json] is [JSON.stringify] of the stored
    objects; [stored_definitions] keeps their definitions, and
    [classify_marks_cleared] below shows that no mark is left on them.

    [metaData] is a plain object. For a table name it does not have,
    [metaData[tableName]] is looked up in [Object.prototype]: what is found
    there is a function, of which [JSON.stringify] makes [undefined], which
    [JSON.parse] refuses with a [SyntaxError] before anything is written;
    under [__proto__] it is [Object.prototype] itself. *)
Definition stored_definitions (st : State) : object ColumnDefinition :=
  map (fun e => (fst e, options (snd e)))
      (read (heap st) (metaDataByTableName st)).

Definition diff_with
    (test : object loc -> list ColumnObject -> string -> loc -> bool)
    (table : string) (modelColumns : object ColumnDefinition)
    (metaData : object (object ColumnDefinition))
  : (Thrown + list Migration) * object (object ColumnDefinition) :=
  match Obj.get table metaData with
  | Some metaColumns =>
      let freezeMetaDataByTableName :=
        map (fun e => (fst e, parsed (snd e))) metaColumns in
      if equal metaColumns modelColumns then (inl no_change, metaData)
      else
        let st := classify_with test metaColumns modelColumns in
        (inr (migrations_of table (model_locations metaColumns modelColumns)
                            freezeMetaDataByTableName st),
         Obj.set table (stored_definitions st) metaData)
  | None =>
      if String.eqb table "__proto__" then (inl prototype_taken, metaData)
      else if Obj.inherited table then (inl syntax_error, metaData)
      else (inr [migration_initial table modelColumns],
            Obj.set table modelColumns metaData)
  end.

Definition diff : string -> object ColumnDefinition ->
    object (object ColumnDefinition) ->
    (Thrown + list Migration) * object (object ColumnDefinition) :=
  diff_with is_removed.

(** The same with the reduced removal test. *)
Definition diff_by_name : string -> object ColumnDefinition ->
    object (object ColumnDefinition) ->
    (Thrown + list Migration) * object (object ColumnDefinition) :=
  diff_with name_is_absent.

Definition getRawMigrations (model : Model)
    (metaData : object (object ColumnDefinition))
  : (Thrown + list Migration) * object (object ColumnDefinition) :=
  diff (tableName model) (getModelColumns model) metaData.

End MakeMigrations.

(** [columns] as [getModelColumns] has assembled it when it hands it to
    [JSON.stringify]. *)
Abbreviation assembled model :=
  (if paranoid model
   then assign_base "deletedAt"
          (if timestamps model
           then assign_base "updatedAt"
                  (assign_base "createdAt"
                     (fold_left attribute_step (attributes model)
                        (if Obj.has "id" (attributes model)
                         then assign_base "id" [] else [])))
           else fold_left attribute_step (attributes model)
                  (if Obj.has "id" (attributes model)
                   then assign_base "id" [] else []))
   else if timestamps model
        then assign_base "updatedAt"
               (assign_base "createdAt"
                  (fold_left attribute_step (attributes model)
                     (if Obj.has "id" (attributes model)
                      then assign_base "id" [] else [])))
        else fold_left attribute_step (attributes model)
               (if Obj.has "id" (attributes model)
                then assign_base "id" [] else [])).

(** [{ ...d, prevColumnName: hint }] *)
Definition with_prevColumnName {Value} (d : @ColumnDefinition Value)
    (hint : string) : @ColumnDefinition Value :=
  {| type := type d; allowNull := allowNull d;
     autoIncrement := autoIncrement d; unique := unique d;
     primaryKey := primaryKey d; prevColumnName := Some hint;
     defaultValue := defaultValue d |}.

(** ** FORMAT-MIGRATION-CONTENT

    Texts are strings of code units below 256. Among these the white space
    of [\s] is tab, line feed, vertical tab, form feed, carriage return,
    space and no-break space, and the line terminators that [.] refuses are
    line feed and carriage return. *)

Definition quote : ascii := ascii_of_nat 34.
Definition dollar : ascii := ascii_of_nat 36.

Definition is_white_space (c : ascii) : bool :=
  existsb (Nat.eqb (nat_of_ascii c)) [9; 10; 11; 12; 13; 32; 160].

Definition is_line_terminator (c : ascii) : bool :=
  existsb (Nat.eqb (nat_of_ascii c)) [10; 13].

(** [s] without its prefix [p], when it starts with [p]. *)
Fixpoint strip_prefix (p s : string) : option string :=
  match p, s with
  | EmptyString, _ => Some s
  | String a p', String b s' =>
      if Ascii.eqb a b then strip_prefix p' s' else None
  | String _ _, EmptyString => None
  end.

(** The longest run of white space at the head of [s]: its length and what
    follows it. *)
Fixpoint skip_white_space (s : string) : nat * string :=
  match s with
  | String c s' =>
      if is_white_space c
      then let '(n, rest) := skip_white_space s' in (S n, rest)
      else (0, s)
  | EmptyString => (0, s)
  end.

(** The position of the last quote before the first line terminator of [s],
    which is where the greedy [.+] followed by a quote ends. *)
Fixpoint last_quote_in_line (s : string) : option nat :=
  match s with
  | String c s' =>
      if is_line_terminator c then None
      else match last_quote_in_line s' with
           | Some i => Some (S i)
           | None => if Ascii.eqb c quote then Some 0 else None
           end
  | EmptyString => None
  end.

Definition type_key : string := String quote ("type" +:+ String quote ":").
Definition type_head : string := String quote "DataTypes".

(** A match of ["type":\s+("DataTypes.+")] at the head of [s]: the captured
    group and the length of the whole match. The white space is followed by
    a quote, so [\s+] takes the whole run; [.+] takes at least one code unit
    and gives back as little as the closing quote asks. *)
Definition match_at (s : string) : option (string * nat) :=
  match strip_prefix type_key s with
  | Some s1 =>
      match skip_white_space s1 with
      | (0, _) => None
      | (S n, s2) =>
          match strip_prefix type_head s2 with
          | Some s3 =>
              match last_quote_in_line s3 with
              | Some (S i) =>
                  Some (type_head +:+ substring 0 (S (S i)) s3,
                        String.length type_key + S n
                        + String.length type_head + S (S i))
              | _ => None
              end
          | None => None
          end
      end
  | None => None
  end.

(** [matchAll] with the [g] flag, reduced to the first group: the matches
    from left to right, each search starting where the last match ended.
    [skip] counts the code units of the last match still to pass. *)
Fixpoint matched_types_from (s : string) (skip : nat) : list string :=
  match s with
  | EmptyString => []
  | String _ s' =>
      match skip with
      | S k => matched_types_from s' k
      | 0 =>
          match match_at s with
          | Some (type, len) => type :: matched_types_from s' (len - 1)
          | None => matched_types_from s' 0
          end
      end
  end.

Definition matchedTypes (migrationContent : string) : list string :=
  matched_types_from migrationContent 0.

(** [[...new Set(types)]]: first occurrences, in order. *)
Fixpoint distinct (seen types : list string) : list string :=
  match types with
  | [] => []
  | t :: types' =>
      if existsb (String.eqb t) seen then distinct seen types'
      else t :: distinct (t :: seen) types'
  end.

Definition formattedTypes (migrationContent : string) : list string :=
  distinct [] (matchedTypes migrationContent).

(** [GetSubstitution] for a string pattern, which has no captures: in the
    replacement text a dollar sign followed by a dollar sign stands for one
    dollar sign, followed by an ampersand for the match, by a backquote for
    what precedes the match, by an apostrophe for what follows it. *)
Fixpoint get_substitution (matched before after template : string) : string :=
  match template with
  | EmptyString => EmptyString
  | String a rest =>
      if Ascii.eqb a dollar then
        match rest with
        | String c rest' =>
            if Ascii.eqb c dollar
            then String dollar (get_substitution matched before after rest')
            else if Ascii.eqb c "&"
            then matched +:+ get_substitution matched before after rest'
            else if Ascii.eqb c "`"
            then before +:+ get_substitution matched before after rest'
            else if Ascii.eqb c "'"
            then after +:+ get_substitution matched before after rest'
            else String a (get_substitution matched before after rest)
        | EmptyString => String a EmptyString
        end
      else String a (get_substitution matched before after rest)
  end.

(** [s.replaceAll(searchValue, replaceValue)] for a search string that is
    not empty: the occurrences from left to right, none overlapping the
    one before. [before] is the text already passed. *)
Fixpoint replace_all_from (searchValue replaceValue before s : string)
    (skip : nat) : string :=
  match s with
  | EmptyString => EmptyString
  | String c s' =>
      match skip with
      | S k =>
          replace_all_from searchValue replaceValue
                           (before +:+ String c EmptyString) s' k
      | 0 =>
          match strip_prefix searchValue s with
          | Some after =>
              get_substitution searchValue before after replaceValue
              +:+ replace_all_from searchValue replaceValue
                                   (before +:+ String c EmptyString) s'
                                   (String.length searchValue - 1)
          | None =>
              String c (replace_all_from searchValue replaceValue
                          (before +:+ String c EmptyString) s' 0)
          end
      end
  end.

(** With the empty search string the replacement goes before every code
    unit and at the end. *)
Fixpoint replace_all_empty (replaceValue before s : string) : string :=
  get_substitution EmptyString before s replaceValue
  +:+ match s with
      | EmptyString => EmptyString
      | String c s' =>
          String c (replace_all_empty replaceValue
                      (before +:+ String c EmptyString) s')
      end.

Definition replaceAll (s searchValue replaceValue : string) : string :=
  match searchValue with
  | EmptyString => replace_all_empty replaceValue EmptyString s
  | String _ _ => replace_all_from searchValue replaceValue EmptyString s 0
  end.

Definition formatMigrationContent (migrationContent : string) : string :=
  fold_left
    (fun migrationContent type =>
       replaceAll migrationContent type
                  (replaceAll type (String quote EmptyString) EmptyString))
    (formattedTypes migrationContent) migrationContent.

(** The rewriting as the specification words it: every occurrence of
    [token], from left to right, gives way to [plain], taken as it is. *)
Fixpoint rewrite_from (token plain s : string) (skip : nat) : string :=
  match s with
  | EmptyString => EmptyString
  | String c s' =>
      match skip with
      | S k => rewrite_from token plain s' k
      | 0 =>
          match strip_prefix token s with
          | Some _ =>
              plain +:+ rewrite_from token plain s' (String.length token - 1)
          | None => String c (rewrite_from token plain s' 0)
          end
      end
  end.

(** A token without its quotes. *)
Fixpoint unquoted (token : string) : string :=
  match token with
  | EmptyString => EmptyString
  | String c token' =>
      if Ascii.eqb c quote then unquoted token' else String c (unquoted token')
  end.

Fixpoint has_dollar (s : string) : bool :=
  match s with
  | EmptyString => false
  | String c s' => Ascii.eqb c dollar || has_dollar s'
  end.

Definition rewriteTypes (migrationContent : string) : string :=
  fold_left (fun content token => rewrite_from token (unquoted token) content 0)
            (formattedTypes migrationContent) migrationContent.

(** [s] between double quotes. *)
Definition quoted (s : string) : string :=
  String quote (s +:+ String quote EmptyString).

(** ** Invariants of the two loops *)

Section invariants.
Context {Value : Type}.
Variable value_equal : Value -> Value -> bool.
Variables metaColumns modelColumns : object (@ColumnDefinition Value).

(** Two stores hold the same definitions: they differ in marks only. *)
Definition same_options (h h' : list (@ColumnObject Value)) : Prop :=
  forall x : loc, option_map options (h !! x) = option_map options (h' !! x).

(** What holds between two turns of the first loop, [done] being the model
    columns seen so far and [todo] the ones to come. *)
Record forward_inv (done todo : object loc) (st : @State Value) : Prop := {
  fwd_split :
    (done ++ todo)%list = model_locations metaColumns modelColumns;
  fwd_options :
    same_options (heap st) (heap (initial_state metaColumns modelColumns));
  fwd_locs :
    List.NoDup (map snd (metaDataByTableName st));
  fwd_todo : forall k x,
    In (k, x) todo ->
    ~ In x (map snd (metaDataByTableName st))
    /\ nextColumnName_at (heap st) x = None;
  fwd_marks : forall k x,
    In (k, x) (metaDataByTableName st) ->
    nextColumnName_at (heap st) x = None
    \/ (nextColumnName_at (heap st) x = Some k /\ In k (Obj.keys done));
  fwd_origin : forall k x,
    In (k, x) (metaDataByTableName st) ->
    In (k, x) (locations 0 metaColumns) \/ In (k, x) done;
  fwd_new : forall k x,
    In (k, x) (col_new (columns st)) -> In (k, x) done;
  fwd_change : forall k x,
    In (k, x) (col_change (columns st)) ->
    In (k, x) done
    /\ ((exists y, In (k, y) (locations 0 metaColumns)
                   /\ equal_at value_equal
                        (heap (initial_state metaColumns modelColumns)) y x
                      = false)
        \/ Obj.inherited k = true);
  fwd_rename : forall k x,
    In (k, x) (col_rename (columns st)) ->
    In (k, x) done
    /\ exists prev,
         truthy (prevColumnName_at
                   (heap (initial_state metaColumns modelColumns)) x)
         = Some prev
         /\ (In prev (Obj.keys (metaDataByTableName st)) ->
             In prev (Obj.keys modelColumns));
  fwd_remove :
    col_remove (columns st) = []
}.

(** What holds between two turns of the second loop, which runs over the
    entries the first loop left in [fwd]. *)
Record removal_inv (fwd : @State Value) (todo : object loc)
    (st : @State Value) : Prop := {
  rem_options :
    same_options (heap st) (heap (initial_state metaColumns modelColumns));
  rem_marks : forall k x,
    In (k, x) todo ->
    nextColumnName_at (heap st) x = None
    \/ (nextColumnName_at (heap st) x = Some k
        /\ In k (Obj.keys modelColumns));
  rem_todo : forall k x,
    In (k, x) todo -> In (k, x) (metaDataByTableName fwd);
  rem_meta : forall k x,
    In (k, x) (metaDataByTableName st) ->
    In (k, x) (metaDataByTableName fwd);
  rem_cleared : forall k x,
    In (k, x) (metaDataByTableName st) ->
    In (k, x) todo \/ nextColumnName_at (heap st) x = None;
  rem_new : col_new (columns st) = col_new (columns fwd);
  rem_change : col_change (columns st) = col_change (columns fwd);
  rem_rename : col_rename (columns st) = col_rename (columns fwd);
  rem_removed : forall k,
    In k (col_remove (columns st)) ->
    In k (Obj.keys (metaDataByTableName fwd))
    /\ ~ In k (Obj.keys modelColumns)
    /\ Obj.inherited k = false
}.

(** A model column is settled when its turn of the first loop stores it:
    something is found under its name in the snapshot, or it has no
    previous name to look for, or its previous name is a stored column that
    the model no longer has and that no other missing model column
    claims. *)
Definition settled (k : string) (d : @ColumnDefinition Value) : Prop :=
  Obj.present k metaColumns = true
  \/ truthy (prevColumnName d) = None
  \/ exists prev,
       truthy (prevColumnName d) = Some prev
       /\ Obj.has prev metaColumns = true
       /\ Obj.has prev modelColumns = false
       /\ forall k' d',
            In (k', d') modelColumns ->
            Obj.has k' metaColumns = false ->
            truthy (prevColumnName d') = Some prev ->
            k' = k.

(** What settled columns add to the invariant of the first loop: every
    column seen so far is stored under its name with a definition [equal]
    accepts, and the stored columns still to be matched are there. *)
Record settled_inv (done : object loc) (st : @State Value) : Prop := {
  stl_keys :
    List.NoDup (Obj.keys (metaDataByTableName st));
  stl_done : forall k x,
    In (k, x) done ->
    exists z dz dx,
      In (k, z) (metaDataByTableName st)
      /\ heap (initial_state metaColumns modelColumns) !! z = Some (parsed dz)
      /\ heap (initial_state metaColumns modelColumns) !! x = Some (parsed dx)
      /\ equal_definition value_equal dz dx = true;
  stl_kept : forall k,
    In k (Obj.keys metaColumns) -> In k (Obj.keys modelColumns) ->
    In k (Obj.keys (metaDataByTableName st));
  stl_free : forall prev,
    In prev (Obj.keys metaColumns) -> ~ In prev (Obj.keys modelColumns) ->
    (forall k x, In (k, x) done -> ~ In k (Obj.keys metaColumns) ->
       truthy (prevColumnName_at
                 (heap (initial_state metaColumns modelColumns)) x)
       <> Some prev) ->
    In prev (Obj.keys (metaDataByTableName st))
}.

End invariants.

(** ** Reading descriptors

    Two ways of looking at a descriptor, used to state what
    [getRawMigrations] returns. *)

(** An operation of [down] undoes the operation of [up] at the same place:
    the same table, the same column, the two names of a rename exchanged. *)
Definition mirrors {Value} (table : string) (op_up op_down : @Operation Value)
  : Prop :=
  match op_up, op_down with
  | createTable t _, dropTable t' => t = table /\ t' = table
  | addColumn t c _, removeColumn t' c' => t = table /\ t' = table /\ c = c'
  | removeColumn t c, addColumn t' c' _ => t = table /\ t' = table /\ c = c'
  | changeColumn t c _, changeColumn t' c' _ =>
      t = table /\ t' = table /\ c = c'
  | renameColumn t a b _, renameColumn t' b' a' _ =>
      t = table /\ t' = table /\ a = a' /\ b = b'
  | _, _ => False
  end.

(** The place of a label in the order in which descriptors are emitted,
    and whether it is a plural form. *)
Definition label_kind (label : string) : option (nat * bool) :=
  if String.eqb label "initial" then Some (0, false)
  else if String.eqb label "add-column-to" then Some (1, false)
  else if String.eqb label "add-columns-to" then Some (1, true)
  else if String.eqb label "change-column-to" then Some (2, false)
  else if String.eqb label "change-columns-to" then Some (2, true)
  else if String.eqb label "rename-column-to" then Some (3, false)
  else if String.eqb label "rename-columns-to" then Some (3, true)
  else if String.eqb label "remove-column-from" then Some (4, false)
  else if String.eqb label "remove-columns-from" then Some (4, true)
  else None.

(** What one bucket contributes when it is not empty: a descriptor of the
    bucket's kind with as many operations down as up, mirrored. *)
Definition of_kind {Value} (rank : nat) (table : string)
    (m : @Migration Value) : Prop :=
  up m <> []
  /\ length (up m) = length (down m)
  /\ label_kind (label m) = Some (rank, Nat.ltb 1 (length (up m)))
  /\ Forall2 (mirrors table) (up m) (down m).

(** A column of both tables whose two definitions [equal] tells apart. *)
Definition differs {Value} (value_equal : Value -> Value -> bool)
    (metaColumns modelColumns : object (@ColumnDefinition Value))
    (k : string) : bool :=
  match Obj.get k metaColumns, Obj.get k modelColumns with
  | Some d, Some d' => negb (equal_definition value_equal d d')
  | _, _ => false
  end.

(** What an operation of [up] says about the two tables it was computed
    from: an added, changed or renamed column carries the model's definition
    of that column, unmarked; a rename starts from the previous name that
    definition gives; a removed column is one the snapshot had. *)
Definition up_reads {Value}
    (metaColumns modelColumns : object (@ColumnDefinition Value))
    (op : @Operation Value) : Prop :=
  match op with
  | addColumn _ c payload | changeColumn _ c payload =>
      exists d, Obj.get c modelColumns = Some d /\ payload = Some (parsed d)
  | renameColumn _ before after payload =>
      exists d, Obj.get after modelColumns = Some d
                /\ payload = Some (parsed d)
                /\ truthy (prevColumnName d) = Some before
  | removeColumn _ c =>
      Obj.has c metaColumns = true /\ Obj.has c modelColumns = false
  | createTable _ _ | dropTable _ => False
  end.

(** No column is filed in any bucket. *)
Definition nothing_filed (c : Columns) : Prop :=
  col_new c = [] /\ col_change c = [] /\ col_rename c = []
  /\ col_remove c = [].

(** ** Reading texts *)

Fixpoint has_line_terminator (s : string) : bool :=
  match s with
  | EmptyString => false
  | String c s' => is_line_terminator c || has_line_terminator s'
  end.

Fixpoint all_white_space (s : string) : bool :=
  match s with
  | EmptyString => true
  | String c s' => is_white_space c && all_white_space s'
  end.

(** ** The run over all models

    The main function, [createMigrations] and [getMetaData]. What they do
    to the outside is kept as the list of events in the order they happen.
    The outside answers as a function of what has happened so far: the
    clock behind [format(new Date(), ...)], whether a [fs.writeFile]
    resolves, and what [prettier.format] makes of a text, if it does not
    throw. [content] is the text of a descriptor, that is its template
    with the names and payloads of the operations filled in.

    The code comes twice, as a script that takes its models and its output
    path from where it runs, and as a function of both. The two differ in
    their templates, which [content] stands for, and in what they say on
    the console. *)

Inductive Program := script | library.

Section Run.
Context {Value : Type}.
Variable value_equal : Value -> Value -> bool.

Abbreviation MetaData := (object (object (@ColumnDefinition Value))).

Inductive Written :=
| migration_text (text : string)
| snapshot_json (metaData : MetaData).

(** What a model's turn can end with instead of returning. [astray]
    stands for a turn on the table name [__proto__], which is not
    followed. *)
Inductive Failure :=
| thrown_no_change
| thrown_syntax_error
| prettier_threw
| write_rejected
| astray.

Inductive Event :=
| file_written (path : string) (data : Written)
| console_log (message : string)
| console_error (modelName : string) (err : Failure)
| consola_success (message : string)
| consola_info (modelName : string) (err : Failure)
| consola_error (err : Failure).

Record Outside := {
  outputPath : string;
  content : @Migration Value -> string;
  prettier_format : string -> option string;
  now : list Event -> string;
  writable : list Event -> string -> bool
}.

Variable world : Outside.
Variable program : Program.

(** [console.log('Migration created: ' + fileName)] in the script,
    [consola.success] in the library. *)
Definition created (fileName : string) : Event :=
  match program with
  | script => console_log ("Migration created: " +:+ fileName)
  | library => consola_success ("Migration created: " +:+ fileName)
  end.

(** The [catch] of the main loop: the script prints every error with the
    model's name; the library tells [no change] apart. *)
Definition report (modelName : string) (err : Failure) : Event :=
  match program with
  | script => console_error modelName err
  | library =>
      match err with
      | thrown_no_change => consola_info modelName err
      | _ => consola_error err
      end
  end.

Definition meta_path : string := outputPath world +:+ "/meta.json".

(** [await fs.writeFile(path, data)] *)
Definition writeFile (trace : list Event) (path : string) (data : Written)
  : list Event * option Failure :=
  if writable world trace path
  then ((trace ++ [file_written path data])%list, None)
  else (trace, Some write_rejected).

Definition fileName (trace : list Event) (rawMigration : @Migration Value)
    (model : @Model Value) : string :=
  now world trace +:+ "-" +:+ label rawMigration +:+ "-"
  +:+ tableName model +:+ ".js".

(** One turn of the loop of [createMigrations]; [metaData] is the object
    [getRawMigrations] has left. *)
Definition write_migration (model : @Model Value) (metaData : MetaData)
    (trace : list Event) (rawMigration : @Migration Value)
  : list Event * option Failure :=
  let fileName := fileName trace rawMigration model in
  let filePath := outputPath world +:+ "/" +:+ fileName in
  match prettier_format world
          (formatMigrationContent (content world rawMigration)) with
  | None => (trace, Some prettier_threw)
  | Some text =>
      match writeFile trace filePath (migration_text text) with
      | (trace1, Some err) => (trace1, Some err)
      | (trace1, None) =>
          writeFile (trace1 ++ [created fileName])%list
                    meta_path (snapshot_json metaData)
      end
  end.

Fixpoint write_migrations (model : @Model Value) (metaData : MetaData)
    (trace : list Event) (rawMigrations : list (@Migration Value))
  : list Event * option Failure :=
  match rawMigrations with
  | [] => (trace, None)
  | rawMigration :: rest =>
      match write_migration model metaData trace rawMigration with
      | (trace1, Some err) => (trace1, Some err)
      | (trace1, None) => write_migrations model metaData trace1 rest
      end
  end.

(** [createMigrations(model)]: [metaData] as the call leaves it, the events
    so far, and what was thrown if the call did not return. *)
Definition createMigrations (model : @Model Value) (metaData : MetaData)
    (trace : list Event) : MetaData * list Event * option Failure :=
  match getRawMigrations value_equal model metaData with
  | (inl no_change, metaData') => (metaData', trace, Some thrown_no_change)
  | (inl syntax_error, metaData') =>
      (metaData', trace, Some thrown_syntax_error)
  | (inl prototype_taken, metaData') => (metaData', trace, Some astray)
  | (inr rawMigrations, metaData') =>
      let '(trace', err) :=
        write_migrations model metaData' trace rawMigrations in
      (metaData', trace', err)
  end.

(** The condition of the main loop. *)
Definition eligible (entry : string * @Model Value) : bool :=
  negb (existsb (String.eqb (fst entry)) ["Sequelize"; "sequelize"])
  && autoMigrations (snd entry).

(** One turn of the main loop. *)
Definition main_step (state : MetaData * list Event)
    (entry : string * @Model Value) : MetaData * list Event :=
  let '(metaData, trace) := state in
  if eligible entry then
    match createMigrations (snd entry) metaData trace with
    | (metaData', trace', Some err) =>
        (metaData', (trace' ++ [report (fst entry) err])%list)
    | (metaData', trace', None) => (metaData', trace')
    end
  else state.

(** [getMetaData()]: [required] is what [require] gives for [meta.json],
    [None] when it throws. When the write of the empty snapshot is rejected
    nothing catches it. *)
Definition getMetaData (required : option MetaData)
  : option (MetaData * list Event) :=
  match required with
  | Some metaData => Some (metaData, [])
  | None =>
      match writeFile [] meta_path (snapshot_json []) with
      | (trace, None) => Some ([], trace)
      | (_, Some _) => None
      end
  end.

Definition main (required : option MetaData)
    (models : object (@Model Value)) : option (MetaData * list Event) :=
  match getMetaData required with
  | Some state => Some (fold_left main_step models state)
  | None => None
  end.

(** What a path holds after the events of [trace], when one of them wrote
    to it. *)
Definition file_at (path : string) (trace : list Event) : option Written :=
  fold_left (fun held e =>
               match e with
               | file_written p data =>
                   if String.eqb p path then Some data else held
               | _ => held
               end) trace None.

(** The snapshot in memory after the turns of [models], whatever the
    outside does. *)
Definition memory_after (models : object (@Model Value))
    (metaData : MetaData) : MetaData :=
  fold_left (fun metaData entry =>
               if eligible entry
               then snd (getRawMigrations value_equal (snd entry) metaData)
               else metaData) models metaData.

(** The snapshot an event writes, if it writes one. *)
Definition snapshot_of (e : Event) : option MetaData :=
  match e with
  | file_written _ (snapshot_json metaData) => Some metaData
  | _ => None
  end.

(** An outside in which nothing fails. *)
Definition nothing_fails : Prop :=
  (forall trace path, writable world trace path = true)
  /\ (forall text, is_Some (prettier_format world text)).

End Run.

(** A model all of whose columns are settled with respect to its entry in
    a snapshot, none of them being called [undefined]. Where the snapshot
    has no entry for the table, the table's name is not that of a property
    of [Object.prototype]; where it has one, the stored columns the model
    lacks bear no such name. *)
Definition settled_model {Value} (metaData : object (object (@ColumnDefinition Value)))
    (model : @Model Value) : Prop :=
  ~ In "undefined" (Obj.keys (getModelColumns model))
  /\ (Obj.get (tableName model) metaData = None ->
      Obj.inherited (tableName model) = false)
  /\ forall metaColumns,
       Obj.get (tableName model) metaData = Some metaColumns ->
       List.NoDup (Obj.keys metaColumns)
       /\ (forall k d, In (k, d) (getModelColumns model) ->
                       settled metaColumns (getModelColumns model) k d)
       /\ (forall k, In k (Obj.keys metaColumns) ->
                     ~ In k (Obj.keys (getModelColumns model)) ->
                     Obj.inherited k = false).

(** The tables of the models that take part, in their order. *)
Definition tables {Value} (models : object (@Model Value)) : list string :=
  map (fun entry => tableName (snd entry)) (List.filter eligible models).

(** ** Sample tables

    Concrete inputs, with string-valued defaults compared as strings. *)

Definition column (t : string) (hint : option string) : @ColumnDefinition string :=
  {| type := t; allowNull := None; autoIncrement := None; unique := None;
     primaryKey := None; prevColumnName := hint; defaultValue := None |}.

(** [meta.json] after a first run on a table [users] with one column. *)
Definition users_name : object (object (@ColumnDefinition string)) :=
  [ ("users", [ ("name", column "DataTypes.STRING" None) ]) ].

(** The model then gains a column that names a previous column the snapshot
    never had. *)
Definition name_and_hinted_mail : object (@ColumnDefinition string) :=
  [ ("name", column "DataTypes.STRING" None);
    ("mail", column "DataTypes.STRING" (Some "email")) ].

(** The rename of the specification's example. *)
Definition users_email : object (object (@ColumnDefinition string)) :=
  [ ("users", [ ("email", column "DataTypes.STRING" None) ]) ].

Definition mail_from_email : object (@ColumnDefinition string) :=
  [ ("mail", column "DataTypes.STRING" (Some "email")) ].

(** A model whose only column is called [undefined], against a snapshot
    with another column. *)
Definition users_a : object (object (@ColumnDefinition string)) :=
  [ ("users", [ ("a", column "DataTypes.STRING" None) ]) ].

Definition only_undefined : object (@ColumnDefinition string) :=
  [ ("undefined", column "DataTypes.STRING" None) ].

(** A stored column with the empty name, and a model column that gives the
    empty string as its previous name. *)
Definition users_empty_name : object (object (@ColumnDefinition string)) :=
  [ ("users", [ ("", column "DataTypes.STRING" None) ]) ].

Definition b_from_empty_name : object (@ColumnDefinition string) :=
  [ ("b", column "DataTypes.STRING" (Some "")) ].

(** A snapshot with three columns, and a model that retypes the first,
    renames the second and drops the third. *)
Definition users_three : object (object (@ColumnDefinition string)) :=
  [ ("users", [ ("name", column "DataTypes.STRING" None);
                ("email", column "DataTypes.STRING" None);
                ("old", column "DataTypes.STRING" None) ]) ].

Definition text_name_and_mail : object (@ColumnDefinition string) :=
  [ ("name", column "DataTypes.TEXT" None);
    ("mail", column "DataTypes.STRING" (Some "email")) ].

(** The three descriptors of that run. *)
Definition change_name : Migration :=
  {| label := "change-column-to";
     up := [changeColumn "users" "name"
              (Some (parsed (column "DataTypes.TEXT" None)))];
     down := [changeColumn "users" "name"
                (Some (parsed (column "DataTypes.STRING" None)))] |}.

Definition rename_email : Migration :=
  {| label := "rename-column-to";
     up := [renameColumn "users" "email" "mail"
              (Some (parsed (column "DataTypes.STRING" (Some "email"))))];
     down := [renameColumn "users" "mail" "email"
                (Some (parsed (column "DataTypes.STRING" None)))] |}.

Definition remove_old : Migration :=
  {| label := "remove-column-from";
     up := [removeColumn "users" "old"];
     down := [addColumn "users" "old"
                (Some (parsed (column "DataTypes.STRING" None)))] |}.

(** A model of a table [users] with timestamps. *)
Definition users_model : @Model string :=
  {| attributes :=
       [ ("id", {| attr_type := "INTEGER"; attr_field := "id";
                   attr_allowNull := JsBool false; attr_unique := None;
                   attr_primaryKey := Some true; attr_prevColumnName := None;
                   attr_defaultValue := None |});
         ("name", {| attr_type := "STRING"; attr_field := "name";
                     attr_allowNull := JsBool false; attr_unique := None;
                     attr_primaryKey := None; attr_prevColumnName := None;
                     attr_defaultValue := None |});
         ("nick", {| attr_type := "STRING"; attr_field := "nick_name";
                     attr_allowNull := JsBool true; attr_unique := Some true;
                     attr_primaryKey := None; attr_prevColumnName := None;
                     attr_defaultValue := Some "none" |});
         ("fullName", {| attr_type := "VIRTUAL"; attr_field := "fullName";
                         attr_allowNull := JsUndefined; attr_unique := None;
                         attr_primaryKey := None; attr_prevColumnName := None;
                         attr_defaultValue := None |}) ];
     tableName := "users";
     autoMigrations := true;
     timestamps := true;
     paranoid := false |}.

(** Two attributes with one physical name, and an attribute whose physical
    name is that of a timestamp column. *)
Definition shared_field_model : @Model string :=
  {| attributes :=
       [ ("login", {| attr_type := "STRING"; attr_field := "user_name";
                      attr_allowNull := JsBool true; attr_unique := None;
                      attr_primaryKey := None; attr_prevColumnName := None;
                      attr_defaultValue := None |});
         ("userName", {| attr_type := "STRING"; attr_field := "user_name";
                         attr_allowNull := JsBool false; attr_unique := None;
                         attr_primaryKey := None; attr_prevColumnName := None;
                         attr_defaultValue := None |}) ];
     tableName := "users";
     autoMigrations := true;
     timestamps := false;
     paranoid := false |}.

Definition created_field_model : @Model string :=
  {| attributes :=
       [ ("created", {| attr_type := "STRING"; attr_field := "createdAt";
                        attr_allowNull := JsUndefined; attr_unique := None;
                        attr_primaryKey := None; attr_prevColumnName := None;
                        attr_defaultValue := None |}) ];
     tableName := "users";
     autoMigrations := true;
     timestamps := true;
     paranoid := false |}.

(** The line [JSON.stringify(column, null, 2)] prints for the type of a
    column, for a type tag that needs no escaping. *)
Definition type_line (d : @ColumnDefinition string) : string :=
  "  " +:+ quoted "type" +:+ ": " +:+ quoted (type d) +:+ ",".

(** An attribute of the data type [STRING], and one of a data type whose
    class is called by two dollar signs. *)
Definition string_attribute : @Attribute string :=
  {| attr_type := "STRING"; attr_field := "name";
     attr_allowNull := JsUndefined; attr_unique := None;
     attr_primaryKey := None; attr_prevColumnName := None;
     attr_defaultValue := None |}.

Definition dollar_attribute : @Attribute string :=
  {| attr_type := "$$"; attr_field := "price";
     attr_allowNull := JsUndefined; attr_unique := None;
     attr_primaryKey := None; attr_prevColumnName := None;
     attr_defaultValue := None |}.

(** ** More sample data *)

(** A snapshot of two tables. *)
Definition posts_and_users : object (object (@ColumnDefinition string)) :=
  [ ("posts", [ ("title", column "DataTypes.STRING" None) ]);
    ("users", [ ("name", column "DataTypes.STRING" None);
                ("email", column "DataTypes.STRING" None);
                ("old", column "DataTypes.STRING" None) ]) ].

(** Model columns without hints: [name] with another type and a new
    column. *)
Definition text_name_and_nick : object (@ColumnDefinition string) :=
  [ ("name", column "DataTypes.TEXT" None);
    ("nick", column "DataTypes.STRING" None) ].

Definition name_attribute : @Attribute string :=
  {| attr_type := "STRING"; attr_field := "name";
     attr_allowNull := JsUndefined; attr_unique := None;
     attr_primaryKey := None; attr_prevColumnName := None;
     attr_defaultValue := None |}.

(** A model with one column, and the same model with a second column that
    names a previous column no snapshot has. *)
Definition name_model : @Model string :=
  {| attributes := [ ("name", name_attribute) ];
     tableName := "users"; autoMigrations := true;
     timestamps := false; paranoid := false |}.

Definition hinted_mail_model : @Model string :=
  {| attributes :=
       [ ("name", name_attribute);
         ("mail", {| attr_type := "STRING"; attr_field := "mail";
                     attr_allowNull := JsUndefined; attr_unique := None;
                     attr_primaryKey := None;
                     attr_prevColumnName := Some "email";
                     attr_defaultValue := None |}) ];
     tableName := "users"; autoMigrations := true;
     timestamps := false; paranoid := false |}.

(** An outside in which every write resolves and [prettier] returns its
    input, and one in which [prettier] throws on every text. The clock
    stands still. *)
Definition quiet_world : @Outside string :=
  {| outputPath := "database/migrations";
     content := fun rawMigration => label rawMigration;
     prettier_format := Some;
     now := fun _ => "2024-01-01T00-00-00";
     writable := fun _ _ => true |}.

Definition failing_world : @Outside string :=
  {| outputPath := "database/migrations";
     content := fun rawMigration => label rawMigration;
     prettier_format := fun _ => None;
     now := fun _ => "2024-01-01T00-00-00";
     writable := fun _ _ => true |}.

(** Models as [Object.entries] gives them, with the entry of the library
    itself. *)
Definition users_and_library : object (@Model string) :=
  [ ("User", users_model); ("Sequelize", name_model) ].

(** A second model, and an outside in which [prettier] throws on the
    descriptors of the table [users] and on no other. *)
Definition posts_model : @Model string :=
  {| attributes := [ ("title", {| attr_type := "STRING"; attr_field := "title";
                                  attr_allowNull := JsUndefined;
                                  attr_unique := None; attr_primaryKey := None;
                                  attr_prevColumnName := None;
                                  attr_defaultValue := None |}) ];
     tableName := "posts"; autoMigrations := true;
     timestamps := false; paranoid := false |}.

Definition users_then_posts : object (@Model string) :=
  [ ("User", name_model); ("Post", posts_model) ].

Definition picky_world : @Outside string :=
  {| outputPath := "database/migrations";
     content := fun rawMigration =>
                  match up rawMigration with
                  | createTable table _ :: _ => table
                  | _ => label rawMigration
                  end;
     prettier_format := fun text =>
                          if String.eqb text "users" then None else Some text;
     now := fun _ => "2024-01-01T00-00-00";
     writable := fun _ _ => true |}.

(** ** Names that every object answers to *)

(** A model of a table called [constructor]. *)
Definition constructor_model : @Model string :=
  {| attributes := [ ("name", name_attribute) ];
     tableName := "constructor"; autoMigrations := true;
     timestamps := false; paranoid := false |}.

(** Model columns that add a column [a] and give it as the previous name
    of [b], and model columns that add a column [constructor]. *)
Definition name_a_and_b_from_a : object (@ColumnDefinition string) :=
  [ ("name", column "DataTypes.STRING" None);
    ("a", column "DataTypes.STRING" None);
    ("b", column "DataTypes.STRING" (Some "a")) ].

Definition name_and_constructor : object (@ColumnDefinition string) :=
  [ ("name", column "DataTypes.STRING" None);
    ("constructor", column "DataTypes.STRING" None) ].

(** A snapshot whose table [users] has a column [toString] besides
    [name]. *)
Definition users_name_and_toString : object (object (@ColumnDefinition string)) :=
  [ ("users", [ ("name", column "DataTypes.STRING" None);
                ("toString", column "DataTypes.STRING" None) ]) ].

(** A model with an attribute whose physical name is [__proto__]. *)
Definition proto_field_model : @Model string :=
  {| attributes :=
       [ ("name", name_attribute);
         ("parent", {| attr_type := "STRING"; attr_field := "__proto__";
                       attr_allowNull := JsUndefined; attr_unique := None;
                       attr_primaryKey := None; attr_prevColumnName := None;
                       attr_defaultValue := None |}) ];
     tableName := "users"; autoMigrations := true;
     timestamps := false; paranoid := false |}.

(** ** Properties of the object operations *)

Module ObjFacts.
Section facts.
Context {A : Type}.
Implicit Types (k : string) (v : A) (o : object A).

Lemma get_set_eq k v o : Obj.get k (Obj.set k v o) = Some v.
Proof.
  induction o as [|[k' v'] o IH]; simpl.
  - by rewrite String.eqb_refl.
  - destruct (String.eqb k k') eqn:E; simpl; rewrite ?String.eqb_refl, ?E; done.
Qed.

Lemma get_set_ne k k' v o : k <> k' -> Obj.get k' (Obj.set k v o) = Obj.get k' o.
Proof.
  intros Hne. induction o as [|[k0 v0] o IH]; simpl.
  - destruct (String.eqb_spec k' k); congruence.
  - destruct (String.eqb_spec k k0) as [->|]; simpl.
    + destruct (String.eqb_spec k' k0); congruence.
    + by rewrite IH.
Qed.

Lemma get_del_eq k o : Obj.get k (Obj.del k o) = None.
Proof.
  induction o as [|[k0 v0] o IH]; simpl; [done|].
  destruct (String.eqb k k0) eqn:E; simpl; rewrite ?E; done.
Qed.

Lemma get_del_ne k k' o : k <> k' -> Obj.get k' (Obj.del k o) = Obj.get k' o.
Proof.
  intros Hne. induction o as [|[k0 v0] o IH]; simpl; [done|].
  destruct (String.eqb_spec k k0) as [->|]; simpl.
  - rewrite IH. destruct (String.eqb_spec k' k0); congruence.
  - by rewrite IH.
Qed.

Lemma get_In k v o : Obj.get k o = Some v -> In (k, v) o.
Proof.
  induction o as [|[k0 v0] o IH]; simpl; [done|].
  destruct (String.eqb_spec k k0) as [->|]; [|by auto].
  intros [= ->]. by left.
Qed.

Lemma get_None k o : Obj.get k o = None <-> ~ In k (Obj.keys o).
Proof.
  induction o as [|[k0 v0] o IH]; simpl; [tauto|].
  destruct (String.eqb_spec k k0) as [->|Hne].
  - split; [done|]. intros H. exfalso. apply H. by left.
  - rewrite IH. split.
    + intros H [E|H']; [congruence|tauto].
    + tauto.
Qed.

Lemma has_true k o : Obj.has k o = true <-> In k (Obj.keys o).
Proof.
  unfold Obj.has. destruct (Obj.get k o) eqn:E.
  - split; [intros _|done]. apply get_In in E.
    apply (in_map fst) in E. exact E.
  - split; [done|]. intros H. by apply get_None in E.
Qed.

Lemma has_false k o : Obj.has k o = false <-> ~ In k (Obj.keys o).
Proof.
  rewrite <- has_true. destruct (Obj.has k o); split; congruence.
Qed.

Lemma In_set k v k0 v0 o :
  In (k, v) (Obj.set k0 v0 o) -> (k = k0 /\ v = v0) \/ In (k, v) o.
Proof.
  induction o as [|[k1 v1] o IH]; simpl.
  - intros [[= <- <-]|[]]. by left.
  - destruct (String.eqb_spec k0 k1) as [->|]; simpl.
    + intros [[= <- <-]|H]; auto.
    + intros [H|H]; auto. apply IH in H. tauto.
Qed.

Lemma In_del k v k0 o : In (k, v) (Obj.del k0 o) -> In (k, v) o /\ k <> k0.
Proof.
  induction o as [|[k1 v1] o IH]; simpl; [done|].
  destruct (String.eqb_spec k0 k1) as [->|]; simpl.
  - intros H. apply IH in H. tauto.
  - intros [[= -> ->]|H]; [split; [by left|congruence]|].
    apply IH in H. tauto.
Qed.

Lemma In_del_intro k v k0 o : In (k, v) o -> k <> k0 -> In (k, v) (Obj.del k0 o).
Proof.
  intros H Hne. induction o as [|[k1 v1] o IH]; simpl in *; [done|].
  destruct (String.eqb_spec k0 k1) as [->|]; simpl.
  - destruct H as [[= -> ->]|H]; [done|auto].
  - destruct H as [H|H]; auto.
Qed.

Lemma keys_set k v o :
  forall k', In k' (Obj.keys (Obj.set k v o)) <-> k' = k \/ In k' (Obj.keys o).
Proof.
  intros k'. induction o as [|[k1 v1] o IH]; simpl.
  - intuition.
  - destruct (String.eqb_spec k k1) as [->|]; simpl; intuition.
Qed.

Lemma keys_del k o :
  forall k', In k' (Obj.keys (Obj.del k o)) <-> k' <> k /\ In k' (Obj.keys o).
Proof.
  intros k'. induction o as [|[k1 v1] o IH]; simpl.
  - intuition.
  - destruct (String.eqb_spec k k1) as [->|]; simpl; rewrite IH; intuition congruence.
Qed.

(** The values of [set] are the old ones, minus the replaced one, plus
    the new one. *)
Lemma values_set k v o :
  forall x, In x (map snd (Obj.set k v o)) -> x = v \/ In x (map snd o).
Proof.
  intros x. induction o as [|[k1 v1] o IH]; simpl.
  - intuition.
  - destruct (String.eqb_spec k k1) as [->|]; simpl; intuition.
Qed.

Lemma values_del k o :
  forall x, In x (map snd (Obj.del k o)) -> In x (map snd o).
Proof.
  intros x. induction o as [|[k1 v1] o IH]; simpl; [done|].
  destruct (String.eqb_spec k k1) as [->|]; simpl; intuition.
Qed.

Lemma NoDup_values_del k o :
  List.NoDup (map snd o) -> List.NoDup (map snd (Obj.del k o)).
Proof.
  induction o as [|[k1 v1] o IH]; simpl; [done|].
  rewrite List.NoDup_cons_iff. intros [Hnin Hnd].
  destruct (String.eqb_spec k k1) as [->|]; simpl; [auto|].
  apply List.NoDup_cons_iff. split; [|auto].
  intros Hin. by apply values_del in Hin.
Qed.

Lemma NoDup_values_set k v o :
  ~ In v (map snd o) -> List.NoDup (map snd o) -> List.NoDup (map snd (Obj.set k v o)).
Proof.
  induction o as [|[k1 v1] o IH]; simpl; intros Hv Hnd.
  - apply List.NoDup_cons_iff. split; [tauto|constructor].
  - apply List.NoDup_cons_iff in Hnd as [Hnin Hnd'].
    destruct (String.eqb_spec k k1) as [->|]; simpl.
    + apply List.NoDup_cons_iff. tauto.
    + apply List.NoDup_cons_iff. split; [|apply IH; tauto].
      intros Hin. apply values_set in Hin. intuition congruence.
Qed.

Lemma In_set_same k v o : In (k, v) (Obj.set k v o).
Proof. apply get_In, get_set_eq. Qed.

Lemma In_set_other k v k' v' o :
  In (k', v') o -> k' <> k -> In (k', v') (Obj.set k v o).
Proof.
  intros H Hne. induction o as [|[k1 v1] o IH]; simpl in *; [done|].
  destruct (String.eqb_spec k k1) as [->|]; simpl.
  - destruct H as [[= -> ->]|H]; [done|by right].
  - destruct H as [H|H]; [by left|right; auto].
Qed.

Lemma NoDup_keys_del k o :
  List.NoDup (Obj.keys o) -> List.NoDup (Obj.keys (Obj.del k o)).
Proof.
  induction o as [|[k1 v1] o IH]; simpl; [done|].
  rewrite List.NoDup_cons_iff. intros [Hnin Hnd].
  destruct (String.eqb_spec k k1) as [->|]; simpl; [auto|].
  apply List.NoDup_cons_iff. split; [|auto].
  intros Hin. apply keys_del in Hin. tauto.
Qed.

Lemma NoDup_keys_set k v o :
  List.NoDup (Obj.keys o) -> List.NoDup (Obj.keys (Obj.set k v o)).
Proof.
  induction o as [|[k1 v1] o IH]; simpl; intros Hnd.
  - apply List.NoDup_cons_iff. split; [tauto|constructor].
  - apply List.NoDup_cons_iff in Hnd as [Hnin Hnd'].
    destruct (String.eqb_spec k k1) as [->|]; simpl.
    + apply List.NoDup_cons_iff. tauto.
    + apply List.NoDup_cons_iff. split; [|auto].
      intros Hin. apply keys_set in Hin. intuition congruence.
Qed.

Lemma NoDup_keys_inj k v v' o :
  List.NoDup (Obj.keys o) -> In (k, v) o -> In (k, v') o -> v = v'.
Proof.
  induction o as [|[k1 v1] o IH]; simpl; [done|].
  rewrite List.NoDup_cons_iff. intros [Hnin Hnd] H H'.
  destruct H as [E|H], H' as [E'|H'].
  - congruence.
  - injection E as -> ->. exfalso. apply Hnin.
    apply (in_map fst) in H'. exact H'.
  - injection E' as -> ->. exfalso. apply Hnin.
    apply (in_map fst) in H. exact H.
  - auto.
Qed.

Lemma present_true k o :
  Obj.present k o = true <-> In k (Obj.keys o) \/ Obj.inherited k = true.
Proof. unfold Obj.present. by rewrite orb_true_iff, has_true. Qed.

Lemma present_false k o :
  Obj.present k o = false <-> ~ In k (Obj.keys o) /\ Obj.inherited k = false.
Proof. unfold Obj.present. by rewrite orb_false_iff, has_false. Qed.

(** *** Assignment under a name that may be [__proto__] *)

Lemma get_assign_eq k v o :
  k <> "__proto__" -> Obj.get k (Obj.assign k v o) = Some v.
Proof.
  intros H. unfold Obj.assign. apply String.eqb_neq in H. rewrite H.
  apply get_set_eq.
Qed.

Lemma get_assign_ne k k' v o :
  k <> k' -> Obj.get k' (Obj.assign k v o) = Obj.get k' o.
Proof.
  intros H. unfold Obj.assign.
  destruct (String.eqb k "__proto__" && negb (Obj.has k o)); [done|].
  by apply get_set_ne.
Qed.

Lemma In_assign k v k0 v0 o :
  In (k, v) (Obj.assign k0 v0 o) -> (k = k0 /\ v = v0) \/ In (k, v) o.
Proof.
  unfold Obj.assign.
  destruct (String.eqb k0 "__proto__" && negb (Obj.has k0 o)); [by right|].
  apply In_set.
Qed.

Lemma NoDup_keys_assign k v o :
  List.NoDup (Obj.keys o) -> List.NoDup (Obj.keys (Obj.assign k v o)).
Proof.
  unfold Obj.assign.
  destruct (String.eqb k "__proto__" && negb (Obj.has k o)); [done|].
  apply NoDup_keys_set.
Qed.

(** An object without a property [__proto__] of its own gets none. *)
Lemma keys_assign k v o :
  ~ In "__proto__" (Obj.keys o) ->
  forall k', In k' (Obj.keys (Obj.assign k v o))
             <-> (k' = k /\ k <> "__proto__") \/ In k' (Obj.keys o).
Proof.
  intros Hplain k'. unfold Obj.assign.
  destruct (String.eqb_spec k "__proto__") as [->|Hne]; cbn [andb].
  - apply has_false in Hplain. rewrite Hplain. cbn [negb]. split.
    + by right.
    + by intros [[_ ?]|?].
  - rewrite keys_set. split.
    + intros [->|?]; [by left|by right].
    + intros [[-> _]|?]; [by left|by right].
Qed.

Lemma assign_plain k v o :
  ~ In "__proto__" (Obj.keys o) ->
  ~ In "__proto__" (Obj.keys (Obj.assign k v o)).
Proof.
  intros Hplain H.
  apply (keys_assign k v o Hplain) in H as [[E Hne]|?]; [congruence|done].
Qed.

(** *** The order of enumeration *)

Lemma insert_index_perm (n : N) (e : string * A) sorted :
  Permutation (Obj.insert_index n e sorted) ((n, e) :: sorted).
Proof.
  induction sorted as [|[m e'] sorted IH]; cbn [Obj.insert_index]; [done|].
  destruct (N.ltb n m); [done|].
  rewrite IH. apply perm_swap.
Qed.

Lemma enumerate_perm o : Permutation (Obj.enumerate o) o.
Proof.
  unfold Obj.enumerate.
  induction o as [|[k v] o IH]; [done|].
  cbn [Obj.indexed Obj.named List.filter fst].
  destruct (Obj.index_of k) as [n|].
  - rewrite (Permutation_map snd (insert_index_perm n (k, v) (Obj.indexed o))).
    cbn [map snd app]. by apply Permutation_cons.
  - symmetry. apply Permutation_cons_app. by symmetry.
Qed.

Lemma In_enumerate (e : string * A) o : In e (Obj.enumerate o) <-> In e o.
Proof.
  split; apply Permutation_in; [apply enumerate_perm|].
  symmetry. apply enumerate_perm.
Qed.

Lemma keys_enumerate k o :
  In k (Obj.keys (Obj.enumerate o)) <-> In k (Obj.keys o).
Proof.
  unfold Obj.keys.
  split; apply Permutation_in; apply Permutation_map;
    [apply enumerate_perm|]. symmetry. apply enumerate_perm.
Qed.

Lemma NoDup_keys_enumerate o :
  List.NoDup (Obj.keys o) -> List.NoDup (Obj.keys (Obj.enumerate o)).
Proof.
  unfold Obj.keys. apply Permutation_NoDup, Permutation_map.
  symmetry. apply enumerate_perm.
Qed.

Lemma get_enumerate k o :
  List.NoDup (Obj.keys o) -> Obj.get k (Obj.enumerate o) = Obj.get k o.
Proof.
  intros Hnd. destruct (Obj.get k o) as [v|] eqn:E.
  - apply get_In, In_enumerate in E.
    pose proof (NoDup_keys_enumerate o Hnd) as Hnd'.
    revert E Hnd'. generalize (Obj.enumerate o). intros o'.
    induction o' as [|[k0 v0] o' IH]; simpl; [done|].
    rewrite List.NoDup_cons_iff. intros [[= -> ->]|Hin] [Hnin Hnd'].
    + by rewrite String.eqb_refl.
    + destruct (String.eqb_spec k k0) as [->|]; [|auto].
      exfalso. apply Hnin. apply (in_map fst) in Hin. exact Hin.
  - apply get_None. rewrite keys_enumerate. by apply get_None.
Qed.

(** Without array indices among the names, the order of enumeration is
    the order in which the properties were added. *)
Lemma indexed_named o :
  (forall k, In k (Obj.keys o) -> Obj.index_of k = None) ->
  Obj.indexed o = [].
Proof.
  induction o as [|[k v] o IH]; intros H; [done|].
  cbn [Obj.indexed]. rewrite (H k) by (by left).
  apply IH. intros k' Hk'. apply H. by right.
Qed.

Lemma enumerate_named o :
  (forall k, In k (Obj.keys o) -> Obj.index_of k = None) ->
  Obj.enumerate o = o.
Proof.
  intros H. unfold Obj.enumerate. rewrite (indexed_named o H). cbn [map app].
  induction o as [|[k v] o IH]; [done|].
  cbn [Obj.named List.filter fst]. rewrite (H k) by (by left).
  f_equal. apply IH. intros k' Hk'. apply H. by right.
Qed.

End facts.
End ObjFacts.

Module LocFacts.
Section facts.
Context {A : Type}.
Implicit Types (k : string) (o : object A).

Lemma In_get k (v : A) o :
  List.NoDup (Obj.keys o) -> In (k, v) o -> Obj.get k o = Some v.
Proof.
  induction o as [|[k0 v0] o IH]; simpl; [done|].
  rewrite List.NoDup_cons_iff. intros [Hnin Hnd] [[= -> ->]|Hin].
  - by rewrite String.eqb_refl.
  - destruct (String.eqb_spec k k0) as [->|]; [|auto].
    exfalso. apply Hnin. apply (in_map fst) in Hin. exact Hin.
Qed.

Lemma locations_keys base o : Obj.keys (locations base o) = Obj.keys o.
Proof.
  revert base. induction o as [|[k0 v0] o IH]; intros base; simpl; [done|].
  by rewrite IH.
Qed.

Lemma locations_values base o :
  map snd (locations base o) = seq base (length o).
Proof.
  revert base. induction o as [|[k0 v0] o IH]; intros base; simpl; [done|].
  by rewrite IH.
Qed.

Lemma locations_bounds base o k (x : loc) :
  In (k, x) (locations base o) -> base <= x < base + length o.
Proof.
  intros H. apply (in_map snd) in H. rewrite locations_values in H.
  apply in_seq in H. simpl in H. lia.
Qed.

(** A location of [o] holds, in any store that has the values of [o] from
    [base] on, the value [o] has under that key. *)
Lemma locations_lookup {B} (f : A -> B) (pre post : list B) o k (x : loc) :
  In (k, x) (locations (length pre) o) ->
  exists v, In (k, v) o /\ (pre ++ map (fun e => f (snd e)) o ++ post)%list !! x = Some (f v).
Proof.
  revert pre. induction o as [|[k0 v0] o IH]; intros pre; simpl; [done|].
  intros [[= -> <-]|H].
  - exists v0. split; [by left|].
    rewrite lookup_app_r by lia. by rewrite Nat.sub_diag.
  - specialize (IH (pre ++ [f v0])%list). rewrite length_app in IH. simpl in IH.
    rewrite Nat.add_1_r in IH. destruct (IH H) as (v & Hin & Hl).
    exists v. split; [by right|]. rewrite <- Hl.
    by rewrite <- app_assoc.
Qed.

End facts.
End LocFacts.

(** ** The store under marking *)

Section store_facts.
Context {Value : Type}.
Implicit Types (h : list (@ColumnObject Value)) (x y : loc).

Lemma next_alter_ne h m x y :
  x <> y ->
  nextColumnName_at (alter (set_nextColumnName m) x h) y
  = nextColumnName_at h y.
Proof.
  intros Hne. unfold nextColumnName_at.
  by rewrite list_lookup_alter_ne.
Qed.

Lemma next_alter_eq h m x :
  is_Some (h !! x) ->
  nextColumnName_at (alter (set_nextColumnName m) x h) x = m.
Proof.
  intros [o Ho]. unfold nextColumnName_at.
  by rewrite list_lookup_alter_eq, Ho.
Qed.

Lemma next_alter_cases h m x y :
  nextColumnName_at (alter (set_nextColumnName m) x h) y
  = nextColumnName_at h y
  \/ (x = y /\ nextColumnName_at (alter (set_nextColumnName m) x h) y = m).
Proof.
  destruct (Nat.eq_dec x y) as [->|Hne].
  - destruct (h !! y) as [o|] eqn:E.
    + right. split; [done|]. apply next_alter_eq. by exists o.
    + left. unfold nextColumnName_at. by rewrite list_lookup_alter_eq, E.
  - left. by apply next_alter_ne.
Qed.

Lemma options_alter h m x y :
  option_map options (alter (set_nextColumnName m) x h !! y)
  = option_map options (h !! y).
Proof.
  destruct (Nat.eq_dec x y) as [->|Hne].
  - rewrite list_lookup_alter_eq. by destruct (h !! y).
  - by rewrite list_lookup_alter_ne.
Qed.

Lemma same_options_refl h : same_options h h.
Proof. by intros x. Qed.

Lemma same_options_alter h h' m x :
  same_options h h' -> same_options (alter (set_nextColumnName m) x h) h'.
Proof. intros H y. by rewrite options_alter. Qed.

Lemma same_options_prev h h' x :
  same_options h h' -> prevColumnName_at h x = prevColumnName_at h' x.
Proof.
  intros H. specialize (H x). unfold prevColumnName_at.
  destruct (h !! x), (h' !! x); simpl in H; congruence.
Qed.


(** Objects without a mark are determined by their definitions. *)
Lemma same_options_unmarked h h' x :
  same_options h h' ->
  nextColumnName_at h x = None -> nextColumnName_at h' x = None ->
  h !! x = h' !! x.
Proof.
  intros H. specialize (H x). unfold nextColumnName_at.
  destruct (h !! x) as [[d m]|], (h' !! x) as [[d' m']|];
    simpl in *; congruence.
Qed.
End store_facts.

(** ** The first loop keeps its invariant *)

Section forward_facts.
Context {Value : Type}.
Variable value_equal : Value -> Value -> bool.
Variables metaColumns modelColumns : object (@ColumnDefinition Value).
Hypothesis model_keys : List.NoDup (Obj.keys modelColumns).

Local Abbreviation store0 := (heap (initial_state metaColumns modelColumns)).
Local Abbreviation meta0 := (locations 0 metaColumns).
Local Abbreviation mc := (model_locations metaColumns modelColumns).
Local Abbreviation inv := (forward_inv value_equal metaColumns modelColumns).

Lemma NoDup_values_inj {A} (o : object A) k k' (x : A) :
  List.NoDup (map snd o) -> In (k, x) o -> In (k', x) o -> k = k'.
Proof.
  induction o as [|[k0 x0] o IH]; simpl; [done|].
  rewrite List.NoDup_cons_iff. intros [Hnin Hnd] H H'.
  destruct H as [E|H], H' as [E'|H'].
  - congruence.
  - injection E as -> ->. exfalso. apply Hnin.
    apply (in_map snd) in H'. exact H'.
  - injection E' as -> ->. exfalso. apply Hnin.
    apply (in_map snd) in H. exact H.
  - auto.
Qed.

Lemma store0_unmarked x : nextColumnName_at store0 x = None.
Proof.
  unfold nextColumnName_at. destruct (store0 !! x) as [o|] eqn:E; [|done].
  assert (Forall (fun o : @ColumnObject Value => nextColumnName o = None) store0) as HF.
  { simpl. apply Forall_app. split; apply List.Forall_map, Forall_forall; done. }
  rewrite Forall_lookup in HF. eauto.
Qed.

Lemma meta0_stored k x :
  In (k, x) meta0 ->
  exists d, In (k, d) metaColumns /\ store0 !! x = Some (parsed d).
Proof.
  intros H.
  destruct (LocFacts.locations_lookup parsed [] (map (fun e => parsed (snd e)) modelColumns)
              metaColumns k x H) as (d & Hin & Hl).
  exists d. split; [done|]. exact Hl.
Qed.

Lemma mc_stored k x :
  In (k, x) mc ->
  exists d, In (k, d) modelColumns /\ store0 !! x = Some (parsed d).
Proof.
  intros H. unfold model_locations in H.
  assert (length metaColumns
          = length (map (fun e : string * ColumnDefinition => parsed (snd e)) metaColumns)) as E
    by (by rewrite length_map).
  rewrite E in H.
  destruct (LocFacts.locations_lookup parsed _ [] modelColumns k x H)
    as (d & Hin & Hl).
  exists d. split; [done|]. simpl. rewrite app_nil_r in Hl. exact Hl.
Qed.

(** What the position of an entry of [modelColumns] says. *)
Lemma split_facts done name (x : loc) todo :
  (done ++ (name, x) :: todo)%list = mc ->
  In (name, x) mc
  /\ In name (Obj.keys modelColumns)
  /\ ~ In name (Obj.keys done)
  /\ ~ In x (map snd todo)
  /\ length metaColumns <= x.
Proof.
  intros Hs.
  assert (In (name, x) mc) as Hin by (rewrite <- Hs; apply in_elt).
  split; [done|]. split.
  { apply (in_map fst) in Hin. unfold model_locations in Hin.
    by rewrite <- (LocFacts.locations_keys (length metaColumns)). }
  pose proof (LocFacts.locations_keys (length metaColumns) modelColumns) as Hk.
  pose proof (LocFacts.locations_values (length metaColumns) modelColumns) as Hv.
  fold mc in Hk, Hv. rewrite <- Hs in Hk, Hv.
  unfold Obj.keys in Hk. rewrite map_app in Hk, Hv. simpl in Hk, Hv.
  split; [|split].
  - assert (List.NoDup (map fst done ++ name :: map fst todo)) as Hnd
      by (rewrite Hk; exact model_keys).
    apply NoDup_remove_2 in Hnd. intros H. apply Hnd. apply in_or_app. by left.
  - assert (List.NoDup (map snd done ++ x :: map snd todo)) as Hnd
      by (rewrite Hv; apply seq_NoDup).
    apply NoDup_remove_2 in Hnd. intros H. apply Hnd. apply in_or_app. by right.
  - apply LocFacts.locations_bounds in Hin. lia.
Qed.

Lemma forward_inv_init : inv [] mc (initial_state metaColumns modelColumns).
Proof.
  constructor.
  - done.
  - apply same_options_refl.
  - simpl. rewrite LocFacts.locations_values. apply seq_NoDup.
  - intros k x H. split; [|apply store0_unmarked].
    apply LocFacts.locations_bounds in H. simpl.
    rewrite LocFacts.locations_values. rewrite in_seq. lia.
  - intros k x _. left. apply store0_unmarked.
  - intros k x H. by left.
  - intros k x [].
  - intros k x [].
  - intros k x [].
  - done.
Qed.

Lemma in_keys {A} (o : object A) k :
  In k (Obj.keys o) <-> exists x, In (k, x) o.
Proof.
  unfold Obj.keys. rewrite in_map_iff. split.
  - intros ([k' x] & E & H). simpl in E. subst. by exists x.
  - intros (x & H). by exists (k, x).
Qed.

Lemma keys_app {A} (o o' : object A) k :
  In k (Obj.keys (o ++ o')) <-> In k (Obj.keys o) \/ In k (Obj.keys o').
Proof. unfold Obj.keys. rewrite map_app. apply in_app_iff. Qed.

(** A turn that changes nothing. *)
Lemma forward_inv_skip done name x todo st :
  inv done ((name, x) :: todo) st -> inv (done ++ [(name, x)]) todo st.
Proof.
  intros [Hs Ho Hl Ht Hm Hor Hn Hc Hr Hrm]. constructor.
  - by rewrite <- app_assoc.
  - done.
  - done.
  - intros k y H. apply (Ht k y). by right.
  - intros k y H. destruct (Hm k y H) as [|[E Hin]]; [by left|right].
    split; [done|]. apply keys_app. by left.
  - intros k y H. destruct (Hor k y H); [by left|].
    right. apply in_or_app. by left.
  - intros k y H. apply in_or_app. left. by apply Hn.
  - intros k y H. destruct (Hc k y H) as [H1 H2].
    split; [apply in_or_app; by left|done].
  - intros k y H. destruct (Hr k y H) as [H1 H2].
    split; [apply in_or_app; by left|done].
  - done.
Qed.

(** A turn that stores the model column and files it in a bucket. *)
Lemma forward_inv_update done name x todo st meta' cols' :
  inv done ((name, x) :: todo) st ->
  (forall k y, In (k, y) meta' ->
     (k = name /\ y = x) \/ In (k, y) (metaDataByTableName st)) ->
  List.NoDup (map snd meta') ->
  (forall k y, In (k, y) (col_new cols') ->
     (k = name /\ y = x) \/ In (k, y) (col_new (columns st))) ->
  (forall k y, In (k, y) (col_change cols') ->
     (k = name /\ y = x
      /\ ((exists z, In (name, z) meta0
                     /\ equal_at value_equal store0 z x = false)
          \/ Obj.inherited name = true))
     \/ In (k, y) (col_change (columns st))) ->
  (forall k y, In (k, y) (col_rename cols') ->
     (k = name /\ y = x
      /\ exists prev, truthy (prevColumnName_at store0 x) = Some prev
                      /\ ~ In prev (Obj.keys meta'))
     \/ In (k, y) (col_rename (columns st))) ->
  col_remove cols' = [] ->
  inv (done ++ [(name, x)]) todo
      {| heap := heap st; metaDataByTableName := meta'; columns := cols' |}.
Proof.
  intros Hinv Hmeta Hnd Hnew Hchg Hren Hrem.
  destruct (split_facts _ _ _ _ (fwd_split _ _ _ _ _ _ Hinv))
    as (Hmc & Hname & Hfresh & Hxtodo & Hxge).
  destruct (fwd_todo _ _ _ _ _ _ Hinv name x (or_introl eq_refl))
    as [Hxmeta Hxmark].
  destruct (forward_inv_skip _ _ _ _ _ Hinv)
    as [Hs Ho Hl Ht Hm Hor Hn Hc Hr Hrm].
  assert (In (name, x) (done ++ [(name, x)])) as Hlast
    by (apply in_or_app; right; by left).
  constructor; simpl.
  - done.
  - done.
  - done.
  - intros k y H. destruct (Ht k y H) as [H1 H2]. split; [|done].
    intros Hin. apply in_map_iff in Hin as ([k' y'] & E & Hin).
    simpl in E. subst y'. destruct (Hmeta k' y Hin) as [[-> ->]|Hin'].
    + apply Hxtodo. apply (in_map snd) in H. exact H.
    + apply H1. apply (in_map snd) in Hin'. exact Hin'.
  - intros k y H. destruct (Hmeta k y H) as [[-> ->]|Hin'].
    + by left.
    + by apply Hm.
  - intros k y H. destruct (Hmeta k y H) as [[-> ->]|Hin'].
    + by right.
    + by apply Hor.
  - intros k y H. destruct (Hnew k y H) as [[-> ->]|Hin']; [done|by apply Hn].
  - intros k y H. destruct (Hchg k y H) as [(-> & -> & Hz)|Hin'].
    + split; [done|exact Hz].
    + by apply Hc.
  - intros k y H. destruct (Hren k y H) as [(-> & -> & prev & Hp & Hnin)|Hin'].
    + split; [done|]. exists prev. split; [done|]. intros Hin. by destruct Hnin.
    + destruct (Hr k y Hin') as [H1 (prev & Hp & Himp)].
      split; [done|]. exists prev. split; [done|]. intros Hin.
      apply in_keys in Hin as [z Hz].
      destruct (Hmeta prev z Hz) as [[-> ->]|Hz']; [done|].
      apply Himp. apply in_keys. by exists z.
  - done.
Qed.

(** Writing the mark on the object found under the column's own name. *)
Lemma forward_inv_mark done todo st name x :
  inv done todo st ->
  In name (Obj.keys done) ->
  (forall k, In (k, x) (metaDataByTableName st) -> k = name) ->
  (forall k, ~ In (k, x) todo) ->
  inv done todo
      (with_heap (alter (set_nextColumnName (Some name)) x (heap st)) st).
Proof.
  intros [Hs Ho Hl Ht Hm Hor Hn Hc Hr Hrm] Hname Hown Hntodo.
  constructor; simpl; try done.
  - by apply same_options_alter.
  - intros k y H. destruct (Ht k y H) as [H1 H2]. split; [done|].
    rewrite next_alter_ne; [done|]. intros ->. by apply (Hntodo k).
  - intros k y H.
    destruct (next_alter_cases (heap st) (Some name) x y) as [E|[-> E]].
    + rewrite E. by apply Hm.
    + right. rewrite E. rewrite (Hown k H). done.
Qed.

Local Ltac fields :=
  cbn [heap metaDataByTableName columns col_new col_change col_rename
       col_remove with_heap].

Lemma forward_inv_step done name x todo st :
  inv done ((name, x) :: todo) st ->
  inv (done ++ [(name, x)]) todo (forward_step value_equal st (name, x)).
Proof.
  intros Hinv.
  destruct (split_facts _ _ _ _ (fwd_split _ _ _ _ _ _ Hinv))
    as (Hmc & Hname & Hfresh & Hxtodo & Hxge).
  destruct (fwd_todo _ _ _ _ _ _ Hinv name x (or_introl eq_refl))
    as [Hxmeta Hxmark].
  assert (In name (Obj.keys (done ++ [(name, x)]))) as Hdone'
    by (apply keys_app; right; by left).
  pose proof (fwd_locs _ _ _ _ _ _ Hinv) as Hlocs.
  pose proof (fwd_options _ _ _ _ _ _ Hinv) as Hopts.
  unfold forward_step.
  destruct (Obj.get name (metaDataByTableName st)) as [z|] eqn:Hcur.
  - (* an entry under the column's own name *)
    pose proof (ObjFacts.get_In _ _ _ Hcur) as Hz.
    assert (z <> x) as Hzx.
    { intros ->. apply Hxmeta. apply (in_map snd) in Hz. exact Hz. }
    assert (In (name, z) meta0) as Hz0.
    { destruct (fwd_origin _ _ _ _ _ _ Hinv name z Hz) as [|Hd]; [done|].
      exfalso. apply Hfresh. apply in_keys. eauto. }
    assert (nextColumnName_at (heap st) z = None) as Hzmark.
    { destruct (fwd_marks _ _ _ _ _ _ Hinv name z Hz) as [|[_ Hd]]; [done|].
      by destruct Hfresh. }
    assert (forall k, ~ In (k, z) todo) as Hztodo.
    { intros k H.
      destruct (fwd_todo _ _ _ _ _ _ Hinv k z (or_intror H)) as [H1 _].
      apply H1. apply (in_map snd) in Hz. exact Hz. }
    destruct (equal_at value_equal (heap st) z x) eqn:Heq; cbn [negb].
    + apply forward_inv_mark; [by apply forward_inv_skip|done| |done].
      intros k H. by apply (NoDup_values_inj _ _ _ _ Hlocs H Hz).
    + apply forward_inv_mark; [|done| |done].
      * apply forward_inv_update; try done; fields.
        -- intros k y H. apply ObjFacts.In_set in H. tauto.
        -- by apply ObjFacts.NoDup_values_set.
        -- auto.
        -- intros k y H. apply ObjFacts.In_set in H as [[-> ->]|H]; [|by right].
           left. split; [done|]. split; [done|]. left. exists z. split; [done|].
           rewrite <- Heq. unfold equal_at.
           rewrite <- (same_options_unmarked _ _ z Hopts Hzmark (store0_unmarked z)).
           by rewrite <- (same_options_unmarked _ _ x Hopts Hxmark (store0_unmarked x)).
        -- auto.
        -- apply (fwd_remove _ _ _ _ _ _ Hinv).
      * fields. intros k H. apply ObjFacts.In_set in H as [[_ E]|H]; [done|].
        by apply (NoDup_values_inj _ _ _ _ Hlocs H Hz).
  - (* no entry under the column's own name *)
    destruct (Obj.inherited name) eqn:Hinh.
    { apply forward_inv_update; try done; fields.
      - intros k y H. apply ObjFacts.In_set in H. tauto.
      - by apply ObjFacts.NoDup_values_set.
      - auto.
      - intros k y H. apply ObjFacts.In_set in H as [[-> ->]|H]; [|by right].
        left. split; [done|]. split; [done|]. by right.
      - auto.
      - apply (fwd_remove _ _ _ _ _ _ Hinv). }
    destruct (truthy (prevColumnName_at (heap st) x)) as [prev|] eqn:Hprev.
    + destruct (Obj.present prev (metaDataByTableName st)
                && negb (String.eqb name prev)) eqn:Hcond.
      * apply andb_true_iff in Hcond as [Hhas Hne].
        apply negb_true_iff, String.eqb_neq in Hne.
        apply forward_inv_update; try done; fields.
        -- intros k y H. apply ObjFacts.In_set in H as [|H]; [by left|].
           apply ObjFacts.In_del in H. tauto.
        -- apply ObjFacts.NoDup_values_set.
           ++ intros H. by apply ObjFacts.values_del in H.
           ++ by apply ObjFacts.NoDup_values_del.
        -- auto.
        -- auto.
        -- intros k y H. apply ObjFacts.In_set in H as [[-> ->]|H]; [|by right].
           left. split; [done|]. split; [done|]. exists prev. split.
           ++ by rewrite <- (same_options_prev _ _ x Hopts).
           ++ rewrite ObjFacts.keys_set, ObjFacts.keys_del. intuition congruence.
        -- apply (fwd_remove _ _ _ _ _ _ Hinv).
      * by apply forward_inv_skip.
    + apply forward_inv_update; try done; fields.
      * intros k y H. apply ObjFacts.In_set in H. tauto.
      * by apply ObjFacts.NoDup_values_set.
      * intros k y H. apply ObjFacts.In_set in H. tauto.
      * auto.
      * auto.
      * apply (fwd_remove _ _ _ _ _ _ Hinv).
Qed.

Lemma forward_inv_fold todo : forall done st,
  inv done todo st ->
  inv (done ++ todo) [] (fold_left (forward_step value_equal) todo st).
Proof.
  induction todo as [|[name x] todo IH]; intros done st Hinv; simpl.
  - by rewrite app_nil_r.
  - replace (done ++ (name, x) :: todo)%list
      with ((done ++ [(name, x)]) ++ todo)%list by (by rewrite <- app_assoc).
    apply IH. by apply forward_inv_step.
Qed.

(** The state the first loop ends in. *)
Lemma forward_pass_inv :
  inv mc [] (forward_pass value_equal metaColumns modelColumns).
Proof. apply (forward_inv_fold mc [] _ forward_inv_init). Qed.

(** ** The second loop *)

Local Abbreviation rinv := (removal_inv metaColumns modelColumns).

Lemma next_alter_clear (h : list (@ColumnObject Value)) x y :
  nextColumnName_at (alter (set_nextColumnName None) x h) y = None
  \/ (x <> y
      /\ nextColumnName_at (alter (set_nextColumnName None) x h) y
         = nextColumnName_at h y).
Proof.
  destruct (Nat.eq_dec x y) as [->|Hne].
  - left. unfold nextColumnName_at. rewrite list_lookup_alter_eq.
    by destruct (h !! y).
  - right. split; [done|]. by apply next_alter_ne.
Qed.

Lemma mc_keys : Obj.keys mc = Obj.keys modelColumns.
Proof. apply LocFacts.locations_keys. Qed.

Lemma removal_inv_init :
  let fwd := forward_pass value_equal metaColumns modelColumns in
  rinv fwd (metaDataByTableName fwd) fwd.
Proof.
  intros fwd. destruct forward_pass_inv as [Hs Ho Hl Ht Hm Hor Hn Hc Hr Hrm].
  fold fwd in Ho, Hl, Ht, Hm, Hor, Hn, Hc, Hr, Hrm.
  constructor; try done.
  - intros k x H. destruct (Hm k x H) as [|[E Hin]]; [by left|right].
    split; [done|]. by rewrite <- mc_keys.
  - intros k x H. by left.
  - rewrite Hrm. intros k [].
Qed.

Lemma removal_inv_step test fwd k x todo st :
  (forall h k x, test h k x = true ->
     ~ In k (Obj.keys modelColumns) /\ Obj.inherited k = false) ->
  rinv fwd ((k, x) :: todo) st ->
  rinv fwd todo (removal_step_with test st (k, x)).
Proof.
  intros Htest [Ho Hm Ht Hmeta Hcl Hn Hc Hr Hrm].
  assert (forall k' y,
    In (k', y)
       (metaDataByTableName
          (if test (heap st) k x
           then {| heap := heap st;
                   metaDataByTableName := Obj.del k (metaDataByTableName st);
                   columns :=
                     {| col_new := col_new (columns st);
                        col_change := col_change (columns st);
                        col_rename := col_rename (columns st);
                        col_remove := (col_remove (columns st) ++ [k])%list |} |}
           else st)) ->
    In (k', y) (metaDataByTableName st)) as Hsub.
  { intros k' y. destruct (test (heap st) k x); [|done].
    fields. intros H. by apply ObjFacts.In_del in H as [H _]. }
  unfold removal_step_with. constructor; fields.
  - apply same_options_alter. by destruct (test (heap st) k x).
  - intros k' y H.
    replace (heap (if test (heap st) k x then _ else st)) with (heap st)
      by (by destruct (test (heap st) k x)).
    destruct (next_alter_clear (heap st) x y) as [E|[_ E]]; [by left|].
    rewrite E. apply Hm. by right.
  - intros k' y H. apply Ht. by right.
  - intros k' y H. apply Hmeta. by apply Hsub.
  - intros k' y H.
    replace (heap (if test (heap st) k x then _ else st)) with (heap st)
      by (by destruct (test (heap st) k x)).
    destruct (next_alter_clear (heap st) x y) as [E|[Hne E]]; [by right|].
    rewrite E. destruct (Hcl k' y (Hsub _ _ H)) as [[[= -> ->]|Hin]|Hnone].
    + done.
    + by left.
    + by right.
  - by destruct (test (heap st) k x).
  - by destruct (test (heap st) k x).
  - by destruct (test (heap st) k x).
  - intros k'. destruct (test (heap st) k x) eqn:E; [|by apply Hrm].
    fields. intros H. apply in_app_or in H as [H|[<-|[]]]; [by apply Hrm|].
    split; [|by apply (Htest _ _ _ E)].
    apply in_keys. exists x. apply Ht. by left.
Qed.

Lemma removal_inv_fold test fwd todo : forall st,
  (forall h k x, test h k x = true ->
     ~ In k (Obj.keys modelColumns) /\ Obj.inherited k = false) ->
  rinv fwd todo st ->
  rinv fwd [] (fold_left (removal_step_with test) todo st).
Proof.
  induction todo as [|[k x] todo IH]; intros st Htest Hinv; simpl; [done|].
  apply IH; [done|]. by apply removal_inv_step.
Qed.

Lemma is_removed_absent (h : list (@ColumnObject Value)) k x :
  is_removed mc h k x = true ->
  ~ In k (Obj.keys modelColumns) /\ Obj.inherited k = false.
Proof.
  unfold is_removed. intros H. apply andb_true_iff in H as [H _].
  apply negb_true_iff, ObjFacts.present_false in H. by rewrite <- mc_keys.
Qed.


(** The state both loops end in. *)
Lemma classify_inv :
  rinv (forward_pass value_equal metaColumns modelColumns) []
       (classify value_equal metaColumns modelColumns).
Proof.
  unfold classify, classify_with, removal_pass_with.
  apply removal_inv_fold; [apply is_removed_absent|apply removal_inv_init].
Qed.

(** ** The two removal tests side by side *)

(** Where every entry still to visit carries no mark or its own name as a
    mark, the mark adds nothing to the test on the name. *)
Lemma removal_tests_agree todo : forall st : @State Value,
  ~ In "undefined" (Obj.keys modelColumns) ->
  (forall k x, In (k, x) todo ->
     nextColumnName_at (heap st) x = None
     \/ (nextColumnName_at (heap st) x = Some k
         /\ In k (Obj.keys modelColumns))) ->
  fold_left (removal_step_with (is_removed mc)) todo st
  = fold_left (removal_step_with (name_is_absent mc)) todo st.
Proof.
  induction todo as [|[k x] todo IH]; intros st Hundef Hmarks;
    cbn [fold_left]; [done|].
  assert (is_removed mc (heap st) k x = name_is_absent mc (heap st) k x) as E.
  { unfold is_removed, name_is_absent.
    destruct (Obj.present k mc) eqn:Hk; [done|]. cbn [negb andb].
    apply negb_true_iff, ObjFacts.present_false. rewrite mc_keys.
    apply ObjFacts.present_false in Hk as [Hk _]. rewrite mc_keys in Hk.
    destruct (Hmarks k x (or_introl eq_refl)) as [->|[_ Hin]]; done. }
  assert (removal_step_with (is_removed mc) st (k, x)
          = removal_step_with (name_is_absent mc) st (k, x)) as Es
    by (unfold removal_step_with; by rewrite E).
  rewrite Es. apply IH; [done|]. intros k' y H.
  unfold removal_step_with. fields.
  replace (heap (if name_is_absent mc (heap st) k x then _ else st))
    with (heap st) by (by destruct (name_is_absent mc (heap st) k x)).
  destruct (next_alter_clear (heap st) x y) as [E'|[_ E']]; [by left|].
  rewrite E'. apply Hmarks. by right.
Qed.

Lemma classify_by_name_agrees :
  ~ In "undefined" (Obj.keys modelColumns) ->
  classify_with value_equal name_is_absent metaColumns modelColumns
  = classify value_equal metaColumns modelColumns.
Proof.
  intros Hundef. unfold classify, classify_with, removal_pass_with.
  symmetry. apply removal_tests_agree; [done|].
  apply (rem_marks _ _ _ _ _ removal_inv_init).
Qed.

(** What the test on the name removes: the names it does not find. *)
Lemma removal_by_name_removed todo : forall st : @State Value,
  col_remove (columns (fold_left (removal_step_with (name_is_absent mc)) todo st))
  = (col_remove (columns st)
     ++ List.filter (fun k => negb (Obj.present k mc)) (Obj.keys todo))%list.
Proof.
  induction todo as [|[k x] todo IH]; intros st; simpl.
  - by rewrite app_nil_r.
  - rewrite IH. unfold removal_step_with, name_is_absent. fields.
    destruct (negb (Obj.present k mc)); fields; [|done].
    by rewrite <- app_assoc.
Qed.

Lemma removed_iff_absent k :
  ~ In "undefined" (Obj.keys modelColumns) ->
  In k (col_remove (columns (classify value_equal metaColumns modelColumns)))
  <-> In k (Obj.keys (metaDataByTableName
                        (forward_pass value_equal metaColumns modelColumns)))
      /\ ~ In k (Obj.keys modelColumns)
      /\ Obj.inherited k = false.
Proof.
  intros Hundef. rewrite <- (classify_by_name_agrees Hundef).
  unfold classify_with, removal_pass_with.
  rewrite removal_by_name_removed.
  rewrite (fwd_remove _ _ _ _ _ _ forward_pass_inv). cbn [app].
  rewrite filter_In, negb_true_iff, ObjFacts.present_false, mc_keys. done.
Qed.

(** ** What the buckets and the stored table hold in the end *)

Hypothesis meta_keys : List.NoDup (Obj.keys metaColumns).

Local Abbreviation final := (classify value_equal metaColumns modelColumns).

Lemma frozen_get (o : object (@ColumnDefinition Value)) k :
  Obj.get k (map (fun e => (fst e, parsed (snd e))) o)
  = option_map parsed (Obj.get k o).
Proof.
  induction o as [|[k0 d0] o IH]; simpl; [done|].
  by destruct (String.eqb k k0).
Qed.

Lemma In_read (h : list (@ColumnObject Value)) (o : object loc) k v :
  In (k, v) (read h o) <-> exists x, In (k, x) o /\ h !! x = Some v.
Proof.
  unfold read. rewrite <- list_elem_of_In, list_elem_of_omap. split.
  - intros ([k' x] & Hin & E). apply list_elem_of_In in Hin.
    destruct (h !! x) as [v'|] eqn:Hx; [|done].
    injection E as -> ->. by exists x.
  - intros (x & Hin & Hx). exists (k, x). rewrite list_elem_of_In.
    split; [done|]. by rewrite Hx.
Qed.

Lemma changed_columns k :
  In k (Obj.keys (col_change (columns final))) ->
  exists d',
    Obj.get k modelColumns = Some d'
    /\ ((exists d, Obj.get k metaColumns = Some d
                   /\ equal_definition value_equal d d' = false)
        \/ Obj.inherited k = true).
Proof.
  rewrite (rem_change _ _ _ _ _ classify_inv).
  intros H. apply in_keys in H as [x H].
  destruct (fwd_change _ _ _ _ _ _ forward_pass_inv k x H) as (Hx & Hwhy).
  apply mc_stored in Hx as (d' & Hd' & Hsx).
  exists d'. split; [by apply LocFacts.In_get|].
  destruct Hwhy as [(y & Hy & He)|Hinh]; [left|by right].
  apply meta0_stored in Hy as (d & Hd & Hsy).
  exists d. split; [by apply LocFacts.In_get|].
  unfold equal_at in He. rewrite Hsx, Hsy in He.
  unfold equal_object in He. simpl in He. by rewrite andb_true_r in He.
Qed.

Lemma removed_columns k :
  In k (col_remove (columns final)) ->
  exists d, Obj.get k metaColumns = Some d.
Proof.
  intros H.
  destruct (rem_removed _ _ _ _ _ classify_inv k H) as (Hin & Hnot & _).
  apply in_keys in Hin as [x Hx].
  destruct (fwd_origin _ _ _ _ _ _ forward_pass_inv k x Hx) as [H0|Hmc].
  - apply meta0_stored in H0 as (d & Hd & _). exists d.
    by apply LocFacts.In_get.
  - exfalso. apply Hnot. rewrite <- mc_keys. apply in_keys. by exists x.
Qed.

Lemma renamed_not_removed b x prev :
  In (b, x) (col_rename (columns final)) ->
  truthy (prevColumnName_at (heap final) x) = Some prev ->
  ~ In prev (col_remove (columns final)).
Proof.
  rewrite (rem_rename _ _ _ _ _ classify_inv). intros H Hp Hrm.
  destruct (fwd_rename _ _ _ _ _ _ forward_pass_inv b x H)
    as (_ & prev0 & Hp0 & Himp).
  rewrite (same_options_prev _ _ x (rem_options _ _ _ _ _ classify_inv)) in Hp.
  assert (prev0 = prev) as -> by congruence.
  destruct (rem_removed _ _ _ _ _ classify_inv prev Hrm) as (Hin & Hnot & _).
  auto.
Qed.

Lemma stored_origin k d :
  In (k, d) (stored_definitions final) ->
  In (k, d) metaColumns \/ In (k, d) modelColumns.
Proof.
  unfold stored_definitions. rewrite in_map_iff.
  intros ([k' o] & [= -> <-] & H). apply In_read in H as (x & Hx & Ho).
  pose proof (rem_options _ _ _ _ _ classify_inv x) as Hopt.
  rewrite Ho in Hopt.
  apply (rem_meta _ _ _ _ _ classify_inv) in Hx.
  destruct (fwd_origin _ _ _ _ _ _ forward_pass_inv k x Hx) as [H0|Hmc].
  - apply meta0_stored in H0 as (d0 & Hd0 & Hs). left.
    rewrite Hs in Hopt. simpl in Hopt. congruence.
  - apply mc_stored in Hmc as (d0 & Hd0 & Hs). right.
    rewrite Hs in Hopt. simpl in Hopt. congruence.
Qed.

(** No mark is left on an object the snapshot refers to, so the definitions
    are all that is written back. *)
Lemma classify_marks_cleared k x :
  In (k, x) (metaDataByTableName final) ->
  nextColumnName_at (heap final) x = None.
Proof.
  intros H. by destruct (rem_cleared _ _ _ _ _ classify_inv k x H) as [[]|].
Qed.

(** ** Runs in which every model column is settled *)

Hypothesis value_equal_refl : forall v, value_equal v v = true.
Hypothesis all_settled :
  forall k d, In (k, d) modelColumns -> settled metaColumns modelColumns k d.
Hypothesis leftovers_plain :
  forall k, In k (Obj.keys metaColumns) -> ~ In k (Obj.keys modelColumns) ->
            Obj.inherited k = false.

Local Abbreviation sinv := (settled_inv value_equal metaColumns modelColumns).

Lemma option_equal_refl {A} (eqb : A -> A -> bool) (x : option A) :
  (forall a, eqb a a = true) -> option_equal eqb x x = true.
Proof. intros H. destruct x; simpl; auto. Qed.

Lemma equal_definition_refl (d : @ColumnDefinition Value) :
  equal_definition value_equal d d = true.
Proof.
  unfold equal_definition.
  rewrite String.eqb_refl, !(option_equal_refl Bool.eqb),
    (option_equal_refl String.eqb), (option_equal_refl value_equal);
    auto using Bool.eqb_reflx, String.eqb_refl.
Qed.

Lemma settled_inv_init : sinv [] (initial_state metaColumns modelColumns).
Proof.
  constructor; simpl.
  - by rewrite LocFacts.locations_keys.
  - intros k x [].
  - intros k H _. by rewrite LocFacts.locations_keys.
  - intros prev H _ _. by rewrite LocFacts.locations_keys.
Qed.

(** A turn that leaves the table as it is, the column being stored. *)
Lemma settled_inv_stay done name x st st' z dz dx :
  sinv done st ->
  metaDataByTableName st' = metaDataByTableName st ->
  In (name, z) (metaDataByTableName st) ->
  store0 !! z = Some (parsed dz) ->
  store0 !! x = Some (parsed dx) ->
  equal_definition value_equal dz dx = true ->
  sinv (done ++ [(name, x)]) st'.
Proof.
  intros [Hk Hd Hkept Hfree] Hmeta Hz Hsz Hsx He.
  constructor; rewrite ?Hmeta.
  - done.
  - intros k y H. apply in_app_or in H as [H|[[= <- <-]|[]]]; [by apply Hd|].
    by exists z, dz, dx.
  - done.
  - intros prev H1 H2 H3. apply Hfree; [done|done|].
    intros k y H. apply H3. apply in_or_app. by left.
Qed.

(** A turn that stores the model column under its name, after deleting at
    most a stored column that no model column has. *)
Lemma settled_inv_store done name x st st' meta' dx :
  sinv done st ->
  metaDataByTableName st' = meta' ->
  ~ In name (Obj.keys done) ->
  (forall k y, In (k, y) done -> In k (Obj.keys modelColumns)) ->
  store0 !! x = Some (parsed dx) ->
  List.NoDup (Obj.keys meta') ->
  In (name, x) meta' ->
  (forall k z, In (k, z) (metaDataByTableName st) -> k <> name ->
               In k (Obj.keys modelColumns) -> In (k, z) meta') ->
  (forall prev, In prev (Obj.keys (metaDataByTableName st)) ->
                ~ In prev (Obj.keys modelColumns) ->
                truthy (prevColumnName_at store0 x) <> Some prev
                \/ In name (Obj.keys metaColumns) ->
                In prev (Obj.keys meta')) ->
  sinv (done ++ [(name, x)]) st'.
Proof.
  intros [Hk Hd Hkept Hfree] Hmeta Hfresh Hdone Hsx Hnd Hin Hkeep Hprev.
  constructor; rewrite Hmeta.
  - done.
  - intros k y H. apply in_app_or in H as [H|[[= <- <-]|[]]].
    + destruct (Hd k y H) as (z & dz & dy & Hz & Hsz & Hsy & He).
      exists z, dz, dy. split; [|done]. apply Hkeep; [done| |by apply (Hdone k y)].
      intros ->. apply Hfresh. apply in_keys. by exists y.
    + exists x, dx, dx. split; [done|]. split; [done|]. split; [done|].
      apply equal_definition_refl.
  - intros k H1 H2. destruct (String.eqb_spec k name) as [->|Hne].
    + apply in_keys. by exists x.
    + specialize (Hkept k H1 H2). apply in_keys in Hkept as [z Hz].
      apply in_keys. exists z. by apply Hkeep.
  - intros prev H1 H2 H3. apply Hprev; [|done|].
    + apply Hfree; [done|done|]. intros k y H. apply H3. apply in_or_app. by left.
    + destruct (in_dec string_dec name (Obj.keys metaColumns)) as [Hp|Hn];
        [by right|left].
      apply (H3 name x); [apply in_or_app; right; by left|done].
Qed.

Lemma settled_inv_step done name x todo st :
  inv done ((name, x) :: todo) st ->
  sinv done st ->
  sinv (done ++ [(name, x)]) (forward_step value_equal st (name, x)).
Proof.
  intros Hinv Hstl.
  destruct (split_facts _ _ _ _ (fwd_split _ _ _ _ _ _ Hinv))
    as (Hmc & Hname & Hfresh & Hxtodo & Hxge).
  destruct (fwd_todo _ _ _ _ _ _ Hinv name x (or_introl eq_refl))
    as [Hxmeta Hxmark].
  pose proof (fwd_options _ _ _ _ _ _ Hinv) as Hopts.
  destruct (mc_stored _ _ Hmc) as (dx & Hdx & Hsx).
  pose proof (same_options_unmarked _ _ x Hopts Hxmark (store0_unmarked x))
    as Hhx.
  assert (forall k y, In (k, y) done -> In k (Obj.keys modelColumns)) as Hdone.
  { intros k y H. rewrite <- mc_keys, <- (fwd_split _ _ _ _ _ _ Hinv).
    apply keys_app. left. apply in_keys. by exists y. }
  unfold forward_step.
  destruct (Obj.get name (metaDataByTableName st)) as [z|] eqn:Hcur.
  - pose proof (ObjFacts.get_In _ _ _ Hcur) as Hz.
    assert (In (name, z) meta0) as Hz0.
    { destruct (fwd_origin _ _ _ _ _ _ Hinv name z Hz) as [|Hd]; [done|].
      exfalso. apply Hfresh. apply in_keys. eauto. }
    assert (nextColumnName_at (heap st) z = None) as Hzmark.
    { destruct (fwd_marks _ _ _ _ _ _ Hinv name z Hz) as [|[_ Hd]]; [done|].
      by destruct Hfresh. }
    destruct (meta0_stored _ _ Hz0) as (dz & Hdz & Hsz).
    pose proof (same_options_unmarked _ _ z Hopts Hzmark (store0_unmarked z))
      as Hhz.
    destruct (equal_at value_equal (heap st) z x) eqn:Heq; cbn [negb].
    + apply (settled_inv_stay done name x st _ z dz dx); try done.
      unfold equal_at in Heq. rewrite Hhz, Hhx, Hsz, Hsx in Heq.
      unfold equal_object in Heq. by apply andb_true_iff in Heq as [Heq _].
    + eapply (settled_inv_store done name x st _
                (Obj.set name x (metaDataByTableName st)) dx); try done.
      * apply ObjFacts.NoDup_keys_set, (stl_keys _ _ _ _ _ Hstl).
      * apply ObjFacts.In_set_same.
      * intros k y H Hne _. by apply ObjFacts.In_set_other.
      * intros prev H _ _. apply ObjFacts.keys_set. by right.
  - assert (~ In name (Obj.keys metaColumns)) as HnameP.
    { intros H. apply ObjFacts.get_None in Hcur. apply Hcur.
      by apply (stl_kept _ _ _ _ _ Hstl). }
    assert (prevColumnName_at (heap st) x = prevColumnName dx) as Hhint.
    { unfold prevColumnName_at. by rewrite Hhx, Hsx. }
    assert (prevColumnName_at store0 x = prevColumnName dx) as Hhint0.
    { unfold prevColumnName_at. by rewrite Hsx. }
    rewrite Hhint.
    destruct (Obj.inherited name) eqn:Hinh.
    { eapply (settled_inv_store done name x st _
                (Obj.set name x (metaDataByTableName st)) dx); try done.
      * apply ObjFacts.NoDup_keys_set, (stl_keys _ _ _ _ _ Hstl).
      * apply ObjFacts.In_set_same.
      * intros k y H Hne _. by apply ObjFacts.In_set_other.
      * intros p H _ _. apply ObjFacts.keys_set. by right. }
    destruct (all_settled name dx Hdx)
      as [Hhas|[Hnone|(prev & Hp & HpP & HpM & Huniq)]].
    + apply ObjFacts.present_true in Hhas as [Hhas|Hhas]; [done|congruence].
    + rewrite Hnone.
      eapply (settled_inv_store done name x st _
                (Obj.set name x (metaDataByTableName st)) dx); try done.
      * apply ObjFacts.NoDup_keys_set, (stl_keys _ _ _ _ _ Hstl).
      * apply ObjFacts.In_set_same.
      * intros k y H Hne _. by apply ObjFacts.In_set_other.
      * intros p H _ _. apply ObjFacts.keys_set. by right.
    + rewrite Hp. apply ObjFacts.has_true in HpP.
      apply ObjFacts.has_false in HpM.
      assert (name <> prev) as Hne by (intros ->; done).
      assert (Obj.has prev (metaDataByTableName st) = true) as Hhas.
      { apply ObjFacts.has_true. apply (stl_free _ _ _ _ _ Hstl); [done|done|].
        intros k y H HkP Hk. apply Hfresh.
        assert (In (k, y) mc) as Hy.
        { rewrite <- (fwd_split _ _ _ _ _ _ Hinv). apply in_or_app. by left. }
        destruct (mc_stored _ _ Hy) as (dy & Hdy & Hsy).
        assert (k = name) as ->.
        { apply (Huniq k dy Hdy); [by apply ObjFacts.has_false|].
          unfold prevColumnName_at in Hk. by rewrite Hsy in Hk. }
        apply in_keys. by exists y. }
      unfold Obj.present. rewrite Hhas. apply String.eqb_neq in Hne as Hneb. rewrite Hneb.
      cbn [negb andb].
      eapply (settled_inv_store done name x st _
                (Obj.set name x (Obj.del prev (metaDataByTableName st))) dx);
        try done.
      * apply ObjFacts.NoDup_keys_set, ObjFacts.NoDup_keys_del,
          (stl_keys _ _ _ _ _ Hstl).
      * apply ObjFacts.In_set_same.
      * intros k y H Hkn HkM. apply ObjFacts.In_set_other; [|done].
        apply ObjFacts.In_del_intro; [done|]. intros ->. done.
      * intros p H HpM' [Hx|Hx]; [|done].
        apply ObjFacts.keys_set. right. apply ObjFacts.keys_del.
        split; [|done]. intros ->. apply Hx. by rewrite Hhint0.
Qed.

Lemma settled_inv_fold todo : forall done st,
  inv done todo st -> sinv done st ->
  sinv (done ++ todo) (fold_left (forward_step value_equal) todo st).
Proof.
  induction todo as [|[name x] todo IH]; intros done st Hinv Hstl; simpl.
  - by rewrite app_nil_r.
  - replace (done ++ (name, x) :: todo)%list
      with ((done ++ [(name, x)]) ++ todo)%list by (by rewrite <- app_assoc).
    apply IH; [by apply forward_inv_step|by apply (settled_inv_step _ _ _ todo)].
Qed.

Lemma forward_pass_settled :
  sinv mc (forward_pass value_equal metaColumns modelColumns).
Proof.
  apply (settled_inv_fold mc [] _ forward_inv_init settled_inv_init).
Qed.

(** The table the test on the name leaves: the entries whose names the
    model has. *)
Lemma removal_by_name_meta todo : forall (st : @State Value) k z,
  In (k, z) (metaDataByTableName
               (fold_left (removal_step_with (name_is_absent mc)) todo st))
  <-> In (k, z) (metaDataByTableName st)
      /\ (In k (Obj.keys todo) -> Obj.present k mc = true).
Proof.
  induction todo as [|[k0 z0] todo IH]; intros st k z; cbn [fold_left].
  - simpl. tauto.
  - rewrite IH. unfold removal_step_with, name_is_absent. fields.
    destruct (Obj.present k0 mc) eqn:E; cbn [negb]; fields; simpl.
    + split.
      * intros [H1 H2]. split; [done|]. intros [<-|H]; auto.
      * intros [H1 H2]. split; [done|]. auto.
    + split.
      * intros [H1 H2]. apply ObjFacts.In_del in H1 as [H1 Hne].
        split; [done|]. intros [->|H]; [done|auto].
      * intros [H1 H2]. split; [|auto].
        apply ObjFacts.In_del_intro; [done|]. intros ->.
        rewrite H2 in E; [done|by left].
Qed.

Lemma removal_by_name_keys todo : forall st : @State Value,
  List.NoDup (Obj.keys (metaDataByTableName st)) ->
  List.NoDup (Obj.keys (metaDataByTableName
                          (fold_left (removal_step_with (name_is_absent mc))
                                     todo st))).
Proof.
  induction todo as [|[k0 z0] todo IH]; intros st Hnd; cbn [fold_left];
    [done|].
  apply IH. unfold removal_step_with, name_is_absent. fields.
  destruct (negb (Obj.present k0 mc)); fields; [|done].
  by apply ObjFacts.NoDup_keys_del.
Qed.

Lemma read_keys (h : list (@ColumnObject Value)) (o : object loc) :
  (forall k z, In (k, z) o -> is_Some (h !! z)) ->
  Obj.keys (read h o) = Obj.keys o.
Proof.
  induction o as [|[k z] o IH]; intros Halloc; [done|].
  assert (read h ((k, z) :: o)
          = match h !! z with
            | Some v => (k, v) :: read h o
            | None => read h o
            end) as E by (unfold read; simpl; by destruct (h !! z)).
  rewrite E. destruct (Halloc k z (or_introl eq_refl)) as [v Hv]. rewrite Hv.
  simpl. f_equal. apply IH. intros k' z' H. apply (Halloc k' z'). by right.
Qed.

Hypothesis no_undefined : ~ In "undefined" (Obj.keys modelColumns).

Lemma final_is_by_name :
  final = fold_left (removal_step_with (name_is_absent mc))
            (metaDataByTableName
               (forward_pass value_equal metaColumns modelColumns))
            (forward_pass value_equal metaColumns modelColumns).
Proof. by rewrite <- (classify_by_name_agrees no_undefined). Qed.

Lemma final_stored k z :
  In (k, z) (metaDataByTableName final) ->
  exists dz dm,
    heap final !! z = Some (parsed dz)
    /\ Obj.get k modelColumns = Some dm
    /\ equal_definition value_equal dz dm = true.
Proof.
  intros Hz.
  pose proof (classify_marks_cleared k z Hz) as Hmark.
  pose proof (same_options_unmarked _ _ z
                (rem_options _ _ _ _ _ classify_inv) Hmark
                (store0_unmarked z)) as Hhz.
  rewrite final_is_by_name in Hz.
  apply removal_by_name_meta in Hz as [Hz Hhas].
  assert (In k (Obj.keys mc)) as Hk.
  { assert (Obj.present k mc = true) as Hp
      by (apply Hhas, in_keys; by exists z).
    apply ObjFacts.present_true in Hp as [Hp|Hp]; [done|].
    destruct (fwd_origin _ _ _ _ _ _ forward_pass_inv k z Hz) as [H0|Hmc].
    - destruct (in_dec string_dec k (Obj.keys modelColumns)) as [Hin|Hout];
        [by rewrite mc_keys|].
      rewrite leftovers_plain in Hp; [done| |done].
      rewrite <- (LocFacts.locations_keys 0 metaColumns).
      apply in_keys. by exists z.
    - apply in_keys. by exists z. }
  apply in_keys in Hk as [x Hx].
  destruct (stl_done _ _ _ _ _ forward_pass_settled k x Hx)
    as (z' & dz & dx & Hz' & Hsz & Hsx & He).
  assert (z = z') as <-
    by (apply (ObjFacts.NoDup_keys_inj _ _ _ _
                 (stl_keys _ _ _ _ _ forward_pass_settled) Hz Hz')).
  destruct (mc_stored _ _ Hx) as (dm & Hdm & Hsx').
  assert (dm = dx) as ->.
  { rewrite Hsx in Hsx'. unfold parsed in Hsx'. congruence. }
  exists dz, dx. split; [by rewrite Hhz|]. split; [|done].
  by apply LocFacts.In_get.
Qed.

(** After a run in which every model column is settled and none is called
    [undefined], [equal] holds between the stored table and the model
    columns. *)
Lemma settled_run_equal :
  equal value_equal (stored_definitions final) modelColumns = true.
Proof.
  assert (forall k z, In (k, z) (metaDataByTableName final) ->
                      is_Some (heap final !! z)) as Halloc.
  { intros k z H. destruct (final_stored k z H) as (dz & _ & Hs & _).
    by eexists. }
  assert (Obj.keys (stored_definitions final)
          = Obj.keys (metaDataByTableName final)) as Hkeys.
  { unfold stored_definitions, Obj.keys. rewrite map_map. cbn [fst].
    apply (read_keys _ _ Halloc). }
  unfold equal. apply andb_true_iff. split.
  - apply Nat.eqb_eq.
    rewrite <- (length_map fst (stored_definitions final)),
      <- (length_map fst modelColumns).
    fold (Obj.keys (stored_definitions final)). fold (Obj.keys modelColumns).
    rewrite Hkeys. apply Nat.le_antisymm.
    + apply NoDup_incl_length.
      * rewrite final_is_by_name. apply removal_by_name_keys.
        apply (stl_keys _ _ _ _ _ forward_pass_settled).
      * intros k Hk. apply in_keys in Hk as [z Hz].
        destruct (final_stored k z Hz) as (_ & dm & _ & Hg & _).
        apply ObjFacts.get_In in Hg. apply in_keys. by exists dm.
    + apply NoDup_incl_length; [exact model_keys|].
      intros k Hk. rewrite <- mc_keys in Hk. apply in_keys in Hk as [x Hx].
      destruct (stl_done _ _ _ _ _ forward_pass_settled k x Hx)
        as (z & _ & _ & Hz & _).
      apply in_keys. exists z. rewrite final_is_by_name.
      apply removal_by_name_meta. split; [done|]. intros _.
      apply ObjFacts.present_true. left. apply in_keys. by exists x.
  - apply forallb_forall. intros [k d] Hin.
    unfold stored_definitions in Hin. apply in_map_iff in Hin
      as ([k' o] & [= -> <-] & Hin).
    apply In_read in Hin as (z & Hz & Ho).
    destruct (final_stored k z Hz) as (dz & dm & Hs & Hg & He).
    rewrite Hg. rewrite Ho in Hs. injection Hs as ->.
    unfold equal_object. cbn. by rewrite He.
Qed.

End forward_facts.

(** ** The diff *)

Section diff_facts.
Context {Value : Type}.
Variable value_equal : Value -> Value -> bool.
Implicit Types (modelColumns metaColumns : object (@ColumnDefinition Value)).
Implicit Types (metaData : object (object (@ColumnDefinition Value))).


(** C5, for a table whose name is not that of a property of
    [Object.prototype]. For such a table without a snapshot entry
    [getRawMigrations] returns one descriptor, labelled [initial], whose
    up-operation creates the table with the columns [getModelColumns]
    extracted and whose down-operation drops it, and the snapshot entry of
    the table becomes those columns. *)
Theorem initial_for_new_table (model : @Model Value) metaData :
  Obj.inherited (tableName model) = false ->
  Obj.get (tableName model) metaData = None ->
  fst (getRawMigrations value_equal model metaData)
  = inr [ {| label := "initial";
             up := [createTable (tableName model) (getModelColumns model)];
             down := [dropTable (tableName model)] |} ]
  /\ Obj.get (tableName model) (snd (getRawMigrations value_equal model metaData))
     = Some (getModelColumns model).
Proof.
  intros Hplain Hg. unfold getRawMigrations, diff, diff_with.
  rewrite Hg, Hplain.
  destruct (String.eqb_spec (tableName model) "__proto__") as [E|_].
  { by rewrite E in Hplain. }
  simpl. split; [done|]. apply ObjFacts.get_set_eq.
Qed.

(** The down-operations a run can emit, by bucket. *)
Lemma down_operations table (mc : object loc)
    (freeze : object (@ColumnObject Value)) (st : @State Value) m op :
  In m (migrations_of table mc freeze st) ->
  In op (down m) ->
  (exists c, In c (Obj.keys (col_new (columns st)))
             /\ op = removeColumn table c)
  \/ (exists c, In c (Obj.keys (col_change (columns st)))
                /\ op = changeColumn table c (Obj.get c freeze))
  \/ (exists c, In c (Obj.keys (col_rename (columns st)))
                /\ op = renameColumn table c (previous_name mc st c)
                          (Obj.get (previous_name mc st c) freeze))
  \/ (exists c, In c (col_remove (columns st))
                /\ op = addColumn table c (Obj.get c freeze)).
Proof.
  unfold migrations_of. rewrite !in_app_iff.
  intros [H|[H|[H|H]]] Hop.
  - left. unfold migration_new in H.
    destruct (Obj.keys (col_new (columns st))) as [|c0 cs]; [done|].
    destruct H as [<-|[]]. cbn [down] in Hop.
    apply in_map_iff in Hop as (c & <- & Hc). eauto.
  - right. left. unfold migration_change in H.
    destruct (Obj.keys (col_change (columns st))) as [|c0 cs]; [done|].
    destruct H as [<-|[]]. cbn [down] in Hop.
    apply in_map_iff in Hop as (c & <- & Hc). eauto.
  - right. right. left. unfold migration_rename in H.
    destruct (Obj.keys (col_rename (columns st))) as [|c0 cs]; [done|].
    destruct H as [<-|[]]. cbn [down] in Hop.
    apply in_map_iff in Hop as (c & <- & Hc). eauto.
  - right. right. right. unfold migration_remove in H.
    destruct (col_remove (columns st)) as [|c0 cs]; [done|].
    destruct H as [<-|[]]. cbn [down] in Hop.
    apply in_map_iff in Hop as (c & <- & Hc). eauto.
Qed.

(** C7, as the code has it. Whatever a run emits for model columns none of
    which is called [__proto__], a down-operation carries what the snapshot
    held before the run under the name it restores, which need not be a
    definition. For a changed column it is the stored definition when the
    snapshot had the column, which [equal] then tells apart from the
    model's unless the name is one of [Object.prototype]; a changed column
    the snapshot did not have bears such a name and its down-operation
    carries nothing. For a renamed column it is the definition the snapshot
    held under the previous name when it had that column, and nothing when
    it had not and the previous name is not [__proto__]. For a removed
    column it is the stored definition. *)
Theorem down_restores_prior table modelColumns metaData metaColumns
    migrations metaData' m :
  List.NoDup (Obj.keys metaColumns) ->
  List.NoDup (Obj.keys modelColumns) ->
  ~ In "__proto__" (Obj.keys modelColumns) ->
  Obj.get table metaData = Some metaColumns ->
  diff value_equal table modelColumns metaData = (inr migrations, metaData') ->
  In m migrations ->
  (forall t c payload,
     In (changeColumn t c payload) (down m) ->
     exists d',
       Obj.get c modelColumns = Some d'
       /\ ((exists d,
              Obj.get c metaColumns = Some d
              /\ payload = Some (parsed d)
              /\ (Obj.inherited c = false ->
                  equal_definition value_equal d d' = false))
           \/ (Obj.get c metaColumns = None
               /\ Obj.inherited c = true
               /\ payload = None)))
  /\ (forall t current previous payload,
        In (renameColumn t current previous payload) (down m) ->
        (forall d, Obj.get previous metaColumns = Some d ->
                   payload = Some (parsed d))
        /\ (Obj.get previous metaColumns = None ->
            previous <> "__proto__" ->
            payload = None))
  /\ (forall t c payload,
        In (addColumn t c payload) (down m) ->
        exists d, Obj.get c metaColumns = Some d /\ payload = Some (parsed d)).
Proof.
  intros Hmeta Hmodel Hproto Hg Hd Hm.
  unfold diff, diff_with in Hd. rewrite Hg in Hd.
  destruct (equal value_equal metaColumns modelColumns); [done|].
  injection Hd as <- _.
  fold (classify value_equal metaColumns modelColumns) in Hm.
  split; [|split].
  - intros t c payload Hop.
    destruct (down_operations _ _ _ _ _ _ Hm Hop)
      as [(c' & _ & [=])|[(c' & Hc & [= -> -> ->])|[(c' & _ & [=])|(c' & _ & [=])]]].
    destruct (changed_columns value_equal metaColumns modelColumns Hmodel Hmeta
                c' Hc) as (d' & H1 & H2).
    exists d'. split; [done|]. rewrite frozen_get.
    destruct (Obj.get c' metaColumns) as [d|] eqn:Hd.
    + left. exists d. split; [done|]. split; [done|]. intros Hplain.
      destruct H2 as [(d0 & [= ->] & He)|Hinh]; [done|congruence].
    + right. destruct H2 as [(d0 & [=] & _)|Hinh]. done.
  - intros t current previous payload Hop.
    destruct (down_operations _ _ _ _ _ _ Hm Hop)
      as [(c' & _ & [=])|[(c' & _ & [=])|[(c' & _ & [= -> -> -> ->])|(c' & _ & [=])]]].
    rewrite frozen_get. split.
    + by intros d ->.
    + by intros -> _.
  - intros t c payload Hop.
    destruct (down_operations _ _ _ _ _ _ Hm Hop)
      as [(c' & _ & [=])|[(c' & _ & [=])|[(c' & _ & [=])|(c' & Hc & [= -> -> ->])]]].
    destruct (removed_columns value_equal metaColumns modelColumns Hmodel Hmeta
                c' Hc) as (d & H1).
    exists d. rewrite frozen_get, H1. done.
Qed.


(** C6, with the previous name not empty and the new name not that of a
    property of [Object.prototype]. A snapshot [{A: def1}] and model
    columns [{B: def1 with prevColumnName = A}], [A] and [B] distinct, [A]
    not the empty string and [B] not a name every object answers to, give
    one descriptor, the rename of [A] to [B], and leave the new, change and
    remove buckets empty. In any run, the previous name of a column in the
    rename bucket is not in the remove bucket. *)
Theorem rename_is_not_remove_and_add (A B table : string)
    (def1 : @ColumnDefinition Value) metaColumns modelColumns b x prev :
  A <> B ->
  A <> "" ->
  Obj.inherited B = false ->
  List.NoDup (Obj.keys modelColumns) ->
  (let current := [(B, with_prevColumnName def1 A)] in
   let st := classify value_equal [(A, def1)] current in
   Obj.keys (col_rename (columns st)) = [B]
   /\ col_new (columns st) = []
   /\ col_change (columns st) = []
   /\ col_remove (columns st) = []
   /\ diff value_equal table current [(table, [(A, def1)])]
      = (inr [ {| label := "rename-column-to";
                  up := [renameColumn table A B
                           (Some (parsed (with_prevColumnName def1 A)))];
                  down := [renameColumn table B A (Some (parsed def1))] |} ],
         [(table, current)]))
  /\ (let st := classify value_equal metaColumns modelColumns in
      In (b, x) (col_rename (columns st)) ->
      truthy (prevColumnName_at (heap st) x) = Some prev ->
      ~ In prev (col_remove (columns st))).
Proof.
  intros HAB HA HB Hmodel. split.
  - assert (String.eqb B A = false) as E1 by (apply String.eqb_neq; congruence).
    assert (String.eqb A B = false) as E2 by (by apply String.eqb_neq).
    assert (String.eqb A "" = false) as E3 by (by apply String.eqb_neq).
    cbv zeta.
    assert (classify value_equal [(A, def1)] [(B, with_prevColumnName def1 A)]
            = {| heap := [parsed def1; parsed (with_prevColumnName def1 A)];
                 metaDataByTableName := [(B, 1)];
                 columns := {| col_new := []; col_change := [];
                               col_rename := [(B, 1)]; col_remove := [] |} |})
      as Hst.
    { unfold classify, classify_with, removal_pass_with, forward_pass.
      repeat (progress (cbn; unfold Obj.present, Obj.has, is_removed;
                        rewrite ?String.eqb_refl, ?E1, ?E2, ?E3, ?HB)).
      done. }
    rewrite Hst. cbn. repeat split.
    unfold diff, diff_with. cbn. rewrite String.eqb_refl.
    unfold equal. cbn. rewrite E2. cbn.
    fold (classify value_equal [(A, def1)] [(B, with_prevColumnName def1 A)]).
    rewrite Hst.
    repeat (progress (cbn; unfold previous_name, payload_at, stored_definitions;
                      rewrite ?String.eqb_refl, ?E1, ?E2, ?E3)).
    done.
  - cbv zeta. apply renamed_not_removed. done.
Qed.

(** C8, for model columns none of which is called [undefined]. The test on
    the tracked next name adds nothing to the test on the name: with the
    second conjunct dropped the run returns the same descriptors and leaves
    the same snapshot, and both loops end in the same state. The test on
    the name is a lookup, which also finds what every object inherits: a
    column the first loop left in the table is removed exactly when its
    name is absent from the model columns and is not that of a property of
    [Object.prototype]. *)
Theorem removal_test_on_name_alone table modelColumns metaData metaColumns k :
  List.NoDup (Obj.keys modelColumns) ->
  ~ In "undefined" (Obj.keys modelColumns) ->
  diff_by_name value_equal table modelColumns metaData
  = diff value_equal table modelColumns metaData
  /\ classify_with value_equal name_is_absent metaColumns modelColumns
     = classify value_equal metaColumns modelColumns
  /\ (In k (col_remove (columns (classify value_equal metaColumns modelColumns)))
      <-> In k (Obj.keys (metaDataByTableName
                            (forward_pass value_equal metaColumns modelColumns)))
          /\ ~ In k (Obj.keys modelColumns)
          /\ Obj.inherited k = false).
Proof.
  intros Hmodel Hundef. split; [|split].
  - unfold diff_by_name, diff, diff_with.
    destruct (Obj.get table metaData) as [columns0|]; [|done].
    destruct (equal value_equal columns0 modelColumns); [done|].
    by rewrite (classify_by_name_agrees value_equal columns0 modelColumns
                  Hmodel Hundef).
  - by apply classify_by_name_agrees.
  - by apply removed_iff_absent.
Qed.

Lemma equal_refl modelColumns :
  (forall v, value_equal v v = true) ->
  List.NoDup (Obj.keys modelColumns) ->
  equal value_equal modelColumns modelColumns = true.
Proof.
  intros Hrefl Hnd. unfold equal. rewrite Nat.eqb_refl. cbn [andb].
  apply forallb_forall. intros [k d] Hin.
  rewrite (LocFacts.In_get _ _ _ Hnd Hin).
  unfold equal_object. cbn. rewrite andb_true_r.
  by apply equal_definition_refl.
Qed.

(** Two runs on an unchanged model: the second throws [no change] when
    the table has a snapshot entry or a name that is not one of
    [Object.prototype], every model column is settled with respect to the
    snapshot the first run finds, none is called [undefined], and the
    stored columns the model lacks have names that are not those of
    properties of [Object.prototype]. *)
Lemma second_run_no_change table modelColumns metaData :
  (forall v, value_equal v v = true) ->
  List.NoDup (Obj.keys modelColumns) ->
  ~ In "undefined" (Obj.keys modelColumns) ->
  (Obj.get table metaData = None -> Obj.inherited table = false) ->
  (forall metaColumns,
     Obj.get table metaData = Some metaColumns ->
     List.NoDup (Obj.keys metaColumns)
     /\ (forall k d, In (k, d) modelColumns ->
                     settled metaColumns modelColumns k d)
     /\ (forall k, In k (Obj.keys metaColumns) ->
                   ~ In k (Obj.keys modelColumns) ->
                   Obj.inherited k = false)) ->
  fst (diff value_equal table modelColumns
            (snd (diff value_equal table modelColumns metaData)))
  = inl no_change.
Proof.
  intros Hrefl Hmodel Hundef Hplain Hmeta. unfold diff, diff_with.
  destruct (Obj.get table metaData) as [metaColumns|] eqn:Hg.
  - destruct (Hmeta metaColumns eq_refl) as (Hnd & Hsettled & Hleft).
    destruct (equal value_equal metaColumns modelColumns) eqn:He; cbn [snd].
    + by rewrite Hg, He.
    + rewrite ObjFacts.get_set_eq.
      fold (classify value_equal metaColumns modelColumns).
      by rewrite settled_run_equal.
  - rewrite (Hplain eq_refl).
    destruct (String.eqb_spec table "__proto__") as [E|_].
    { specialize (Hplain eq_refl). by rewrite E in Hplain. }
    cbn [snd]. rewrite ObjFacts.get_set_eq. by rewrite equal_refl.
Qed.

End diff_facts.

(** ** The diff on the sample tables *)

Local Ltac distinct_keys :=
  repeat (apply List.NoDup_cons; [simpl; intuition discriminate|]);
  apply List.NoDup_nil.

(** C1, at a failing input. The snapshot of [users] holds [name]; the model
    adds [mail] with the previous name [email], which the snapshot does not
    have. The column is put in no bucket and is not stored, and the run
    returns no descriptor; the same happens when the previous name is the
    column's own name. *)
Theorem unresolved_hint_is_dropped :
  (let st := classify String.eqb [("name", column "DataTypes.STRING" None)]
                      name_and_hinted_mail in
   col_new (columns st) = []
   /\ col_change (columns st) = []
   /\ col_rename (columns st) = []
   /\ col_remove (columns st) = []
   /\ Obj.get "mail" (stored_definitions st) = None)
  /\ diff String.eqb "users" name_and_hinted_mail users_name
     = (inr [], users_name)
  /\ diff String.eqb "users"
          [ ("name", column "DataTypes.STRING" None);
            ("mail", column "DataTypes.STRING" (Some "mail")) ]
          users_name
     = (inr [], users_name).
Proof. vm_compute. repeat split. Qed.

(** C3, at a failing input. With the model of C1 left as it is, the first
    run returns no descriptor and leaves the snapshot without [mail]; the
    second run does the same and does not throw [no change]. *)
Theorem second_run_without_no_change :
  let first := diff String.eqb "users" name_and_hinted_mail users_name in
  let second := diff String.eqb "users" name_and_hinted_mail (snd first) in
  first = (inr [], users_name)
  /\ second = (inr [], users_name)
  /\ fst second <> inl no_change
  /\ equal String.eqb [("name", column "DataTypes.STRING" None)]
           name_and_hinted_mail = false.
Proof. vm_compute. repeat split. discriminate. Qed.



(** C6 fails for the empty previous name: the model column is filed as new
    and the stored column as removed. It fails for a new name that every
    object answers to: the model column is filed as changed and the stored
    column as removed. *)
Lemma empty_previous_name_is_no_hint :
  (let st := classify String.eqb [("", column "DataTypes.STRING" None)]
               [("b", with_prevColumnName (column "DataTypes.STRING" None) "")] in
   Obj.keys (col_rename (columns st)) = []
   /\ Obj.keys (col_new (columns st)) = ["b"]
   /\ col_remove (columns st) = [""])
  /\ (let st := classify String.eqb [("a", column "DataTypes.STRING" None)]
                  [("constructor",
                    with_prevColumnName (column "DataTypes.STRING" None) "a")] in
      Obj.keys (col_rename (columns st)) = []
      /\ Obj.keys (col_change (columns st)) = ["constructor"]
      /\ col_remove (columns st) = ["a"]).
Proof. vm_compute. repeat split. Qed.

(** C8 fails when a model column is called [undefined]: the test of the
    source keeps the stored column [a], the test on the name removes it.
    Nor is every stored column whose name the model lacks removed: [email],
    taken by the rename to [mail], is in no bucket, and [toString], which
    the lookup finds in every object, stays in the table. *)
Lemma undefined_column_keeps_removed_columns :
  col_remove (columns (classify String.eqb
                         [("a", column "DataTypes.STRING" None)]
                         only_undefined)) = []
  /\ col_remove (columns (classify_with String.eqb name_is_absent
                            [("a", column "DataTypes.STRING" None)]
                            only_undefined)) = ["a"]
  /\ diff_by_name String.eqb "users" only_undefined users_a
     <> diff String.eqb "users" only_undefined users_a
  /\ col_remove (columns (classify String.eqb
                            [("email", column "DataTypes.STRING" None)]
                            mail_from_email)) = []
  /\ Obj.has "email" mail_from_email = false
  /\ (let st := classify String.eqb
                  [ ("name", column "DataTypes.STRING" None);
                    ("toString", column "DataTypes.STRING" None) ]
                  [ ("name", column "DataTypes.STRING" None) ] in
      col_remove (columns st) = []
      /\ Obj.keys (metaDataByTableName st) = ["name"; "toString"]).
Proof. vm_compute. repeat split. discriminate. Qed.

(** A stored column [toString] that the model lacks is found by the lookup
    of the removal test and stays: the run returns no descriptor, leaves
    the snapshot as it is, and a run on what it leaves does the same
    without throwing [no change]. *)
Lemma stored_toString_is_kept :
  let first := diff String.eqb "users"
                    [("name", column "DataTypes.STRING" None)]
                    users_name_and_toString in
  first = (inr [], users_name_and_toString)
  /\ diff String.eqb "users" [("name", column "DataTypes.STRING" None)]
          (snd first)
     = (inr [], users_name_and_toString).
Proof. vm_compute. split; reflexivity. Qed.


(** C5 fails for a table called [constructor]: the snapshot has no entry
    for it, what the lookup finds is not a table, and the run ends in the
    [SyntaxError] of [JSON.parse] with the snapshot as it was. *)
Lemma table_called_constructor_gets_no_initial :
  Obj.get (tableName constructor_model)
          ([] : object (object (@ColumnDefinition string))) = None
  /\ getRawMigrations String.eqb constructor_model []
     = (inl syntax_error, []).
Proof. vm_compute. split; reflexivity. Qed.

Lemma initial_for_new_table_witness :
  Obj.inherited (tableName users_model) = false
  /\ Obj.get (tableName users_model)
             ([] : object (object (@ColumnDefinition string))) = None
  /\ fst (getRawMigrations String.eqb users_model [])
     = inr [ {| label := "initial";
                up := [createTable "users" (getModelColumns users_model)];
                down := [dropTable "users"] |} ]
  /\ Obj.get "users" (snd (getRawMigrations String.eqb users_model []))
     = Some (getModelColumns users_model).
Proof.
  split; [reflexivity|]. split; [reflexivity|].
  apply (initial_for_new_table String.eqb users_model []); reflexivity.
Defined.

(** C7 fails where the snapshot held nothing under the name a
    down-operation restores. The model adds [a] and names it as the
    previous name of [b]: the rename is undone with no definition. The
    model adds [constructor]: the column is filed as changed and the change
    is undone with no definition. *)
Lemma down_of_unknown_name_restores_nothing :
  diff String.eqb "users" name_a_and_b_from_a users_name
  = (inr [ {| label := "add-column-to";
              up := [addColumn "users" "a"
                       (Some (parsed (column "DataTypes.STRING" None)))];
              down := [removeColumn "users" "a"] |};
           {| label := "rename-column-to";
              up := [renameColumn "users" "a" "b"
                       (Some (parsed (column "DataTypes.STRING" (Some "a"))))];
              down := [renameColumn "users" "b" "a" None] |} ],
     [ ("users", [ ("name", column "DataTypes.STRING" None);
                   ("b", column "DataTypes.STRING" (Some "a")) ]) ])
  /\ diff String.eqb "users" name_and_constructor users_name
     = (inr [ {| label := "change-column-to";
                 up := [changeColumn "users" "constructor"
                          (Some (parsed (column "DataTypes.STRING" None)))];
                 down := [changeColumn "users" "constructor" None] |} ],
        [ ("users", name_and_constructor) ]).
Proof. vm_compute. split; reflexivity. Qed.

Lemma down_restores_prior_witness :
  List.NoDup (Obj.keys [ ("name", column "DataTypes.STRING" None);
                         ("email", column "DataTypes.STRING" None);
                         ("old", column "DataTypes.STRING" None) ])
  /\ List.NoDup (Obj.keys text_name_and_mail)
  /\ ~ In "__proto__" (Obj.keys text_name_and_mail)
  /\ diff String.eqb "users" text_name_and_mail users_three
     = (inr [change_name; rename_email; remove_old],
        [("users", text_name_and_mail)])
  /\ (forall t c payload,
        In (changeColumn t c payload) (down change_name) ->
        exists d',
          Obj.get c text_name_and_mail = Some d'
          /\ ((exists d,
                 Obj.get c [ ("name", column "DataTypes.STRING" None);
                             ("email", column "DataTypes.STRING" None);
                             ("old", column "DataTypes.STRING" None) ] = Some d
                 /\ payload = Some (parsed d)
                 /\ (Obj.inherited c = false ->
                     equal_definition String.eqb d d' = false))
              \/ (Obj.get c [ ("name", column "DataTypes.STRING" None);
                              ("email", column "DataTypes.STRING" None);
                              ("old", column "DataTypes.STRING" None) ] = None
                  /\ Obj.inherited c = true
                  /\ payload = None))).
Proof.
  assert (List.NoDup (Obj.keys [ ("name", column "DataTypes.STRING" None);
                                 ("email", column "DataTypes.STRING" None);
                                 ("old", column "DataTypes.STRING" None) ]))
    as H1 by distinct_keys.
  assert (List.NoDup (Obj.keys text_name_and_mail)) as H2 by distinct_keys.
  assert (~ In "__proto__" (Obj.keys text_name_and_mail)) as Hp
    by (simpl; intuition discriminate).
  assert (diff String.eqb "users" text_name_and_mail users_three
          = (inr [change_name; rename_email; remove_old],
             [("users", text_name_and_mail)])) as H3 by reflexivity.
  split; [exact H1|]. split; [exact H2|]. split; [exact Hp|].
  split; [exact H3|].
  refine (proj1 (down_restores_prior String.eqb "users" text_name_and_mail
                   users_three _ _ _ change_name H1 H2 Hp _ H3 _)).
  - reflexivity.
  - simpl. tauto.
Defined.

Lemma rename_is_not_remove_and_add_witness :
  "email" <> "mail"
  /\ "email" <> ""
  /\ Obj.inherited "mail" = false
  /\ List.NoDup (Obj.keys text_name_and_mail)
  /\ diff String.eqb "users"
          [("mail", with_prevColumnName (column "DataTypes.STRING" None) "email")]
          [("users", [("email", column "DataTypes.STRING" None)])]
     = (inr [ {| label := "rename-column-to";
                 up := [renameColumn "users" "email" "mail"
                          (Some (parsed (with_prevColumnName
                                           (column "DataTypes.STRING" None)
                                           "email")))];
                 down := [renameColumn "users" "mail" "email"
                            (Some (parsed (column "DataTypes.STRING" None)))] |} ],
        [("users",
          [("mail", with_prevColumnName (column "DataTypes.STRING" None) "email")])])
  /\ ~ In "email"
       (col_remove (columns (classify String.eqb
          [ ("name", column "DataTypes.STRING" None);
            ("email", column "DataTypes.STRING" None);
            ("old", column "DataTypes.STRING" None) ]
          text_name_and_mail))).
Proof.
  assert ("email" <> "mail") as H1 by discriminate.
  assert ("email" <> "") as H2 by discriminate.
  assert (Obj.inherited "mail" = false) as Hm by reflexivity.
  assert (List.NoDup (Obj.keys text_name_and_mail)) as H3 by distinct_keys.
  split; [exact H1|]. split; [exact H2|]. split; [exact Hm|].
  split; [exact H3|].
  destruct (rename_is_not_remove_and_add String.eqb "email" "mail" "users"
              (column "DataTypes.STRING" None)
              [ ("name", column "DataTypes.STRING" None);
                ("email", column "DataTypes.STRING" None);
                ("old", column "DataTypes.STRING" None) ]
              text_name_and_mail "mail" 4 "email" H1 H2 Hm H3)
    as [Hshape Hgeneral].
  split.
  - apply Hshape.
  - apply Hgeneral.
    + vm_compute. tauto.
    + reflexivity.
Defined.

Lemma removal_test_on_name_alone_witness :
  List.NoDup (Obj.keys text_name_and_mail)
  /\ ~ In "undefined" (Obj.keys text_name_and_mail)
  /\ diff_by_name String.eqb "users" text_name_and_mail users_three
     = diff String.eqb "users" text_name_and_mail users_three
  /\ (In "old" (col_remove (columns (classify String.eqb
         [ ("name", column "DataTypes.STRING" None);
           ("email", column "DataTypes.STRING" None);
           ("old", column "DataTypes.STRING" None) ]
         text_name_and_mail)))
      <-> In "old" (Obj.keys (metaDataByTableName (forward_pass String.eqb
            [ ("name", column "DataTypes.STRING" None);
              ("email", column "DataTypes.STRING" None);
              ("old", column "DataTypes.STRING" None) ]
            text_name_and_mail)))
          /\ ~ In "old" (Obj.keys text_name_and_mail)
          /\ Obj.inherited "old" = false).
Proof.
  assert (List.NoDup (Obj.keys text_name_and_mail)) as H1 by distinct_keys.
  assert (~ In "undefined" (Obj.keys text_name_and_mail)) as H2
    by (simpl; intuition discriminate).
  split; [exact H1|]. split; [exact H2|].
  destruct (removal_test_on_name_alone String.eqb "users" text_name_and_mail
              users_three
              [ ("name", column "DataTypes.STRING" None);
                ("email", column "DataTypes.STRING" None);
                ("old", column "DataTypes.STRING" None) ]
              "old" H1 H2) as (Hdiff & _ & Hiff).
  split; [exact Hdiff|exact Hiff].
Defined.

(** ** The extracted columns *)

Section extract_facts.
Context {Value : Type}.
Implicit Types (columns : object (@ColumnDefinition Value)).
Implicit Types (a : @Attribute Value).

Lemma attribute_step_writes columns name a :
  writes_column (name, a) = true ->
  attribute_step columns (name, a)
  = Obj.assign (attr_field a) (attributeColumn a) columns.
Proof.
  unfold writes_column, attribute_step. cbn [fst snd].
  intros H. apply andb_true_iff in H as [H1 H2]. by rewrite H1, H2.
Qed.

Lemma attribute_step_skips columns name a :
  writes_column (name, a) = false ->
  attribute_step columns (name, a) = columns.
Proof.
  unfold writes_column, attribute_step. cbn [fst snd].
  destruct (negb (existsb _ _)); [|done].
  by destruct (negb (String.eqb _ _)).
Qed.

(** Later turns that write under other names leave a column as it is. *)
Lemma attribute_steps_keep (post : object (@Attribute Value)) k :
  forall columns,
  (forall name a, In (name, a) post -> writes_column (name, a) = true ->
                  attr_field a <> k) ->
  Obj.get k (fold_left attribute_step post columns) = Obj.get k columns.
Proof.
  induction post as [|[name a] post IH]; intros columns Hpost;
    cbn [fold_left]; [done|].
  rewrite IH by (intros n b H; apply Hpost; by right).
  destruct (writes_column (name, a)) eqn:E.
  - rewrite (attribute_step_writes _ _ _ E).
    apply ObjFacts.get_assign_ne. apply (Hpost name a); [by left|done].
  - by rewrite (attribute_step_skips _ _ _ E).
Qed.

Lemma assign_base_other k k' columns :
  k <> k' -> Obj.get k' (assign_base k columns) = Obj.get k' columns.
Proof.
  intros Hne. unfold assign_base.
  destruct (Obj.get k baseColumns); [|done]. by apply ObjFacts.get_set_ne.
Qed.

Lemma attribute_steps_distinct (attrs : object (@Attribute Value)) :
  forall columns,
  List.NoDup (Obj.keys columns) ->
  List.NoDup (Obj.keys (fold_left attribute_step attrs columns)).
Proof.
  induction attrs as [|[name a] attrs IH]; intros columns Hnd;
    cbn [fold_left]; [done|].
  apply IH. destruct (writes_column (name, a)) eqn:E.
  - rewrite (attribute_step_writes _ _ _ E).
    by apply ObjFacts.NoDup_keys_assign.
  - by rewrite (attribute_step_skips _ _ _ E).
Qed.

Lemma assign_base_distinct k0 columns :
  List.NoDup (Obj.keys columns) ->
  List.NoDup (Obj.keys (assign_base k0 columns)).
Proof.
  intros H. unfold assign_base.
  destruct (Obj.get k0 baseColumns); [|done].
  by apply ObjFacts.NoDup_keys_set.
Qed.

Lemma getModelColumns_assembled (model : @Model Value) :
  getModelColumns model = Obj.enumerate (assembled model).
Proof. reflexivity. Qed.

Lemma assembled_distinct (model : @Model Value) :
  List.NoDup (Obj.keys (assembled model)).
Proof.
  destruct (paranoid model), (timestamps model),
    (Obj.has "id" (attributes model));
    repeat apply assign_base_distinct; apply attribute_steps_distinct;
    repeat apply assign_base_distinct; constructor.
Qed.

(** Looking a column up, the order of enumeration makes no difference. *)
Lemma getModelColumns_get (model : @Model Value) k :
  Obj.get k (getModelColumns model) = Obj.get k (assembled model).
Proof.
  rewrite getModelColumns_assembled.
  apply ObjFacts.get_enumerate, assembled_distinct.
Qed.

Lemma getModelColumns_In (model : @Model Value) e :
  In e (getModelColumns model) <-> In e (assembled model).
Proof. rewrite getModelColumns_assembled. apply ObjFacts.In_enumerate. Qed.

Lemma getModelColumns_distinct (model : @Model Value) :
  List.NoDup (Obj.keys (getModelColumns model)).
Proof.
  rewrite getModelColumns_assembled.
  apply ObjFacts.NoDup_keys_enumerate, assembled_distinct.
Qed.

(** C9, for an attribute whose column is not written again and whose
    physical name is not [__proto__]. Let an attribute be declared under a
    name that is not a base column's, with a type other than the virtual
    one and a physical name other than [__proto__], under which an
    assignment sets no property; let no later attribute that writes a
    column have the same physical name, and let the physical name not be
    that of a timestamp or soft-delete column the options switch on. Then
    the extracted columns hold, under the attribute's physical name, the
    column built from it, and that column has [allowNull = false] when the
    attribute declares [allowNull === false] and no [allowNull] field for
    any other declared value. *)
Theorem extracted_column_of_attribute (model : @Model Value)
    (before after : object (@Attribute Value)) name a :
  attributes model = (before ++ (name, a) :: after)%list ->
  ~ In name (Obj.keys (@baseColumns Value)) ->
  attr_type a <> "VIRTUAL" ->
  attr_field a <> "__proto__" ->
  (forall name' a', In (name', a') after ->
                    writes_column (name', a') = true ->
                    attr_field a' <> attr_field a) ->
  (timestamps model = true ->
   attr_field a <> "createdAt" /\ attr_field a <> "updatedAt") ->
  (paranoid model = true -> attr_field a <> "deletedAt") ->
  Obj.get (attr_field a) (getModelColumns model) = Some (attributeColumn a)
  /\ (attr_allowNull a = JsBool false ->
      allowNull (attributeColumn a) = Some false)
  /\ (attr_allowNull a <> JsBool false ->
      allowNull (attributeColumn a) = None).
Proof.
  intros Hattrs Hname Htype Hfield Hafter Hts Hpar. split; [|split].
  - assert (writes_column (name, a) = true) as Hw.
    { unfold writes_column. cbn [fst snd]. apply andb_true_iff. split.
      - apply negb_true_iff. apply not_true_is_false. intros H.
        apply existsb_exists in H as (k & Hk & E).
        apply String.eqb_eq in E. by subst.
      - apply negb_true_iff. by apply String.eqb_neq. }
    rewrite getModelColumns_get, Hattrs, fold_left_app. cbn [fold_left].
    rewrite (attribute_step_writes _ _ _ Hw).
    assert (forall columns,
      Obj.get (attr_field a)
        (if timestamps model
         then assign_base "updatedAt" (assign_base "createdAt" columns)
         else columns) = Obj.get (attr_field a) columns) as Hstamps.
    { intros columns. destruct (timestamps model); [|done].
      destruct (Hts eq_refl) as [H1 H2].
      rewrite !assign_base_other by congruence. done. }
    assert (forall columns,
      Obj.get (attr_field a)
        (if paranoid model then assign_base "deletedAt" columns else columns)
      = Obj.get (attr_field a) columns) as Hparanoid.
    { intros columns. destruct (paranoid model); [|done].
      rewrite assign_base_other; [done|]. specialize (Hpar eq_refl). congruence. }
    rewrite Hparanoid, Hstamps, (attribute_steps_keep _ _ _ Hafter).
    by apply ObjFacts.get_assign_eq.
  - intros E. unfold attributeColumn. cbn [allowNull]. by rewrite E.
  - intros E. unfold attributeColumn. cbn [allowNull].
    destruct (attr_allowNull a) as [| |[]| |]; done.
Qed.

End extract_facts.

(** C9 fails when the column is written again: of two attributes with the
    physical name [user_name] the later one decides, so the column carries
    [allowNull = false] although [login] declares [allowNull: true]; and
    with timestamps on, the column [createdAt] is the base column whatever
    the attribute [created] declares. It fails for the physical name
    [__proto__], under which no column is extracted. *)
Lemma later_writer_decides_allowNull :
  (option_map allowNull (Obj.get "user_name" (getModelColumns shared_field_model))
   = Some (Some false)
   /\ Obj.get "login" (attributes shared_field_model)
      = Some {| attr_type := "STRING"; attr_field := "user_name";
                attr_allowNull := JsBool true; attr_unique := None;
                attr_primaryKey := None; attr_prevColumnName := None;
                attr_defaultValue := None |})
  /\ (option_map allowNull (Obj.get "createdAt" (getModelColumns created_field_model))
      = Some (Some false)
      /\ option_map attr_allowNull
           (Obj.get "created" (attributes created_field_model))
         = Some JsUndefined)
  /\ (option_map attr_field (Obj.get "parent" (attributes proto_field_model))
      = Some "__proto__"
      /\ Obj.keys (getModelColumns proto_field_model) = ["name"]).
Proof. vm_compute. repeat split. Qed.

Lemma extracted_column_of_attribute_witness :
  ~ In "nick" (Obj.keys (@baseColumns string))
  /\ Obj.get "nick_name" (getModelColumns users_model)
     = Some {| type := "DataTypes.STRING"; allowNull := None;
               autoIncrement := None; unique := Some true;
               primaryKey := None; prevColumnName := None;
               defaultValue := Some "none" |}
  /\ Obj.get "name" (getModelColumns users_model)
     = Some {| type := "DataTypes.STRING"; allowNull := Some false;
               autoIncrement := None; unique := None;
               primaryKey := None; prevColumnName := None;
               defaultValue := None |}.
Proof.
  assert (~ In "nick" (Obj.keys (@baseColumns string))) as Hnick
    by (simpl; intuition discriminate).
  split; [exact Hnick|]. split.
  - refine (proj1 (extracted_column_of_attribute users_model
             [ ("id", _); ("name", _) ] [ ("fullName", _) ] "nick" _
             eq_refl Hnick _ _ _ _ _)).
    + discriminate.
    + discriminate.
    + intros name' a' [[= <- <-]|[]]. discriminate.
    + intros _. split; discriminate.
    + discriminate.
  - refine (proj1 (extracted_column_of_attribute users_model
             [ ("id", _) ] [ ("nick", _); ("fullName", _) ] "name" _
             eq_refl _ _ _ _ _ _)).
    + simpl. intuition discriminate.
    + discriminate.
    + discriminate.
    + intros name' a' [[= <- <-]|[[= <- <-]|[]]]; discriminate.
    + intros _. split; discriminate.
    + discriminate.
Defined.

(** ** The rewriting of type tags *)

Lemma get_substitution_plain matched before after template :
  has_dollar template = false ->
  get_substitution matched before after template = template.
Proof.
  induction template as [|a rest IH]; simpl; [done|].
  intros H. apply orb_false_iff in H as [Ha Hrest].
  rewrite Ha. by rewrite IH.
Qed.

Lemma replace_all_from_plain token plain s : forall before skip,
  has_dollar plain = false ->
  replace_all_from token plain before s skip = rewrite_from token plain s skip.
Proof.
  induction s as [|c s IH]; intros before skip Hplain; [done|].
  cbn [replace_all_from rewrite_from].
  destruct skip as [|k]; [|by apply IH].
  destruct (strip_prefix token (String c s)) as [after|].
  - by rewrite get_substitution_plain, IH.
  - by rewrite IH.
Qed.

Lemma has_dollar_unquoted token :
  has_dollar token = false -> has_dollar (unquoted token) = false.
Proof.
  induction token as [|c token IH]; simpl; [done|].
  intros H. apply orb_false_iff in H as [Hc Htoken].
  destruct (Ascii.eqb c quote); simpl; [auto|]. by rewrite Hc, IH.
Qed.

(** Removing the quotes with [replaceAll]. *)
Lemma replace_quotes_from token : forall before,
  replace_all_from (String quote EmptyString) EmptyString before token 0
  = unquoted token.
Proof.
  induction token as [|c token IH]; intros before; [done|].
  cbn [replace_all_from unquoted strip_prefix].
  rewrite (Ascii.eqb_sym quote c).
  destruct (Ascii.eqb c quote); cbn; by rewrite IH.
Qed.

Lemma replaceAll_quotes token :
  replaceAll token (String quote EmptyString) EmptyString = unquoted token.
Proof. apply replace_quotes_from. Qed.

Lemma match_at_not_empty s type len : match_at s = Some (type, len) -> type <> "".
Proof.
  unfold match_at. destruct (strip_prefix type_key s) as [s1|]; [|done].
  destruct (skip_white_space s1) as [[|n] s2]; [done|].
  destruct (strip_prefix type_head s2) as [s3|]; [|done].
  destruct (last_quote_in_line s3) as [[|i]|]; [done| |done].
  by intros [= <- _].
Qed.

Lemma matched_types_not_empty s : forall skip type,
  In type (matched_types_from s skip) -> type <> "".
Proof.
  induction s as [|c s IH]; intros skip type; [done|].
  cbn [matched_types_from]. destruct skip as [|k]; [|by apply IH].
  destruct (match_at (String c s)) as [[type' len]|] eqn:E; [|by apply IH].
  intros [<-|H]; [by apply (match_at_not_empty _ _ _ E)|by apply (IH _ _ H)].
Qed.

Lemma distinct_members types : forall seen type,
  In type (distinct seen types)
  <-> In type types /\ ~ In type seen.
Proof.
  induction types as [|t types IH]; intros seen type; simpl; [tauto|].
  destruct (existsb (String.eqb t) seen) eqn:E.
  - rewrite IH. apply existsb_exists in E as (t' & Hin & Heq).
    apply String.eqb_eq in Heq. subst t'. split; [tauto|].
    intros [[->|H] Hn]; tauto.
  - assert (~ In t seen) as Hnot.
    { intros H. apply not_true_iff_false in E. apply E.
      apply existsb_exists. exists t. split; [done|apply String.eqb_refl]. }
    simpl. rewrite IH. simpl. split.
    + intros [<-|[H Hn]]; [tauto|]. tauto.
    + intros [[->|H] Hn]; [by left|].
      destruct (String.eqb_spec t type) as [->|Hne]; [by left|]. right. tauto.
Qed.

Lemma distinct_NoDup types : forall seen, List.NoDup (distinct seen types).
Proof.
  induction types as [|t types IH]; intros seen; simpl; [constructor|].
  destruct (existsb (String.eqb t) seen); [apply IH|].
  constructor; [|apply IH]. rewrite distinct_members. simpl. tauto.
Qed.

(** Each distinct token is taken once, and where no token holds a dollar
    sign the source rewrites as the specification says: for every token in
    turn, each occurrence gives way to the token without its quotes, and the
    rest of the text stays. A text without a match comes back as it is. *)
Lemma formatMigrationContent_rewrites migrationContent :
  List.NoDup (formattedTypes migrationContent)
  /\ (forall type, In type (formattedTypes migrationContent)
                   <-> In type (matchedTypes migrationContent))
  /\ ((forall type, In type (matchedTypes migrationContent) ->
                    has_dollar type = false) ->
      formatMigrationContent migrationContent = rewriteTypes migrationContent)
  /\ (matchedTypes migrationContent = [] ->
      formatMigrationContent migrationContent = migrationContent).
Proof.
  unfold formattedTypes. split; [apply distinct_NoDup|]. split; [|split].
  - intros type. rewrite distinct_members. simpl. tauto.
  - intros Hplain. unfold formatMigrationContent, rewriteTypes, formattedTypes.
    assert (forall type, In type (distinct [] (matchedTypes migrationContent)) ->
                         has_dollar type = false /\ type <> "") as Htypes.
    { intros type H. apply distinct_members in H as [H _]. split; [auto|].
      by apply (matched_types_not_empty _ _ _ H). }
    revert Htypes. generalize (distinct [] (matchedTypes migrationContent)).
    intros types. generalize migrationContent.
    induction types as [|t types IH]; intros content Htypes; [done|].
    cbn [fold_left]. rewrite <- IH by (intros type H; apply Htypes; by right).
    destruct (Htypes t (or_introl eq_refl)) as [Hd Hne].
    f_equal. rewrite replaceAll_quotes. unfold replaceAll.
    destruct t as [|a t]; [done|].
    apply replace_all_from_plain. by apply has_dollar_unquoted.
  - intros Hnone. unfold formatMigrationContent, formattedTypes.
    by rewrite Hnone.
Qed.

(** C10, at a failing input. The type line of a column whose data type
    class is called by two dollar signs: the token is collected once, and
    [replaceAll] reads its unquoted form as a replacement pattern, in which
    two dollar signs stand for one, so the text does not get the unquoted
    form of the token. The type line of a [STRING] column is rewritten as
    specified. *)
Theorem dollar_type_is_not_unquoted :
  let line := type_line (attributeColumn dollar_attribute) in
  formattedTypes line = [quoted "DataTypes.$$"]
  /\ unquoted (quoted "DataTypes.$$") = "DataTypes.$$"
  /\ formatMigrationContent line = "  " +:+ quoted "type" +:+ ": DataTypes.$,"
  /\ rewriteTypes line = "  " +:+ quoted "type" +:+ ": DataTypes.$$,"
  /\ formatMigrationContent (type_line (attributeColumn string_attribute))
     = "  " +:+ quoted "type" +:+ ": DataTypes.STRING,".
Proof. vm_compute. repeat split. Qed.

(** ** The extracted columns as a whole *)

Section extract_more.
Context {Value : Type}.
Implicit Types (columns : object (@ColumnDefinition Value)).
Implicit Types (a : @Attribute Value).

Lemma attribute_steps_plain (attrs : object (@Attribute Value)) :
  forall columns,
  ~ In "__proto__" (Obj.keys columns) ->
  ~ In "__proto__" (Obj.keys (fold_left attribute_step attrs columns)).
Proof.
  induction attrs as [|[name a] attrs IH]; intros columns Hplain;
    cbn [fold_left]; [done|].
  apply IH. destruct (writes_column (name, a)) eqn:E.
  - rewrite (attribute_step_writes _ _ _ E). by apply ObjFacts.assign_plain.
  - by rewrite (attribute_step_skips _ _ _ E).
Qed.

Lemma attribute_steps_keys (attrs : object (@Attribute Value)) :
  forall columns k,
  ~ In "__proto__" (Obj.keys columns) ->
  In k (Obj.keys (fold_left attribute_step attrs columns))
  <-> In k (Obj.keys columns)
      \/ exists name a, In (name, a) attrs
                        /\ writes_column (name, a) = true
                        /\ attr_field a = k
                        /\ k <> "__proto__".
Proof.
  induction attrs as [|[name a] attrs IH]; intros columns k Hplain;
    cbn [fold_left].
  - split; [by left|]. intros [H|(n & b & [] & _)]. done.
  - destruct (writes_column (name, a)) eqn:E.
    + rewrite (attribute_step_writes _ _ _ E).
      rewrite IH by (by apply ObjFacts.assign_plain).
      rewrite (ObjFacts.keys_assign _ _ _ Hplain). split.
      * intros [[[-> Hne]|H]|(n & b & H & Hw & Hf)].
        -- right. exists name, a. split; [by left|done].
        -- by left.
        -- right. exists n, b. split; [by right|done].
      * intros [H|(n & b & [[= <- <-]|H] & Hw & Hf & Hne)].
        -- left. by right.
        -- left. left. split; [done|congruence].
        -- right. by exists n, b.
    + rewrite (attribute_step_skips _ _ _ E). rewrite IH by done. split.
      * intros [H|(n & b & H & Hw & Hf)]; [by left|].
        right. exists n, b. split; [by right|done].
      * intros [H|(n & b & [[= <- <-]|H] & Hw & Hf)]; [by left|congruence|].
        right. by exists n, b.
Qed.

Lemma attribute_steps_entries (attrs : object (@Attribute Value)) :
  forall columns k d,
  In (k, d) (fold_left attribute_step attrs columns) ->
  In (k, d) columns
  \/ exists name a, In (name, a) attrs
                    /\ writes_column (name, a) = true
                    /\ k = attr_field a /\ d = attributeColumn a.
Proof.
  induction attrs as [|[name a] attrs IH]; intros columns k d;
    cbn [fold_left]; [by left|].
  intros H. apply IH in H as [H|(n & b & H & Hw)].
  - destruct (writes_column (name, a)) eqn:E.
    + rewrite (attribute_step_writes _ _ _ E) in H.
      apply ObjFacts.In_assign in H as [[-> ->]|H]; [|by left].
      right. exists name, a. split; [by left|done].
    + rewrite (attribute_step_skips _ _ _ E) in H. by left.
  - right. exists n, b. split; [by right|done].
Qed.

Lemma assign_base_keys k0 d0 columns k :
  Obj.get k0 (@baseColumns Value) = Some d0 ->
  In k (Obj.keys (assign_base k0 columns)) <-> k = k0 \/ In k (Obj.keys columns).
Proof.
  intros H. unfold assign_base. rewrite H. apply ObjFacts.keys_set.
Qed.

Lemma assign_base_entries k0 columns k d :
  In (k, d) (assign_base k0 columns) ->
  In (k, d) (@baseColumns Value) \/ In (k, d) columns.
Proof.
  unfold assign_base. destruct (Obj.get k0 baseColumns) as [d0|] eqn:E;
    [|by right].
  intros H. apply ObjFacts.In_set in H as [[-> ->]|H]; [|by right].
  left. by apply ObjFacts.get_In.
Qed.

Lemma assign_base_same k0 columns :
  Obj.get k0 (assign_base k0 columns) = Obj.get k0 (@baseColumns Value)
  \/ Obj.get k0 (@baseColumns Value) = None.
Proof.
  unfold assign_base. destruct (Obj.get k0 baseColumns) as [d0|] eqn:E;
    [left|by right].
  apply ObjFacts.get_set_eq.
Qed.

(** X1. The extracted columns have distinct names, and a name is among
    them exactly when it is [id] and the model has an [id] attribute, or a
    timestamp name and timestamps are on, or [deletedAt] and the model is
    paranoid, or the physical name, other than [__proto__], of an attribute
    that is neither named like a base column nor virtual. *)
Theorem extracted_names (model : @Model Value) k :
  List.NoDup (Obj.keys (getModelColumns model))
  /\ (In k (Obj.keys (getModelColumns model))
      <-> (k = "id" /\ Obj.has "id" (attributes model) = true)
          \/ ((k = "createdAt" \/ k = "updatedAt") /\ timestamps model = true)
          \/ (k = "deletedAt" /\ paranoid model = true)
          \/ exists name a, In (name, a) (attributes model)
                            /\ writes_column (name, a) = true
                            /\ attr_field a = k
                            /\ k <> "__proto__").
Proof.
  split; [apply getModelColumns_distinct|].
  rewrite getModelColumns_assembled, ObjFacts.keys_enumerate.
  assert (forall columns,
    In k (Obj.keys (if paranoid model then assign_base "deletedAt" columns
                    else columns))
    <-> (k = "deletedAt" /\ paranoid model = true) \/ In k (Obj.keys columns))
    as Hpar.
  { intros columns. destruct (paranoid model).
    - rewrite (assign_base_keys "deletedAt" _ columns k eq_refl). tauto.
    - split; [by right|]. intros [[_ ?]|?]; done. }
  assert (forall columns,
    In k (Obj.keys (if timestamps model
                    then assign_base "updatedAt"
                           (assign_base "createdAt" columns)
                    else columns))
    <-> ((k = "createdAt" \/ k = "updatedAt") /\ timestamps model = true)
        \/ In k (Obj.keys columns)) as Hts.
  { intros columns. destruct (timestamps model).
    - rewrite (assign_base_keys "updatedAt" _ _ k eq_refl),
        (assign_base_keys "createdAt" _ _ k eq_refl). tauto.
    - split; [by right|]. intros [[_ ?]|?]; done. }
  assert (In k (Obj.keys (if Obj.has "id" (attributes model)
                          then assign_base "id" []
                          else ([] : object (@ColumnDefinition Value))))
          <-> k = "id" /\ Obj.has "id" (attributes model) = true) as Hid.
  { destruct (Obj.has "id" (attributes model)).
    - rewrite (assign_base_keys "id" _ _ k eq_refl). simpl. tauto.
    - simpl. split; [done|]. by intros [_ ?]. }
  assert (~ In "__proto__"
            (Obj.keys (if Obj.has "id" (attributes model)
                       then assign_base "id" []
                       else ([] : object (@ColumnDefinition Value)))))
    as Hplain.
  { destruct (Obj.has "id" (attributes model)); simpl; [|tauto].
    intros [?|[]]. done. }
  rewrite Hpar, Hts, (attribute_steps_keys _ _ _ Hplain), Hid. tauto.
Qed.

(** X2. Every extracted definition is a base column's or the object
    built from an attribute that is neither named like a base column nor
    virtual, stored under that attribute's physical name. *)
Theorem extracted_definitions (model : @Model Value) k d :
  In (k, d) (getModelColumns model) ->
  In (k, d) (@baseColumns Value)
  \/ exists name a, In (name, a) (attributes model)
                    /\ writes_column (name, a) = true
                    /\ k = attr_field a /\ d = attributeColumn a.
Proof.
  intros H. apply getModelColumns_In in H.
  assert (In (k, d) baseColumns
          \/ In (k, d) (fold_left attribute_step (attributes model)
                          (if Obj.has "id" (attributes model)
                           then assign_base "id" [] else []))) as [H1|H1].
  { destruct (paranoid model), (timestamps model);
      repeat (apply assign_base_entries in H as [H|H]; [by left|]);
      by right. }
  - by left.
  - apply attribute_steps_entries in H1 as [H1|H1]; [|by right].
    left. destruct (Obj.has "id" (attributes model)); [|done].
    by apply assign_base_entries in H1 as [H1|[]].
Qed.

(** X3. The implicit columns are the base columns whatever the attributes
    declare: [createdAt] and [updatedAt] when timestamps are on,
    [deletedAt] when the model is paranoid, and [id] when the model has an
    [id] attribute and no attribute that writes a column has the physical
    name [id]. *)
Theorem implicit_columns_fixed (model : @Model Value) :
  (timestamps model = true ->
   Obj.get "createdAt" (getModelColumns model)
   = Obj.get "createdAt" baseColumns
   /\ Obj.get "updatedAt" (getModelColumns model)
      = Obj.get "updatedAt" baseColumns)
  /\ (paranoid model = true ->
      Obj.get "deletedAt" (getModelColumns model)
      = Obj.get "deletedAt" baseColumns)
  /\ (Obj.has "id" (attributes model) = true ->
      (forall name a, In (name, a) (attributes model) ->
                      writes_column (name, a) = true ->
                      attr_field a <> "id") ->
      Obj.get "id" (getModelColumns model) = Obj.get "id" baseColumns).
Proof.
  rewrite !getModelColumns_get. split; [|split].
  - intros ->. destruct (paranoid model).
    + rewrite !(assign_base_other "deletedAt") by discriminate.
      rewrite (assign_base_other "updatedAt" "createdAt") by discriminate.
      split; [by destruct (assign_base_same "createdAt"
                             (fold_left attribute_step (attributes model)
                                (if Obj.has "id" (attributes model)
                                 then assign_base "id" [] else [])))|].
      by destruct (assign_base_same "updatedAt"
                     (assign_base "createdAt"
                        (fold_left attribute_step (attributes model)
                           (if Obj.has "id" (attributes model)
                            then assign_base "id" [] else [])))).
    + rewrite (assign_base_other "updatedAt" "createdAt") by discriminate.
      split; [by destruct (assign_base_same "createdAt"
                             (fold_left attribute_step (attributes model)
                                (if Obj.has "id" (attributes model)
                                 then assign_base "id" [] else [])))|].
      by destruct (assign_base_same "updatedAt"
                     (assign_base "createdAt"
                        (fold_left attribute_step (attributes model)
                           (if Obj.has "id" (attributes model)
                            then assign_base "id" [] else [])))).
  - intros ->.
    by destruct (assign_base_same "deletedAt"
                   (if timestamps model
                    then assign_base "updatedAt"
                           (assign_base "createdAt"
                              (fold_left attribute_step (attributes model)
                                 (if Obj.has "id" (attributes model)
                                  then assign_base "id" [] else [])))
                    else fold_left attribute_step (attributes model)
                           (if Obj.has "id" (attributes model)
                            then assign_base "id" [] else []))).
  - intros -> Hfields.
    assert (forall columns,
      Obj.get "id" (if paranoid model then assign_base "deletedAt" columns
                    else columns) = Obj.get "id" columns) as Hpar.
    { intros columns. destruct (paranoid model); [|done].
      by apply assign_base_other. }
    assert (forall columns,
      Obj.get "id" (if timestamps model
                    then assign_base "updatedAt"
                           (assign_base "createdAt" columns)
                    else columns) = Obj.get "id" columns) as Hts.
    { intros columns. destruct (timestamps model); [|done].
      by rewrite !assign_base_other. }
    rewrite Hpar, Hts, (attribute_steps_keep _ _ _ Hfields).
    by destruct (assign_base_same "id" ([] : object (@ColumnDefinition Value))).
Qed.

End extract_more.

(** ** The shape of the descriptors *)

Section descriptors_more.
Context {Value : Type}.
Variable value_equal : Value -> Value -> bool.
Implicit Types (modelColumns metaColumns : object (@ColumnDefinition Value)).
Implicit Types (metaData : object (object (@ColumnDefinition Value))).
Implicit Types (m : @Migration Value).

Lemma Forall2_maps {A B C} (R : B -> C -> Prop) (f : A -> B) (g : A -> C) l :
  (forall x, R (f x) (g x)) -> Forall2 R (map f l) (map g l).
Proof. intros H. induction l; simpl; constructor; auto. Qed.

Lemma label_for_kind singular plural rank (names : list string) :
  label_kind singular = Some (rank, false) ->
  label_kind plural = Some (rank, true) ->
  label_kind (label_for singular plural names)
  = Some (rank, Nat.ltb 1 (length names)).
Proof.
  intros Hs Hp. unfold label_for. by destruct (Nat.ltb 1 (length names)).
Qed.

Lemma migration_new_kind table (st : @State Value) :
  migration_new table st = []
  \/ exists m, migration_new table st = [m] /\ of_kind 1 table m.
Proof.
  unfold migration_new.
  destruct (Obj.keys (col_new (columns st))) as [|c cs] eqn:E; [by left|].
  right. eexists. split; [done|]. unfold of_kind. cbn [up down label].
  rewrite !length_map. split; [done|]. split; [done|]. split.
  - by apply label_for_kind.
  - by apply Forall2_maps.
Qed.

Lemma migration_change_kind table (freeze : object (@ColumnObject Value))
    (st : @State Value) :
  migration_change table freeze st = []
  \/ exists m, migration_change table freeze st = [m] /\ of_kind 2 table m.
Proof.
  unfold migration_change.
  destruct (Obj.keys (col_change (columns st))) as [|c cs] eqn:E; [by left|].
  right. eexists. split; [done|]. unfold of_kind. cbn [up down label].
  rewrite !length_map. split; [done|]. split; [done|]. split.
  - by apply label_for_kind.
  - by apply Forall2_maps.
Qed.

Lemma migration_rename_kind table (mc : object loc)
    (freeze : object (@ColumnObject Value)) (st : @State Value) :
  migration_rename table mc freeze st = []
  \/ exists m, migration_rename table mc freeze st = [m] /\ of_kind 3 table m.
Proof.
  unfold migration_rename.
  destruct (Obj.keys (col_rename (columns st))) as [|c cs] eqn:E; [by left|].
  right. eexists. split; [done|]. unfold of_kind. cbn [up down label].
  rewrite !length_map. split; [done|]. split; [done|]. split.
  - by apply label_for_kind.
  - by apply Forall2_maps.
Qed.

Lemma migration_remove_kind table (freeze : object (@ColumnObject Value))
    (st : @State Value) :
  migration_remove table freeze st = []
  \/ exists m, migration_remove table freeze st = [m] /\ of_kind 4 table m.
Proof.
  unfold migration_remove.
  destruct (col_remove (columns st)) as [|c cs] eqn:E; [by left|].
  right. eexists. split; [done|]. unfold of_kind. cbn [up down label].
  rewrite !length_map. split; [done|]. split; [done|]. split.
  - by apply label_for_kind.
  - by apply Forall2_maps.
Qed.

(** X4. Whatever a run returns: the descriptors come in the order new,
    change, rename, remove with at most one of each kind; a descriptor
    labelled [initial] is the only one returned; none is empty; [up] and
    [down] have as many operations, each operation of [down] undoing the
    one of [up] at its place on the same table and column; and the label is
    the plural form exactly when the descriptor has more than one
    operation. *)
Theorem descriptors_shape table modelColumns metaData migrations :
  fst (diff value_equal table modelColumns metaData) = inr migrations ->
  (exists ranks,
     map (fun m => option_map fst (label_kind (label m))) migrations
     = map Some ranks
     /\ StronglySorted lt ranks)
  /\ (forall m, In m migrations -> label m = "initial" -> migrations = [m])
  /\ forall m, In m migrations ->
       up m <> []
       /\ length (up m) = length (down m)
       /\ option_map snd (label_kind (label m))
          = Some (Nat.ltb 1 (length (up m)))
       /\ Forall2 (mirrors table) (up m) (down m).
Proof.
  unfold diff, diff_with.
  destruct (Obj.get table metaData) as [metaColumns|].
  - destruct (equal value_equal metaColumns modelColumns); [done|].
    cbn [fst]. intros [= <-]. unfold migrations_of.
    destruct (migration_new_kind table
                (classify_with value_equal is_removed metaColumns modelColumns))
      as [->|(m1 & -> & H1 & H1' & H1'' & H1''')];
    destruct (migration_change_kind table
                (map (fun e => (fst e, parsed (snd e))) metaColumns)
                (classify_with value_equal is_removed metaColumns modelColumns))
      as [->|(m2 & -> & H2 & H2' & H2'' & H2''')];
    destruct (migration_rename_kind table
                (model_locations metaColumns modelColumns)
                (map (fun e => (fst e, parsed (snd e))) metaColumns)
                (classify_with value_equal is_removed metaColumns modelColumns))
      as [->|(m3 & -> & H3 & H3' & H3'' & H3''')];
    destruct (migration_remove_kind table
                (map (fun e => (fst e, parsed (snd e))) metaColumns)
                (classify_with value_equal is_removed metaColumns modelColumns))
      as [->|(m4 & -> & H4 & H4' & H4'' & H4''')];
    cbn [app map];
    (split; [|split];
     [ rewrite ?H1'', ?H2'', ?H3'', ?H4''; cbn [option_map fst snd];
       match goal with
       | |- exists ranks, ?l = _ /\ _ => exists (omap id l)
       end; split; [reflexivity|];
       cbn; repeat (constructor; try lia)
     | intros m Hm Hl; exfalso; cbn [In] in Hm;
       repeat (destruct Hm as [<-|Hm];
               [first [ rewrite Hl in H1''; by vm_compute in H1''
                      | rewrite Hl in H2''; by vm_compute in H2''
                      | rewrite Hl in H3''; by vm_compute in H3''
                      | rewrite Hl in H4''; by vm_compute in H4'' ]|]);
       done
     | intros m Hm; cbn [In] in Hm;
       repeat (destruct Hm as [<-|Hm];
               [rewrite ?H1'', ?H2'', ?H3'', ?H4''; done|]);
       done ]).
  - destruct (String.eqb table "__proto__"); [cbn [fst]; by intros [=]|].
    destruct (Obj.inherited table); [cbn [fst]; by intros [=]|].
    cbn [fst]. intros [= <-]. split; [|split].
    + exists [0]. split; [done|]. repeat constructor.
    + by intros m [<-|[]] _.
    + intros m [<-|[]]. cbn. repeat split; try done.
      repeat constructor; done.
Qed.


End descriptors_more.

(** ** Payloads, marks and buckets *)

Section classification_more.
Context {Value : Type}.
Variable value_equal : Value -> Value -> bool.
Variables metaColumns modelColumns : object (@ColumnDefinition Value).
Hypothesis model_keys : List.NoDup (Obj.keys modelColumns).

Local Abbreviation store0 := (heap (initial_state metaColumns modelColumns)).
Local Abbreviation meta0 := (locations 0 metaColumns).
Local Abbreviation mc := (model_locations metaColumns modelColumns).
Local Abbreviation inv := (forward_inv value_equal metaColumns modelColumns).
Local Abbreviation fwd :=
  (forward_pass value_equal metaColumns modelColumns).
Local Abbreviation final := (classify value_equal metaColumns modelColumns).

Local Ltac fields :=
  cbn [heap metaDataByTableName columns col_new col_change col_rename
       col_remove with_heap].

(** The store after a turn of the first loop: the object found under the
    column's name is marked, nothing else is touched. *)
Lemma forward_step_heap (st : @State Value) name x :
  heap (forward_step value_equal st (name, x))
  = match Obj.get name (metaDataByTableName st) with
    | Some z => alter (set_nextColumnName (Some name)) z (heap st)
    | None => heap st
    end.
Proof.
  unfold forward_step.
  destruct (Obj.get name (metaDataByTableName st)) as [z|].
  - by destruct (negb (equal_at value_equal (heap st) z x)).
  - destruct (Obj.inherited name); [done|].
    destruct (truthy (prevColumnName_at (heap st) x)) as [prev|]; [|done].
    by destruct (Obj.present prev (metaDataByTableName st)
                 && negb (String.eqb name prev)).
Qed.

(** The buckets after a turn of the first loop: at most one of them gains
    the column. *)
Lemma forward_step_columns (st : @State Value) name x :
  let st' := forward_step value_equal st (name, x) in
  columns st' = columns st
  \/ columns st'
     = {| col_new := Obj.set name x (col_new (columns st));
          col_change := col_change (columns st);
          col_rename := col_rename (columns st);
          col_remove := col_remove (columns st) |}
  \/ columns st'
     = {| col_new := col_new (columns st);
          col_change := Obj.set name x (col_change (columns st));
          col_rename := col_rename (columns st);
          col_remove := col_remove (columns st) |}
  \/ columns st'
     = {| col_new := col_new (columns st);
          col_change := col_change (columns st);
          col_rename := Obj.set name x (col_rename (columns st));
          col_remove := col_remove (columns st) |}.
Proof.
  unfold forward_step.
  destruct (Obj.get name (metaDataByTableName st)) as [z|].
  - destruct (negb (equal_at value_equal (heap st) z x)); fields; auto.
  - destruct (Obj.inherited name); [fields; auto|].
    destruct (truthy (prevColumnName_at (heap st) x)) as [prev|]; [|auto].
    destruct (Obj.present prev (metaDataByTableName st)
              && negb (String.eqb name prev)); fields; auto.
Qed.

Lemma forward_step_keys (st : @State Value) e :
  List.NoDup (Obj.keys (metaDataByTableName st)) ->
  List.NoDup (Obj.keys (metaDataByTableName (forward_step value_equal st e))).
Proof.
  intros H. destruct e as [name x]. unfold forward_step.
  destruct (Obj.get name (metaDataByTableName st)) as [z|].
  - destruct (negb (equal_at value_equal (heap st) z x)); fields; [|done].
    by apply ObjFacts.NoDup_keys_set.
  - destruct (Obj.inherited name); fields;
      [by apply ObjFacts.NoDup_keys_set|].
    destruct (truthy (prevColumnName_at (heap st) x)) as [prev|].
    + destruct (Obj.present prev (metaDataByTableName st)
                && negb (String.eqb name prev)); fields; [|done].
      by apply ObjFacts.NoDup_keys_set, ObjFacts.NoDup_keys_del.
    + by apply ObjFacts.NoDup_keys_set.
Qed.

Lemma forward_fold_keys todo : forall st : @State Value,
  List.NoDup (Obj.keys (metaDataByTableName st)) ->
  List.NoDup (Obj.keys (metaDataByTableName
                          (fold_left (forward_step value_equal) todo st))).
Proof.
  induction todo as [|e todo IH]; intros st H; simpl; [done|].
  by apply IH, forward_step_keys.
Qed.

Local Abbreviation apart st :=
  (List.NoDup (Obj.keys (col_new (columns st)))
   /\ List.NoDup (Obj.keys (col_change (columns st)))
   /\ List.NoDup (Obj.keys (col_rename (columns st)))
   /\ forall k,
        (In k (Obj.keys (col_new (columns st))) ->
         ~ In k (Obj.keys (col_change (columns st)))
         /\ ~ In k (Obj.keys (col_rename (columns st))))
        /\ (In k (Obj.keys (col_change (columns st))) ->
            ~ In k (Obj.keys (col_rename (columns st))))).

Lemma apart_step done name x todo (st : @State Value) :
  inv done ((name, x) :: todo) st ->
  apart st -> apart (forward_step value_equal st (name, x)).
Proof.
  intros Hinv (Hn & Hc & Hr & Hd).
  destruct (split_facts _ _ model_keys _ _ _ _ (fwd_split _ _ _ _ _ _ Hinv))
    as (_ & _ & Hfresh & _ & _).
  assert (~ In name (Obj.keys (col_new (columns st)))) as Fn.
  { intros H. apply in_keys in H as [y H]. apply Hfresh, in_keys.
    exists y. by apply (fwd_new _ _ _ _ _ _ Hinv). }
  assert (~ In name (Obj.keys (col_change (columns st)))) as Fc.
  { intros H. apply in_keys in H as [y H]. apply Hfresh, in_keys.
    exists y. by apply (fwd_change _ _ _ _ _ _ Hinv). }
  assert (~ In name (Obj.keys (col_rename (columns st)))) as Fr.
  { intros H. apply in_keys in H as [y H]. apply Hfresh, in_keys.
    exists y. by apply (fwd_rename _ _ _ _ _ _ Hinv). }
  destruct (forward_step_columns st name x) as [-> | [-> | [-> | ->]]]; fields.
  - done.
  - split; [by apply ObjFacts.NoDup_keys_set|]. split; [done|].
    split; [done|]. intros k. rewrite ObjFacts.keys_set.
    destruct (Hd k) as [H1 H2]. split; [|done].
    intros [->|H]; [done|auto].
  - split; [done|]. split; [by apply ObjFacts.NoDup_keys_set|].
    split; [done|]. intros k. rewrite ObjFacts.keys_set.
    destruct (Hd k) as [H1 H2]. split.
    + intros H. split; [|by apply H1]. intros [->|H']; [done|].
      by apply (proj1 (H1 H)).
    + intros [->|H]; [done|auto].
  - split; [done|]. split; [done|].
    split; [by apply ObjFacts.NoDup_keys_set|].
    intros k. rewrite ObjFacts.keys_set.
    destruct (Hd k) as [H1 H2]. split.
    + intros H. split; [by apply H1|]. intros [->|H']; [done|].
      by apply (proj2 (H1 H)).
    + intros H [->|H']; [done|]. by apply (H2 H).
Qed.

Lemma apart_fold todo : forall seen (st : @State Value),
  inv seen todo st ->
  apart st -> apart (fold_left (forward_step value_equal) todo st).
Proof.
  induction todo as [|[name x] todo IH]; intros seen st Hinv H; [exact H|].
  cbn [fold_left]. apply (IH (seen ++ [(name, x)])%list).
  - by apply forward_inv_step.
  - by apply (apart_step seen name x todo).
Qed.

Lemma apart_fwd : apart fwd.
Proof.
  apply (apart_fold mc [] _ (forward_inv_init _ _ _)).
  cbn. repeat split; try constructor; done.
Qed.

(** The second loop files a stored name at most once. *)
Lemma removal_fold_removed test todo : forall st : @State Value,
  List.NoDup (col_remove (columns st) ++ Obj.keys todo) ->
  List.NoDup (col_remove (columns (fold_left (removal_step_with test) todo st))).
Proof.
  induction todo as [|[k x] todo IH]; intros st H; cbn [fold_left].
  - cbn in H. by rewrite app_nil_r in H.
  - apply IH. unfold removal_step_with.
    destruct (test (heap st) k x); fields.
    + by rewrite <- app_assoc.
    + cbn in H. by apply List.NoDup_remove_1 in H.
Qed.

Local Abbreviation Hfwd :=
  (forward_pass_inv value_equal metaColumns modelColumns model_keys).
Local Abbreviation Hcls :=
  (classify_inv value_equal metaColumns modelColumns model_keys).

(** The first loop marks stored objects only: an object of the model, which
    a turn may put into the table, is never marked. *)
Lemma unmarked_step seen name x todo (st : @State Value) :
  inv seen ((name, x) :: todo) st ->
  (forall y, length metaColumns <= y -> nextColumnName_at (heap st) y = None) ->
  forall y, length metaColumns <= y ->
    nextColumnName_at (heap (forward_step value_equal st (name, x))) y = None.
Proof.
  intros Hinv H y Hy. rewrite forward_step_heap.
  destruct (Obj.get name (metaDataByTableName st)) as [z|] eqn:Hcur; [|auto].
  destruct (split_facts _ _ model_keys _ _ _ _ (fwd_split _ _ _ _ _ _ Hinv))
    as (_ & _ & Hfresh & _ & _).
  apply ObjFacts.get_In in Hcur.
  destruct (fwd_origin _ _ _ _ _ _ Hinv name z Hcur) as [H0|Hd].
  - apply LocFacts.locations_bounds in H0.
    rewrite next_alter_ne; [auto|lia].
  - exfalso. apply Hfresh, in_keys. by exists z.
Qed.

Lemma unmarked_fold todo : forall seen (st : @State Value),
  inv seen todo st ->
  (forall y, length metaColumns <= y -> nextColumnName_at (heap st) y = None) ->
  forall y, length metaColumns <= y ->
    nextColumnName_at (heap (fold_left (forward_step value_equal) todo st)) y
    = None.
Proof.
  induction todo as [|[name x] todo IH]; intros seen st Hinv H; [exact H|].
  cbn [fold_left]. apply (IH (seen ++ [(name, x)])%list).
  - by apply forward_inv_step.
  - by apply (unmarked_step seen name x todo).
Qed.

Lemma removal_keeps_unmarked test todo : forall (st : @State Value) y,
  nextColumnName_at (heap st) y = None ->
  nextColumnName_at (heap (fold_left (removal_step_with test) todo st)) y
  = None.
Proof.
  induction todo as [|[k x] todo IH]; intros st y H; [exact H|].
  cbn [fold_left]. apply IH. unfold removal_step_with.
  destruct (test (heap st) k x); fields;
    by destruct (next_alter_clear (heap st) x y) as [E|[_ ->]].
Qed.

(** What the store holds for a column of the model when both loops are
    through: its definition as parsed. *)
Lemma model_stored_final k x :
  In (k, x) mc ->
  exists d, Obj.get k modelColumns = Some d
            /\ heap final !! x = Some (parsed d).
Proof.
  intros H. destruct (mc_stored _ _ _ _ H) as (d & Hd & Hs).
  exists d. split; [by apply LocFacts.In_get|].
  rewrite <- Hs. apply same_options_unmarked.
  - apply (rem_options _ _ _ _ _ Hcls).
  - apply removal_keeps_unmarked.
    apply (unmarked_fold mc [] _ (forward_inv_init _ _ _)).
    + intros y _. apply store0_unmarked.
    + apply LocFacts.locations_bounds in H. lia.
  - apply store0_unmarked.
Qed.

(** The up-operations a run can emit, by bucket. *)
Lemma up_operations table (freeze : object (@ColumnObject Value))
    (st : @State Value) m op :
  In m (migrations_of table mc freeze st) ->
  In op (up m) ->
  (exists c, In c (Obj.keys (col_new (columns st)))
             /\ op = addColumn table c
                       (payload_at (heap st) (col_new (columns st)) c))
  \/ (exists c, In c (Obj.keys (col_change (columns st)))
                /\ op = changeColumn table c
                          (payload_at (heap st) (col_change (columns st)) c))
  \/ (exists c, In c (Obj.keys (col_rename (columns st)))
                /\ op = renameColumn table (previous_name mc st c) c
                          (payload_at (heap st) (col_rename (columns st)) c))
  \/ (exists c, In c (col_remove (columns st))
                /\ op = removeColumn table c).
Proof.
  unfold migrations_of. rewrite !in_app_iff.
  intros [H|[H|[H|H]]] Hop.
  - left. unfold migration_new in H.
    destruct (Obj.keys (col_new (columns st))) as [|c0 cs]; [done|].
    destruct H as [<-|[]]. cbn [up] in Hop.
    apply in_map_iff in Hop as (c & <- & Hc). eauto.
  - right. left. unfold migration_change in H.
    destruct (Obj.keys (col_change (columns st))) as [|c0 cs]; [done|].
    destruct H as [<-|[]]. cbn [up] in Hop.
    apply in_map_iff in Hop as (c & <- & Hc). eauto.
  - right. right. left. unfold migration_rename in H.
    destruct (Obj.keys (col_rename (columns st))) as [|c0 cs]; [done|].
    destruct H as [<-|[]]. cbn [up] in Hop.
    apply in_map_iff in Hop as (c & <- & Hc). eauto.
  - right. right. right. unfold migration_remove in H.
    destruct (col_remove (columns st)) as [|c0 cs]; [done|].
    destruct H as [<-|[]]. cbn [up] in Hop.
    apply in_map_iff in Hop as (c & <- & Hc). eauto.
Qed.

(** What a bucket of the first loop holds when both loops are through. *)
Lemma bucket_payload (bucket : object loc) c :
  (forall k x, In (k, x) bucket -> In (k, x) mc) ->
  In c (Obj.keys bucket) ->
  exists x d, In (c, x) bucket
              /\ Obj.get c mc = Some x
              /\ Obj.get c modelColumns = Some d
              /\ heap final !! x = Some (parsed d)
              /\ payload_at (heap final) bucket c = Some (parsed d).
Proof.
  intros Hsub Hc. apply ObjFacts.has_true in Hc. unfold Obj.has in Hc.
  destruct (Obj.get c bucket) as [x|] eqn:Hg; [|done].
  pose proof (ObjFacts.get_In _ _ _ Hg) as Hin.
  destruct (model_stored_final c x (Hsub c x Hin)) as (d & Hd & Hs).
  exists x, d. split; [done|]. split.
  - apply LocFacts.In_get; [by rewrite mc_keys|by apply Hsub].
  - split; [done|]. split; [done|]. unfold payload_at. by rewrite Hg.
Qed.

(** X6. What the operations of [up] carry. An added, changed or renamed
    column comes with the model's definition of that column and nothing
    else, no mark of the first loop; a rename starts from the previous name
    this definition gives; a removed column is a column of the snapshot that
    the model does not have; and no table is created. *)
Theorem up_reads_both_tables table metaData migrations m op :
  Obj.get table metaData = Some metaColumns ->
  fst (diff value_equal table modelColumns metaData) = inr migrations ->
  In m migrations -> In op (up m) ->
  up_reads metaColumns modelColumns op.
Proof.
  intros Hg Hd Hm Hop. unfold diff, diff_with in Hd. rewrite Hg in Hd.
  destruct (equal value_equal metaColumns modelColumns); [done|].
  cbn [fst] in Hd. injection Hd as <-.
  fold (classify value_equal metaColumns modelColumns) in Hm.
  destruct (up_operations _ _ _ _ _ Hm Hop)
    as [(c & Hc & ->)|[(c & Hc & ->)|[(c & Hc & ->)|(c & Hc & ->)]]];
    cbn [up_reads].
  - destruct (bucket_payload (col_new (columns final)) c)
      as (x & d & _ & _ & Hd & _ & Hp); [|done|by exists d].
    rewrite (rem_new _ _ _ _ _ Hcls). apply (fwd_new _ _ _ _ _ _ Hfwd).
  - destruct (bucket_payload (col_change (columns final)) c)
      as (x & d & _ & _ & Hd & _ & Hp); [|done|by exists d].
    rewrite (rem_change _ _ _ _ _ Hcls). intros k x H.
    by destruct (fwd_change _ _ _ _ _ _ Hfwd k x H).
  - destruct (bucket_payload (col_rename (columns final)) c)
      as (x & d & Hin & Hx & Hd & Hs & Hp); [|done|].
    { rewrite (rem_rename _ _ _ _ _ Hcls). intros k x H.
      by destruct (fwd_rename _ _ _ _ _ _ Hfwd k x H). }
    exists d. split; [done|]. split; [done|].
    rewrite (rem_rename _ _ _ _ _ Hcls) in Hin.
    destruct (fwd_rename _ _ _ _ _ _ Hfwd c x Hin)
      as (Hmc & prev & Hprev & _).
    destruct (mc_stored _ _ _ _ Hmc) as (d0 & Hd0 & Hs0).
    assert (d0 = d) as ->.
    { apply (LocFacts.In_get _ _ _ model_keys) in Hd0. congruence. }
    unfold prevColumnName_at in Hprev. rewrite Hs0 in Hprev.
    cbn [options parsed] in Hprev.
    unfold previous_name, prevColumnName_at. rewrite Hx, Hs.
    cbn [options parsed]. rewrite Hprev. f_equal.
    unfold truthy in Hprev. destruct (prevColumnName d) as [s|]; [|done].
    destruct (String.eqb s ""); [done|]. by injection Hprev as ->.
  - destruct (rem_removed _ _ _ _ _ Hcls c Hc) as (Hin & Hnot & _). split.
    + apply ObjFacts.has_true. apply in_keys in Hin as [x Hx].
      destruct (fwd_origin _ _ _ _ _ _ Hfwd c x Hx) as [H0|H1].
      * rewrite <- (LocFacts.locations_keys 0). apply in_keys. by exists x.
      * exfalso. apply Hnot. rewrite <- (mc_keys metaColumns).
        apply in_keys. by exists x.
    + by apply ObjFacts.has_false.
Qed.

(** X7. What is written back for the table carries no mark of the first
    loop: the objects the table refers to after both loops are their
    definitions as parsed. *)
Theorem stored_objects_unmarked :
  read (heap final) (metaDataByTableName final)
  = map (fun e => (fst e, parsed (snd e))) (stored_definitions final).
Proof.
  unfold stored_definitions. rewrite map_map.
  rewrite <- (map_id (read (heap final) (metaDataByTableName final))) at 1.
  apply map_ext_in. intros [k o] H. cbn [fst snd].
  apply In_read in H as (x & Hx & Ho).
  pose proof (classify_marks_cleared _ _ _ model_keys k x Hx) as Hmark.
  unfold nextColumnName_at in Hmark. rewrite Ho in Hmark.
  destruct o as [d n]. cbn in Hmark. by subst n.
Qed.

Hypothesis meta_keys : List.NoDup (Obj.keys metaColumns).

(** X8. The buckets of a run name no column twice: a column is filed at most
    once, in one bucket. New, changed and renamed columns are columns of the
    model; a changed column is a column of the snapshot or bears the name
    of a property of [Object.prototype]; a removed column is a column of
    the snapshot that is not in the model and bears no such name. *)
Theorem buckets_partition :
  let c := columns final in
  List.NoDup (Obj.keys (col_new c) ++ Obj.keys (col_change c)
              ++ Obj.keys (col_rename c) ++ col_remove c)
  /\ (forall k, In k (Obj.keys (col_new c) ++ Obj.keys (col_change c)
                      ++ Obj.keys (col_rename c)) ->
                In k (Obj.keys modelColumns))
  /\ (forall k, In k (Obj.keys (col_change c)) ->
                In k (Obj.keys metaColumns) \/ Obj.inherited k = true)
  /\ (forall k, In k (col_remove c) ->
                In k (Obj.keys metaColumns)
                /\ ~ In k (Obj.keys modelColumns)
                /\ Obj.inherited k = false).
Proof.
  cbv zeta.
  rewrite (rem_new _ _ _ _ _ Hcls), (rem_change _ _ _ _ _ Hcls),
    (rem_rename _ _ _ _ _ Hcls).
  destruct apart_fwd as (Hn & Hc & Hr & Hd).
  assert (forall k, In k (Obj.keys (col_new (columns fwd))
                          ++ Obj.keys (col_change (columns fwd))
                          ++ Obj.keys (col_rename (columns fwd))) ->
                    In k (Obj.keys modelColumns)) as Hmodel.
  { intros k H. rewrite <- (mc_keys metaColumns).
    rewrite !in_app_iff in H. destruct H as [H|[H|H]];
      apply in_keys in H as [x H]; apply in_keys; exists x.
    - by apply (fwd_new _ _ _ _ _ _ Hfwd).
    - by destruct (fwd_change _ _ _ _ _ _ Hfwd k x H).
    - by destruct (fwd_rename _ _ _ _ _ _ Hfwd k x H). }
  assert (forall k, In k (col_remove (columns final)) ->
                    ~ In k (Obj.keys modelColumns)) as Hgone.
  { intros k H. by destruct (rem_removed _ _ _ _ _ Hcls k H) as (_ & ? & _). }
  split; [|split; [done|split]].
  - rewrite !app_assoc. apply List.NoDup_app.
    + rewrite <- app_assoc. apply List.NoDup_app; [done| |].
      * apply List.NoDup_app; [done|done|]. intros k. apply (proj2 (Hd k)).
      * intros k H. rewrite in_app_iff.
        destruct (proj1 (Hd k) H) as [H1 H2]. by intros [H'|H'].
    + unfold classify, classify_with, removal_pass_with.
      apply removal_fold_removed.
      rewrite (fwd_remove _ _ _ _ _ _ Hfwd). cbn [app].
      unfold forward_pass. apply forward_fold_keys.
      unfold initial_state. fields. by rewrite LocFacts.locations_keys.
    + intros k H Hrm. apply (Hgone k Hrm). apply Hmodel.
      by rewrite <- !app_assoc in H.
  - intros k H. rewrite <- (rem_change _ _ _ _ _ Hcls) in H.
    destruct (changed_columns _ _ _ model_keys meta_keys k H)
      as (d' & _ & [(d & Hd' & _)|Hinh]); [left|by right].
    apply ObjFacts.has_true. unfold Obj.has. by rewrite Hd'.
  - intros k H.
    destruct (rem_removed _ _ _ _ _ Hcls k H) as (_ & Hnot & Hplain).
    split; [|done].
    destruct (removed_columns _ _ _ model_keys meta_keys k H) as (d & Hd').
    apply ObjFacts.has_true. unfold Obj.has. by rewrite Hd'.
Qed.

End classification_more.

(** ** Runs without hints

    When no column of the model names a previous column, the two loops
    compute the plain difference of the two tables, in the order of their
    columns. *)

Section plain_facts.
Context {Value : Type}.
Variable value_equal : Value -> Value -> bool.
Variables metaColumns modelColumns : object (@ColumnDefinition Value).
Hypothesis model_keys : List.NoDup (Obj.keys modelColumns).
Hypothesis meta_keys : List.NoDup (Obj.keys metaColumns).
Hypothesis no_hints :
  forall k d, In (k, d) modelColumns -> truthy (prevColumnName d) = None.
Hypothesis no_undefined : ~ In "undefined" (Obj.keys modelColumns).

Local Abbreviation store0 := (heap (initial_state metaColumns modelColumns)).
Local Abbreviation meta0 := (locations 0 metaColumns).
Local Abbreviation mc := (model_locations metaColumns modelColumns).
Local Abbreviation inv := (forward_inv value_equal metaColumns modelColumns).
Local Abbreviation fwd :=
  (forward_pass value_equal metaColumns modelColumns).
Local Abbreviation final := (classify value_equal metaColumns modelColumns).
Local Abbreviation fresh := (fun k => negb (Obj.has k metaColumns)).
Local Abbreviation added := (fun k => negb (Obj.present k metaColumns)).
Local Abbreviation changed :=
  (fun k => differs value_equal metaColumns modelColumns k
            || negb (Obj.has k metaColumns) && Obj.inherited k).

Local Ltac fields :=
  cbn [heap metaDataByTableName columns col_new col_change col_rename
       col_remove with_heap].

Lemma keys_set_fresh {A} k (v : A) o :
  ~ In k (Obj.keys o) -> Obj.keys (Obj.set k v o) = (Obj.keys o ++ [k])%list.
Proof.
  induction o as [|[k0 v0] o IH]; simpl; [done|]. intros H.
  destruct (String.eqb_spec k k0) as [->|Hne]; [by destruct H; left|].
  simpl. rewrite IH; [done|]. intros H'. apply H. by right.
Qed.

Lemma keys_set_there {A} k (v : A) o :
  In k (Obj.keys o) -> Obj.keys (Obj.set k v o) = Obj.keys o.
Proof.
  induction o as [|[k0 v0] o IH]; simpl; [done|]. intros H.
  destruct (String.eqb_spec k k0) as [->|Hne]; [done|].
  simpl. rewrite IH; [done|]. by destruct H as [E|H]; [destruct Hne|].
Qed.

Lemma filter_none {A} (f : A -> bool) l :
  (forall a, In a l -> f a = false) -> List.filter f l = [].
Proof.
  induction l as [|a l IH]; intros H; simpl; [done|].
  rewrite (H a); [|by left]. apply IH. intros b Hb. apply H. by right.
Qed.

Local Abbreviation plain seen st :=
  (Obj.keys (metaDataByTableName st)
   = (Obj.keys metaColumns ++ List.filter fresh (Obj.keys seen))%list
   /\ Obj.keys (col_new (columns st)) = List.filter added (Obj.keys seen)
   /\ Obj.keys (col_change (columns st)) = List.filter changed (Obj.keys seen)
   /\ col_rename (columns st) = []).

Lemma plain_step seen name x todo (st : @State Value) :
  inv seen ((name, x) :: todo) st ->
  plain seen st ->
  plain (seen ++ [(name, x)])%list (forward_step value_equal st (name, x)).
Proof.
  intros Hinv (Nm & Nn & Nc & Nr).
  destruct (split_facts _ _ model_keys _ _ _ _ (fwd_split _ _ _ _ _ _ Hinv))
    as (Hmc & Hname & Hfresh & Hxtodo & Hxge).
  destruct (fwd_todo _ _ _ _ _ _ Hinv name x (or_introl eq_refl))
    as [Hxmeta Hxmark].
  pose proof (fwd_options _ _ _ _ _ _ Hinv) as Hopts.
  destruct (mc_stored _ _ _ _ Hmc) as (dx & Hdx & Hsx).
  pose proof (same_options_unmarked _ _ x Hopts Hxmark (store0_unmarked _ _ x))
    as Hhx.
  pose proof (LocFacts.In_get _ _ _ model_keys Hdx) as HgM.
  assert (Obj.keys (seen ++ [(name, x)]) = (Obj.keys seen ++ [name])%list)
    as -> by (unfold Obj.keys; by rewrite map_app).
  rewrite !List.filter_app. cbn [List.filter].
  unfold forward_step.
  destruct (Obj.get name (metaDataByTableName st)) as [z|] eqn:Hcur.
  - pose proof (ObjFacts.get_In _ _ _ Hcur) as Hz.
    assert (In (name, z) meta0) as Hz0.
    { destruct (fwd_origin _ _ _ _ _ _ Hinv name z Hz) as [|Hd]; [done|].
      exfalso. apply Hfresh. apply in_keys. eauto. }
    assert (nextColumnName_at (heap st) z = None) as Hzmark.
    { destruct (fwd_marks _ _ _ _ _ _ Hinv name z Hz) as [|[_ Hd]]; [done|].
      by destruct Hfresh. }
    destruct (meta0_stored _ modelColumns _ _ Hz0) as (dz & Hdz & Hsz).
    pose proof (same_options_unmarked _ _ z Hopts Hzmark
                  (store0_unmarked _ _ z)) as Hhz.
    pose proof (LocFacts.In_get _ _ _ meta_keys Hdz) as HgP.
    assert (Obj.has name metaColumns = true) as HhasP
      by (unfold Obj.has; by rewrite HgP).
    assert (equal_at value_equal (heap st) z x
            = equal_definition value_equal dz dx) as ->.
    { unfold equal_at. rewrite Hhz, Hhx, Hsz, Hsx. unfold equal_object.
      cbn [parsed options nextColumnName option_equal]. apply andb_true_r. }
    assert (differs value_equal metaColumns modelColumns name
            = negb (equal_definition value_equal dz dx)) as ->.
    { unfold differs. by rewrite HgP, HgM. }
    unfold Obj.present. rewrite HhasP. cbn [negb orb andb].
    rewrite orb_false_r, !app_nil_r.
    destruct (equal_definition value_equal dz dx); cbn [negb]; fields.
    + rewrite app_nil_r. done.
    + split; [|split; [done|split; [|done]]].
      * rewrite keys_set_there; [done|]. apply in_keys. by exists z.
      * rewrite keys_set_fresh; [by rewrite Nc|].
        rewrite Nc. intros H. apply List.filter_In in H as [H _]. done.
  - apply ObjFacts.get_None in Hcur.
    assert (~ In name (Obj.keys metaColumns)) as HnP.
    { intros H. apply Hcur. rewrite Nm. apply in_or_app. by left. }
    assert (Obj.has name metaColumns = false) as HhasP
      by (by apply ObjFacts.has_false).
    assert (differs value_equal metaColumns modelColumns name = false) as ->.
    { unfold differs. apply ObjFacts.get_None in HnP. by rewrite HnP. }
    unfold Obj.present. rewrite HhasP. cbn [negb orb andb].
    destruct (Obj.inherited name) eqn:Hinh; cbn [negb]; fields.
    { rewrite app_nil_r. split; [|split; [done|split; [|done]]].
      - rewrite keys_set_fresh; [|done]. by rewrite Nm, <- app_assoc.
      - rewrite keys_set_fresh; [by rewrite Nc|].
        rewrite Nc. intros H. apply List.filter_In in H as [H _]. done. }
    rewrite app_nil_r.
    assert (truthy (prevColumnName_at (heap st) x) = None) as ->.
    { unfold prevColumnName_at. rewrite Hhx, Hsx. cbn [parsed options].
      by apply (no_hints name). }
    fields. split; [|split; [|done]].
    + rewrite keys_set_fresh; [|done]. by rewrite Nm, <- app_assoc.
    + rewrite keys_set_fresh; [by rewrite Nn|].
      rewrite Nn. intros H. apply List.filter_In in H as [H _]. done.
Qed.

Lemma plain_fold todo : forall seen (st : @State Value),
  inv seen todo st -> plain seen st ->
  plain (seen ++ todo)%list (fold_left (forward_step value_equal) todo st).
Proof.
  induction todo as [|[name x] todo IH]; intros seen st Hinv H.
  - by rewrite app_nil_r.
  - cbn [fold_left].
    replace (seen ++ (name, x) :: todo)%list
      with ((seen ++ [(name, x)]) ++ todo)%list by (by rewrite <- app_assoc).
    apply IH.
    + by apply forward_inv_step.
    + by apply (plain_step seen name x todo).
Qed.

(** X9. Without hints the run computes the difference of the two tables,
    each name being looked up in the other table, where the names of the
    properties of [Object.prototype] are always found. When no column of
    the model names a previous column, the added columns are the model's
    columns under whose name nothing is found in the snapshot; the changed
    ones are the columns of both whose definitions differ and the model's
    columns that the snapshot lacks and that bear a name of
    [Object.prototype], all in the order of the model's columns; nothing is
    renamed; and the removed columns are the snapshot's columns under whose
    name nothing is found in the model, in the order of the snapshot's
    columns. *)
Theorem hint_free_buckets :
  let c := columns final in
  Obj.keys (col_new c)
  = List.filter (fun k => negb (Obj.present k metaColumns))
                (Obj.keys modelColumns)
  /\ Obj.keys (col_change c)
     = List.filter (fun k => differs value_equal metaColumns modelColumns k
                             || negb (Obj.has k metaColumns)
                                && Obj.inherited k)
                   (Obj.keys modelColumns)
  /\ col_rename c = []
  /\ col_remove c
     = List.filter (fun k => negb (Obj.present k modelColumns))
                   (Obj.keys metaColumns).
Proof.
  cbv zeta.
  pose proof (classify_inv value_equal metaColumns modelColumns model_keys)
    as Hcls.
  pose proof (forward_pass_inv value_equal metaColumns modelColumns model_keys)
    as Hfwd.
  destruct (plain_fold mc [] _ (forward_inv_init _ _ _)) as (Nm & Nn & Nc & Nr).
  { unfold initial_state. fields. cbn.
    by rewrite LocFacts.locations_keys, app_nil_r. }
  cbn [app] in Nm, Nn, Nc. rewrite mc_keys in Nm, Nn, Nc.
  fold fwd in Nm, Nn, Nc, Nr.
  rewrite (rem_new _ _ _ _ _ Hcls), (rem_change _ _ _ _ _ Hcls),
    (rem_rename _ _ _ _ _ Hcls).
  split; [done|]. split; [done|]. split; [done|].
  rewrite (final_is_by_name _ _ _ model_keys no_undefined).
  rewrite removal_by_name_removed, (fwd_remove _ _ _ _ _ _ Hfwd), Nm.
  cbn [app]. rewrite List.filter_app.
  rewrite (filter_none _ (List.filter _ _)).
  - rewrite app_nil_r. apply List.filter_ext. intros k.
    unfold Obj.present. do 2 f_equal.
    unfold Obj.has at 1.
    destruct (Obj.get k mc) eqn:E.
    + symmetry. apply ObjFacts.has_true. rewrite <- (mc_keys metaColumns).
      apply ObjFacts.has_true. unfold Obj.has. by rewrite E.
    + symmetry. apply ObjFacts.has_false. rewrite <- (mc_keys metaColumns).
      by apply ObjFacts.get_None.
  - intros k H. apply List.filter_In in H as [H _].
    apply negb_false_iff, ObjFacts.present_true. left. by rewrite mc_keys.
Qed.

End plain_facts.

(** ** The order of the columns in a bucket *)

Section order_facts.
Context {Value : Type}.
Variable value_equal : Value -> Value -> bool.
Variables metaColumns modelColumns : object (@ColumnDefinition Value).
Hypothesis model_keys : List.NoDup (Obj.keys modelColumns).
Hypothesis meta_keys : List.NoDup (Obj.keys metaColumns).

Local Abbreviation mc := (model_locations metaColumns modelColumns).
Local Abbreviation inv := (forward_inv value_equal metaColumns modelColumns).
Local Abbreviation fwd :=
  (forward_pass value_equal metaColumns modelColumns).
Local Abbreviation final := (classify value_equal metaColumns modelColumns).
Local Abbreviation gone := (fun k => negb (Obj.has k modelColumns)).

Local Ltac fields :=
  cbn [heap metaDataByTableName columns col_new col_change col_rename
       col_remove with_heap].

Lemma has_set_other {A} k k' (v : A) o :
  k' <> k -> Obj.has k' (Obj.set k v o) = Obj.has k' o.
Proof. intros H. unfold Obj.has. by rewrite ObjFacts.get_set_ne. Qed.

(** A bucket that gains a column not seen before, or stays as it is, keeps
    the order in which the columns were seen. *)
Lemma ordered_grow (bucket bucket' : object loc) (seen : list string) name x :
  ~ In name seen -> ~ In name (Obj.keys bucket) ->
  bucket' = bucket \/ bucket' = Obj.set name x bucket ->
  Obj.keys bucket = List.filter (fun k => Obj.has k bucket) seen ->
  Obj.keys bucket'
  = List.filter (fun k => Obj.has k bucket') (seen ++ [name]).
Proof.
  intros Hseen Hfresh [->| ->] H; rewrite List.filter_app; cbn [List.filter].
  - apply ObjFacts.has_false in Hfresh. by rewrite Hfresh, app_nil_r.
  - unfold Obj.has at 2. rewrite ObjFacts.get_set_eq.
    rewrite keys_set_fresh by done. f_equal. rewrite H.
    apply List.filter_ext_in. intros k Hk. symmetry. apply has_set_other.
    by intros ->.
Qed.

Local Abbreviation ordered seen st :=
  (Obj.keys (col_new (columns st))
   = List.filter (fun k => Obj.has k (col_new (columns st))) (Obj.keys seen)
   /\ Obj.keys (col_change (columns st))
      = List.filter (fun k => Obj.has k (col_change (columns st)))
                    (Obj.keys seen)
   /\ Obj.keys (col_rename (columns st))
      = List.filter (fun k => Obj.has k (col_rename (columns st)))
                    (Obj.keys seen)).

Lemma ordered_step seen name x todo (st : @State Value) :
  inv seen ((name, x) :: todo) st ->
  ordered seen st ->
  ordered (seen ++ [(name, x)])%list (forward_step value_equal st (name, x)).
Proof.
  intros Hinv (Hn & Hc & Hr).
  destruct (split_facts _ _ model_keys _ _ _ _ (fwd_split _ _ _ _ _ _ Hinv))
    as (_ & _ & Hfresh & _ & _).
  assert (~ In name (Obj.keys (col_new (columns st)))) as Fn.
  { rewrite Hn. intros H. by apply List.filter_In in H as [H _]. }
  assert (~ In name (Obj.keys (col_change (columns st)))) as Fc.
  { rewrite Hc. intros H. by apply List.filter_In in H as [H _]. }
  assert (~ In name (Obj.keys (col_rename (columns st)))) as Fr.
  { rewrite Hr. intros H. by apply List.filter_In in H as [H _]. }
  assert (Obj.keys (seen ++ [(name, x)]) = (Obj.keys seen ++ [name])%list)
    as -> by (unfold Obj.keys; by rewrite map_app).
  destruct (forward_step_columns value_equal st name x)
    as [-> | [-> | [-> | ->]]]; fields;
    (split; [|split]);
    lazymatch goal with
    | |- Obj.keys (Obj.set name x ?b) = _ =>
        apply (ordered_grow b _ _ name x); auto
    | |- Obj.keys ?b = _ => apply (ordered_grow b _ _ name x); auto
    end.
Qed.

Lemma ordered_fold todo : forall seen (st : @State Value),
  inv seen todo st -> ordered seen st ->
  ordered (seen ++ todo)%list (fold_left (forward_step value_equal) todo st).
Proof.
  induction todo as [|[name x] todo IH]; intros seen st Hinv H.
  - by rewrite app_nil_r.
  - cbn [fold_left].
    replace (seen ++ (name, x) :: todo)%list
      with ((seen ++ [(name, x)]) ++ todo)%list by (by rewrite <- app_assoc).
    apply IH.
    + by apply forward_inv_step.
    + by apply (ordered_step seen name x todo).
Qed.

Lemma keys_del_filter {A} k (o : object A) :
  Obj.keys (Obj.del k o)
  = List.filter (fun k' => negb (String.eqb k' k)) (Obj.keys o).
Proof.
  induction o as [|[k0 v0] o IH]; simpl; [done|].
  rewrite (String.eqb_sym k0 k).
  destruct (String.eqb k k0); simpl; by rewrite IH.
Qed.

Lemma filter_filter {A} (f g : A -> bool) l :
  List.filter f (List.filter g l) = List.filter (fun a => g a && f a) l.
Proof.
  induction l as [|a l IH]; simpl; [done|].
  destruct (g a); simpl; [destruct (f a)|]; by rewrite IH.
Qed.

(** The stored names the model does not have stay in the snapshot's order
    through the first loop. *)
Lemma gone_step seen name x todo (st : @State Value) :
  inv seen ((name, x) :: todo) st ->
  (exists g, List.filter gone (Obj.keys (metaDataByTableName st))
             = List.filter g (Obj.keys metaColumns)) ->
  exists g,
    List.filter gone
      (Obj.keys (metaDataByTableName (forward_step value_equal st (name, x))))
    = List.filter g (Obj.keys metaColumns).
Proof.
  intros Hinv [g Hg].
  destruct (split_facts _ _ model_keys _ _ _ _ (fwd_split _ _ _ _ _ _ Hinv))
    as (_ & Hname & _ & _ & _).
  assert (gone name = false) as Hgone
    by (by apply negb_false_iff, ObjFacts.has_true).
  assert (forall o : object loc,
            List.filter gone (Obj.keys (Obj.set name x o))
            = List.filter gone (Obj.keys o)) as Hset.
  { intros o. destruct (in_dec string_dec name (Obj.keys o)) as [Hin|Hnin].
    - by rewrite keys_set_there.
    - rewrite keys_set_fresh by done. rewrite List.filter_app.
      cbn [List.filter]. by rewrite Hgone, app_nil_r. }
  unfold forward_step.
  destruct (Obj.get name (metaDataByTableName st)) as [z|].
  - destruct (negb (equal_at value_equal (heap st) z x)); fields.
    + exists g. by rewrite Hset.
    + by exists g.
  - destruct (Obj.inherited name); fields; [exists g; by rewrite Hset|].
    destruct (truthy (prevColumnName_at (heap st) x)) as [prev|].
    + destruct (Obj.present prev (metaDataByTableName st)
                && negb (String.eqb name prev)); fields; [|by exists g].
      exists (fun k => g k && negb (String.eqb k prev)).
      rewrite Hset, keys_del_filter, filter_filter.
      rewrite <- (filter_filter (fun k => negb (String.eqb k prev)) g).
      rewrite <- Hg, filter_filter.
      apply List.filter_ext. intros k. apply andb_comm.
    + fields. exists g. by rewrite Hset.
Qed.

Lemma gone_fold todo : forall seen (st : @State Value),
  inv seen todo st ->
  (exists g, List.filter gone (Obj.keys (metaDataByTableName st))
             = List.filter g (Obj.keys metaColumns)) ->
  exists g,
    List.filter gone
      (Obj.keys (metaDataByTableName
                   (fold_left (forward_step value_equal) todo st)))
    = List.filter g (Obj.keys metaColumns).
Proof.
  induction todo as [|[name x] todo IH]; intros seen st Hinv H; [exact H|].
  cbn [fold_left]. apply (IH (seen ++ [(name, x)])%list).
  - by apply forward_inv_step.
  - by apply (gone_step seen name x todo).
Qed.

(** The second loop files names in the order of the entries it runs
    over. *)
Lemma removal_fold_order test todo : forall st : @State Value,
  List.NoDup (Obj.keys todo) ->
  exists h,
    col_remove (columns (fold_left (removal_step_with test) todo st))
    = (col_remove (columns st) ++ List.filter h (Obj.keys todo))%list.
Proof.
  induction todo as [|[k x] todo IH]; intros st Hnd.
  - exists (fun _ => true). cbn. by rewrite app_nil_r.
  - cbn in Hnd. apply List.NoDup_cons_iff in Hnd as [Hk Hnd].
    cbn [fold_left].
    destruct (IH (removal_step_with test st (k, x)) Hnd) as [h Hh].
    assert (forall b,
              List.filter (fun k' => if String.eqb k' k then b else h k')
                          (Obj.keys todo)
              = List.filter h (Obj.keys todo)) as Hext.
    { intros b. apply List.filter_ext_in. intros k' Hk'.
      destruct (String.eqb_spec k' k) as [->|]; [done|done]. }
    rewrite Hh. unfold removal_step_with.
    destruct (test (heap st) k x); fields.
    + exists (fun k' => if String.eqb k' k then true else h k').
      cbn [Obj.keys map fst List.filter]. rewrite String.eqb_refl.
      fold (Obj.keys todo). rewrite (Hext true). by rewrite <- app_assoc.
    + exists (fun k' => if String.eqb k' k then false else h k').
      cbn [Obj.keys map fst List.filter]. rewrite String.eqb_refl.
      fold (Obj.keys todo). by rewrite (Hext false).
Qed.

Lemma filter_members (f : string -> bool) l :
  List.filter (fun k => existsb (String.eqb k) (List.filter f l)) l
  = List.filter f l.
Proof.
  apply List.filter_ext_in. intros k Hk.
  destruct (f k) eqn:E.
  - apply existsb_exists. exists k. split; [|apply String.eqb_refl].
    apply List.filter_In. by split.
  - apply not_true_iff_false. intros H.
    apply existsb_exists in H as (k' & Hin & Heq).
    apply String.eqb_eq in Heq. subst k'.
    apply List.filter_In in Hin as [_ Hf]. congruence.
Qed.

(** X10. The columns of a bucket come in the order of their table: the
    new, the changed and the renamed columns in the order of the model's
    columns, the removed ones in the order of the snapshot's. The
    operations of a descriptor follow the columns of its bucket. *)
Theorem buckets_keep_order :
  let c := columns final in
  Obj.keys (col_new c)
  = List.filter (fun k => Obj.has k (col_new c)) (Obj.keys modelColumns)
  /\ Obj.keys (col_change c)
     = List.filter (fun k => Obj.has k (col_change c)) (Obj.keys modelColumns)
  /\ Obj.keys (col_rename c)
     = List.filter (fun k => Obj.has k (col_rename c)) (Obj.keys modelColumns)
  /\ col_remove c
     = List.filter (fun k => existsb (String.eqb k) (col_remove c))
                   (Obj.keys metaColumns).
Proof.
  cbv zeta.
  pose proof (classify_inv value_equal metaColumns modelColumns model_keys)
    as Hcls.
  pose proof (forward_pass_inv value_equal metaColumns modelColumns model_keys)
    as Hfwd.
  destruct (ordered_fold mc [] _ (forward_inv_init _ _ _)) as (Hn & Hc & Hr);
    [done|].
  cbn [app] in Hn, Hc, Hr. rewrite mc_keys in Hn, Hc, Hr.
  fold fwd in Hn, Hc, Hr.
  rewrite (rem_new _ _ _ _ _ Hcls), (rem_change _ _ _ _ _ Hcls),
    (rem_rename _ _ _ _ _ Hcls).
  split; [done|]. split; [done|]. split; [done|].
  destruct (gone_fold mc [] _ (forward_inv_init _ _ _)) as [g Hg].
  { exists gone. unfold initial_state. fields.
    by rewrite LocFacts.locations_keys. }
  fold fwd in Hg.
  assert (List.NoDup (Obj.keys (metaDataByTableName fwd))) as Hnd.
  { unfold forward_pass. apply forward_fold_keys.
    unfold initial_state. fields. by rewrite LocFacts.locations_keys. }
  destruct (removal_fold_order
              (is_removed mc) (metaDataByTableName fwd) fwd Hnd) as [h Hh].
  rewrite (fwd_remove _ _ _ _ _ _ Hfwd) in Hh. cbn [app] in Hh.
  fold (removal_pass_with (is_removed mc) fwd) in Hh.
  change (removal_pass_with (is_removed mc) fwd) with final in Hh.
  assert (col_remove (columns final)
          = List.filter (fun k => g k && h k) (Obj.keys metaColumns)) as Hrm.
  { rewrite <- (filter_filter h g), <- Hg, filter_filter, Hh.
    apply List.filter_ext_in. intros k Hk.
    destruct (h k) eqn:E; [|by rewrite andb_false_r].
    rewrite andb_true_r. symmetry. apply negb_true_iff, ObjFacts.has_false.
    refine (proj1 (proj2 (rem_removed _ _ _ _ _ Hcls k _))). rewrite Hh.
    apply List.filter_In. by split. }
  revert Hrm. generalize (col_remove (columns final)). intros removed ->.
  symmetry. apply filter_members.
Qed.

End order_facts.

(** ** Runs that emit nothing *)

Section silent_facts.
Context {Value : Type}.
Variable value_equal : Value -> Value -> bool.
Implicit Types (st : @State Value).

Local Ltac fields :=
  cbn [heap metaDataByTableName columns col_new col_change col_rename
       col_remove with_heap].

Lemma set_not_nil {A} k (v : A) o : Obj.set k v o <> [].
Proof.
  destruct o as [|[k0 v0] o]; simpl; [done|].
  by destruct (String.eqb k k0).
Qed.

Lemma set_same {A} k (v : A) o : Obj.get k o = Some v -> Obj.set k v o = o.
Proof.
  induction o as [|[k0 v0] o IH]; simpl; [done|].
  destruct (String.eqb_spec k k0) as [->|Hne].
  - by intros [= ->].
  - intros H. by rewrite IH.
Qed.

(** A turn of the first loop that files nothing stores nothing. *)
Lemma forward_step_quiet st e :
  nothing_filed (columns (forward_step value_equal st e)) ->
  nothing_filed (columns st)
  /\ metaDataByTableName (forward_step value_equal st e)
     = metaDataByTableName st.
Proof.
  destruct e as [name x]. unfold forward_step, nothing_filed.
  destruct (Obj.get name (metaDataByTableName st)) as [z|].
  - destruct (negb (equal_at value_equal (heap st) z x)); fields; [|done].
    intros (_ & H & _). by apply set_not_nil in H.
  - destruct (Obj.inherited name); fields.
    { intros (_ & H & _). by apply set_not_nil in H. }
    destruct (truthy (prevColumnName_at (heap st) x)) as [prev|].
    + destruct (Obj.present prev (metaDataByTableName st)
                && negb (String.eqb name prev)); fields; [|done].
      intros (_ & _ & H & _). by apply set_not_nil in H.
    + fields. intros (H & _). by apply set_not_nil in H.
Qed.

Lemma forward_fold_quiet todo : forall st,
  nothing_filed (columns (fold_left (forward_step value_equal) todo st)) ->
  nothing_filed (columns st)
  /\ metaDataByTableName (fold_left (forward_step value_equal) todo st)
     = metaDataByTableName st.
Proof.
  induction todo as [|e todo IH]; intros st H; [done|].
  cbn [fold_left] in *. destruct (IH _ H) as [H1 ->].
  by apply forward_step_quiet.
Qed.

(** So does a turn of the second loop. *)
Lemma removal_step_quiet test st e :
  nothing_filed (columns (removal_step_with test st e)) ->
  nothing_filed (columns st)
  /\ metaDataByTableName (removal_step_with test st e)
     = metaDataByTableName st.
Proof.
  destruct e as [k x]. unfold removal_step_with, nothing_filed.
  destruct (test (heap st) k x); fields; [|done].
  intros (_ & _ & _ & H). by apply app_eq_nil in H as [_ [=]].
Qed.

Lemma removal_fold_quiet test todo : forall st,
  nothing_filed (columns (fold_left (removal_step_with test) todo st)) ->
  nothing_filed (columns st)
  /\ metaDataByTableName (fold_left (removal_step_with test) todo st)
     = metaDataByTableName st.
Proof.
  induction todo as [|e todo IH]; intros st H; [done|].
  cbn [fold_left] in *. destruct (IH _ H) as [H1 ->].
  by apply removal_step_quiet.
Qed.

(** Reading the snapshot's own objects from a store that differs from the
    first one in marks only gives the snapshot back. *)
Lemma read_locations (h post : list (@ColumnObject Value))
    (o : object (@ColumnDefinition Value)) : forall pre,
  same_options h (pre ++ map (fun e => parsed (snd e)) o ++ post)%list ->
  map (fun e => (fst e, options (snd e))) (read h (locations (length pre) o))
  = o.
Proof.
  induction o as [|[k d] o IH]; intros pre' H; [done|].
  cbn [locations read omap list_omap].
  pose proof (H (length pre')) as Hx.
  rewrite (lookup_app_r pre') in Hx by lia.
  rewrite Nat.sub_diag in Hx. cbn in Hx.
  destruct (h !! length pre') as [v|] eqn:E; [|done].
  cbn in Hx. injection Hx as Hx. cbn. f_equal; [by rewrite Hx|].
  fold (read h (locations (S (length pre')) o)).
  replace (S (length pre')) with (length (pre' ++ [@parsed Value d]))
    by (rewrite length_app; simpl; lia).
  apply IH. by rewrite <- app_assoc.
Qed.

Lemma quiet_diff table
    (modelColumns : object (@ColumnDefinition Value)) metaData :
  List.NoDup (Obj.keys modelColumns) ->
  fst (diff value_equal table modelColumns metaData) = inr [] ->
  snd (diff value_equal table modelColumns metaData) = metaData.
Proof.
  intros Hmodel. unfold diff, diff_with.
  destruct (Obj.get table metaData) as [metaColumns|] eqn:Hg;
    [|by destruct (String.eqb table "__proto__"), (Obj.inherited table)].
  destruct (equal value_equal metaColumns modelColumns); [done|].
  cbn [fst snd]. intros [= H].
  fold (classify value_equal metaColumns modelColumns) in *.
  assert (nothing_filed (columns (classify value_equal metaColumns modelColumns)))
    as Hq.
  { unfold migrations_of in H.
    apply app_eq_nil in H as [H1 H]. apply app_eq_nil in H as [H2 H].
    apply app_eq_nil in H as [H3 H4].
    unfold migration_new in H1. unfold migration_change in H2.
    unfold migration_rename in H3. unfold migration_remove in H4.
    unfold nothing_filed, Obj.keys in *.
    destruct (col_new _); [|done]. destruct (col_change _); [|done].
    destruct (col_rename _); [|done]. by destruct (col_remove _). }
  apply set_same. rewrite Hg. f_equal.
  unfold classify, classify_with, removal_pass_with in Hq.
  apply removal_fold_quiet in Hq as [Hq Hm].
  apply forward_fold_quiet in Hq as [_ Hm'].
  unfold stored_definitions.
  change (metaDataByTableName (classify value_equal metaColumns modelColumns))
    with (metaDataByTableName
            (fold_left
               (removal_step_with
                  (is_removed (model_locations metaColumns modelColumns)))
               (metaDataByTableName
                  (forward_pass value_equal metaColumns modelColumns))
               (forward_pass value_equal metaColumns modelColumns))).
  rewrite Hm. unfold forward_pass at 1. rewrite Hm'.
  unfold initial_state. fields.
  symmetry.
  apply (read_locations _ (map (fun e => parsed (snd e)) modelColumns) _ []).
  apply (rem_options _ _ _ _ _
           (classify_inv value_equal metaColumns modelColumns Hmodel)).
Qed.

(** X11. A run that returns no descriptor leaves the snapshot as it found
    it: whenever the two loops store or delete a column they also file it,
    and a filed column gives an operation. *)
Theorem silent_run_keeps_snapshot (model : @Model Value) metaData :
  fst (getRawMigrations value_equal model metaData) = inr [] ->
  snd (getRawMigrations value_equal model metaData) = metaData.
Proof. apply quiet_diff, getModelColumns_distinct. Qed.

End silent_facts.

(** ** What the rewriting changes and what it collects *)

Lemma unquoted_app a b : unquoted (a +:+ b) = unquoted a +:+ unquoted b.
Proof.
  induction a as [|c a IH]; simpl; [done|].
  destruct (Ascii.eqb c quote); simpl; by rewrite IH.
Qed.

Lemma unquoted_idem t : unquoted (unquoted t) = unquoted t.
Proof.
  induction t as [|c t IH]; simpl; [done|].
  destruct (Ascii.eqb c quote) eqn:E; simpl; [done|]. by rewrite E, IH.
Qed.

Lemma strip_prefix_app p : forall s after,
  strip_prefix p s = Some after -> s = p +:+ after.
Proof.
  induction p as [|a p IH]; intros s after; simpl.
  - by intros [= ->].
  - destruct s as [|b s]; [done|].
    destruct (Ascii.eqb_spec a b) as [->|]; [|done].
    intros H. by rewrite (IH _ _ H).
Qed.

Lemma strip_prefix_length p : forall s after,
  strip_prefix p s = Some after ->
  String.length s = String.length p + String.length after.
Proof.
  induction p as [|a p IH]; intros s after; simpl.
  - by intros [= ->].
  - destruct s as [|b s]; [done|].
    destruct (Ascii.eqb a b); [|done].
    intros H. simpl. by rewrite (IH _ _ H).
Qed.

(** Taking the quotes out of a token wherever it stands takes nothing but
    quotes out of the text. *)
Lemma rewrite_from_unquoted token s : forall skip pre rest,
  token <> "" ->
  s = pre +:+ rest -> String.length pre = skip ->
  unquoted (rewrite_from token (unquoted token) s skip) = unquoted rest.
Proof.
  induction s as [|c s IH]; intros skip pre rest Hne Hs Hlen.
  - destruct pre; [|done].
    assert (rest = "") as -> by (symmetry; exact Hs). done.
  - cbn [rewrite_from]. destruct skip as [|k].
    + destruct pre; [|done].
      assert (rest = String c s) as -> by (symmetry; exact Hs).
      destruct (strip_prefix token (String c s)) as [after|] eqn:E.
      * destruct token as [|a t]; [done|]. simpl in E.
        destruct (Ascii.eqb_spec a c) as [->|]; [|done].
        rewrite unquoted_app, unquoted_idem.
        replace (String.length (String c t) - 1) with (String.length t)
          by (cbn [String.length]; lia).
        rewrite (IH (String.length t) t after Hne).
        -- rewrite <- unquoted_app. f_equal.
           by rewrite (strip_prefix_app _ _ _ E).
        -- by apply strip_prefix_app.
        -- done.
      * cbn [unquoted]. by rewrite (IH 0 "" s Hne).
    + destruct pre as [|c' pre]; [done|].
      change (String c s = String c' (pre +:+ rest)) in Hs.
      cbn [String.length] in Hlen. injection Hs as -> ->. apply (IH k pre rest); [done|done|lia].
Qed.


Lemma skip_white_space_spec s : forall n rest,
  skip_white_space s = (n, rest) ->
  exists space, s = space +:+ rest
                /\ String.length space = n
                /\ all_white_space space = true.
Proof.
  induction s as [|c s IH]; intros n rest; simpl.
  - intros [= <- <-]. by exists "".
  - destruct (is_white_space c) eqn:E.
    + destruct (skip_white_space s) as [n' rest'] eqn:Es.
      intros [= <- <-]. destruct (IH _ _ eq_refl) as (space & -> & Hl & Hw).
      exists (String c space). simpl. by rewrite Hl, E, Hw.
    + intros [= <- <-]. by exists "".
Qed.

Lemma last_quote_in_line_spec s : forall i,
  last_quote_in_line s = Some i ->
  exists body rest, s = body +:+ String quote rest
                    /\ String.length body = i
                    /\ has_line_terminator body = false.
Proof.
  induction s as [|c s IH]; intros i; simpl; [done|].
  destruct (is_line_terminator c) eqn:E; [done|].
  destruct (last_quote_in_line s) as [j|].
  - intros [= <-]. destruct (IH _ eq_refl) as (body & rest & -> & Hl & Ht).
    exists (String c body), rest. simpl. by rewrite Hl, E, Ht.
  - destruct (Ascii.eqb_spec c quote) as [->|]; [|done].
    intros [= <-]. by exists "", s.
Qed.

Lemma substring_prefix a : forall b,
  substring 0 (String.length a) (a +:+ b) = a.
Proof. induction a as [|c a IH]; intros b; simpl; [by destruct b|by rewrite IH]. Qed.

Lemma append_assoc (a b c : string) : (a +:+ b) +:+ c = a +:+ (b +:+ c).
Proof.
  induction a as [|x a IH]; [done|].
  change (String x ((a +:+ b) +:+ c) = String x (a +:+ (b +:+ c))).
  by rewrite IH.
Qed.

Lemma length_append_sum (a b : string) :
  String.length (a +:+ b) = String.length a + String.length b.
Proof.
  induction a as [|x a IH]; [done|].
  change (S (String.length (a +:+ b)) = S (String.length a + String.length b)).
  by rewrite IH.
Qed.

Lemma match_at_spec s type len :
  match_at s = Some (type, len) ->
  exists space body rest,
    s = type_key +:+ space +:+ type +:+ rest
    /\ type = type_head +:+ body +:+ String quote EmptyString
    /\ space <> "" /\ all_white_space space = true
    /\ body <> "" /\ has_line_terminator body = false.
Proof.
  unfold match_at.
  destruct (strip_prefix type_key s) as [s1|] eqn:E1; [|done].
  destruct (skip_white_space s1) as [[|n] s2] eqn:E2; [done|].
  destruct (strip_prefix type_head s2) as [s3|] eqn:E3; [|done].
  destruct (last_quote_in_line s3) as [[|i]|] eqn:E4; [done| |done].
  intros [= <- _].
  apply strip_prefix_app in E1. apply strip_prefix_app in E3.
  apply skip_white_space_spec in E2 as (space & E2 & Hl & Hw).
  apply last_quote_in_line_spec in E4 as (body & rest & E4 & Hb & Ht).
  exists space, body, rest.
  assert (substring 0 (S (S i)) s3 = body +:+ String quote EmptyString) as ->.
  { rewrite E4.
    replace (S (S i))
      with (String.length (body +:+ String quote EmptyString)).
    - replace (body +:+ String quote rest)
        with ((body +:+ String quote EmptyString) +:+ rest)
        by (by rewrite append_assoc).
      apply substring_prefix.
    - rewrite length_append_sum. cbn [String.length]. lia. }
  split; [|split; [done|split; [|split; [done|split; [|done]]]]].
  - rewrite E1, E2, E3, E4. by rewrite !append_assoc.
  - by destruct space.
  - by destruct body.
Qed.

(** X13. What the pattern collects. A collected token stands in the text
    after the key [type], a colon and white space; it opens with a double
    quote and [DataTypes], closes with a double quote, and what lies
    between is not empty and stays on one line. *)
Theorem matched_type_shape migrationContent type :
  In type (matchedTypes migrationContent) ->
  exists before space body rest,
    migrationContent = before +:+ type_key +:+ space +:+ type +:+ rest
    /\ type = type_head +:+ body +:+ String quote EmptyString
    /\ space <> "" /\ all_white_space space = true
    /\ body <> "" /\ has_line_terminator body = false.
Proof.
  unfold matchedTypes. generalize 0.
  induction migrationContent as [|c s IH]; intros skip; [done|].
  cbn [matched_types_from].
  assert (forall k, In type (matched_types_from s k) ->
            exists before space body rest,
              String c s = before +:+ type_key +:+ space +:+ type +:+ rest
              /\ type = type_head +:+ body +:+ String quote EmptyString
              /\ space <> "" /\ all_white_space space = true
              /\ body <> "" /\ has_line_terminator body = false) as Hrest.
  { intros k H. destruct (IH k H) as (before & space & body & rest & -> & Hs).
    by exists (String c before), space, body, rest. }
  destruct skip as [|k]; [|apply Hrest].
  destruct (match_at (String c s)) as [[type' len]|] eqn:E; [|apply Hrest].
  intros [<-|H]; [|by apply (Hrest _ H)].
  destruct (match_at_spec _ _ _ E) as (space & body & rest & Hs & Ht).
  by exists "", space, body, rest.
Qed.

(** ** The run over all models *)

Section run_facts.
Context {Value : Type}.
Variable value_equal : Value -> Value -> bool.
Variable world : @Outside Value.
Variable program : Program.
Implicit Types (metaData : object (object (@ColumnDefinition Value))).
Implicit Types (trace : list (@Event Value)).
Implicit Types (models : object (@Model Value)).

Local Abbreviation step := (main_step value_equal world program).
Local Abbreviation meta_json := (meta_path world).

Lemma main_step_skips state entry :
  eligible entry = false -> step state entry = state.
Proof. intros H. destruct state. unfold main_step. by rewrite H. Qed.

Lemma main_loop_filter models : forall state,
  fold_left step models state = fold_left step (List.filter eligible models) state.
Proof.
  induction models as [|entry models IH]; intros state; [done|].
  cbn [fold_left List.filter]. destruct (eligible entry) eqn:E.
  - cbn [fold_left]. apply IH.
  - rewrite main_step_skips by done. apply IH.
Qed.

(** X14. Entries named [Sequelize] or [sequelize] and models that have not
    opted in count for nothing: the run is the run over the other models,
    in their order. *)
Theorem ineligible_models_ignored required models :
  main value_equal world program required models
  = main value_equal world program required (List.filter eligible models).
Proof.
  unfold main. destruct (getMetaData world required) as [state|]; [|done].
  by rewrite main_loop_filter.
Qed.

(** A call that does not return leaves the snapshot as it was. *)
Lemma thrown_keeps (model : @Model Value) metaData thrown :
  fst (getRawMigrations value_equal model metaData) = inl thrown ->
  snd (getRawMigrations value_equal model metaData) = metaData.
Proof.
  unfold getRawMigrations, diff, diff_with.
  destruct (Obj.get (tableName model) metaData) as [metaColumns|].
  - by destruct (equal value_equal metaColumns (getModelColumns model)).
  - by destruct (String.eqb (tableName model) "__proto__"),
         (Obj.inherited (tableName model)).
Qed.

Lemma unchanged_loop metaData models : forall trace,
  (forall entry, In entry models -> eligible entry = true ->
     fst (getRawMigrations value_equal (snd entry) metaData) = inl no_change) ->
  fold_left step models (metaData, trace)
  = (metaData,
     (trace ++ map (fun entry => report program (fst entry) thrown_no_change)
                   (List.filter eligible models))%list).
Proof.
  induction models as [|entry models IH]; intros trace H.
  - cbn. by rewrite app_nil_r.
  - cbn [fold_left List.filter]. unfold main_step at 2.
    destruct (eligible entry) eqn:E.
    + pose proof (H entry (or_introl eq_refl) E) as Hthrown.
      pose proof (thrown_keeps _ _ _ Hthrown) as Hkept.
      unfold createMigrations.
      destruct (getRawMigrations value_equal (snd entry) metaData)
        as [[[]|ms] metaData']; try done.
      cbn [snd] in Hkept. subst metaData'.
      rewrite IH by (intros e He; apply H; by right).
      cbn [map]. by rewrite <- app_assoc.
    + apply IH. intros e He. apply H. by right.
Qed.

(** X15. When every model that takes part equals its snapshot entry, the
    run writes no file at all and leaves the snapshot alone; all it does is
    report [no change] for each of these models, in their order. *)
Theorem unchanged_models_write_nothing metaData models :
  (forall entry, In entry models -> eligible entry = true ->
     fst (getRawMigrations value_equal (snd entry) metaData) = inl no_change) ->
  main value_equal world program (Some metaData) models
  = Some (metaData,
          map (fun entry => report program (fst entry) thrown_no_change)
              (List.filter eligible models)).
Proof.
  intros H. unfold main, getMetaData. by rewrite unchanged_loop.
Qed.

Lemma memory_loop models : forall metaData trace,
  fst (fold_left step models (metaData, trace))
  = memory_after value_equal models metaData.
Proof.
  induction models as [|entry models IH]; intros metaData trace; [done|].
  unfold memory_after. cbn [fold_left]. fold (memory_after value_equal models).
  unfold main_step at 2. destruct (eligible entry); [|apply IH].
  unfold createMigrations.
  destruct (getRawMigrations value_equal (snd entry) metaData)
    as [[[]|ms] metaData']; cbn [snd]; try apply IH.
  destruct (write_migrations world program (snd entry) metaData' trace ms)
    as [trace' [err|]]; apply IH.
Qed.

(** X16. Nothing that fails outside is undone inside. The snapshot in
    memory at the end of a run is what the calls of [getRawMigrations]
    make of it one after the other, whether or not the files of a model
    could be formatted and written. *)
Theorem failures_keep_memory required models metaData trace :
  main value_equal world program required models = Some (metaData, trace) ->
  metaData = memory_after value_equal models (default [] required).
Proof.
  unfold main. destruct (getMetaData world required) as [[m0 t0]|] eqn:E;
    [|done].
  assert (m0 = default [] required) as <-.
  { unfold getMetaData in E. destruct required as [m|].
    - by injection E as <- _.
    - cbn [default].
      destruct (writeFile world [] meta_json (snapshot_json []))
        as [t' [err|]]; [done|]. by injection E as <- _. }
  intros [= H]. pose proof (memory_loop models m0 t0) as Hm.
  by rewrite H in Hm.
Qed.

Lemma writeFile_events trace path data trace' err e s :
  writeFile world trace path data = (trace', err) ->
  In e trace' -> snapshot_of e = Some s ->
  In e trace \/ data = snapshot_json s.
Proof.
  unfold writeFile. destruct (writable world trace path); intros [= <- <-] H Hs;
    [|by left].
  apply in_app_or in H as [H|[<-|[]]]; [by left|right].
  cbn in Hs. destruct data; [done|]. by injection Hs as ->.
Qed.

Lemma created_no_snapshot fileName :
  snapshot_of (@created Value program fileName) = None.
Proof. unfold created. by destruct program. Qed.

Lemma report_no_snapshot modelName err :
  snapshot_of (@report Value program modelName err) = None.
Proof. unfold report. by destruct program, err. Qed.

Lemma write_migration_events (model : @Model Value) metaData trace m trace'
    err e s :
  write_migration world program model metaData trace m = (trace', err) ->
  In e trace' -> snapshot_of e = Some s ->
  In e trace \/ s = metaData.
Proof.
  unfold write_migration.
  destruct (prettier_format world (formatMigrationContent (content world m)))
    as [text|]; [|intros [= <- <-]; by left].
  destruct (writeFile world trace _ (migration_text text)) as [t1 [err1|]] eqn:E1.
  - intros [= <- <-] H Hs.
    destruct (writeFile_events _ _ _ _ _ _ _ E1 H Hs) as [?|[=]]. by left.
  - intros E2 H Hs.
    destruct (writeFile_events _ _ _ _ _ _ _ E2 H Hs) as [H'|[= ->]];
      [|by right].
    apply in_app_or in H' as [H'|[<-|[]]].
    + destruct (writeFile_events _ _ _ _ _ _ _ E1 H' Hs) as [?|[=]]. by left.
    + by rewrite created_no_snapshot in Hs.
Qed.

Lemma write_migrations_events (model : @Model Value) metaData ms :
  forall trace trace' err e s,
  write_migrations world program model metaData trace ms = (trace', err) ->
  In e trace' -> snapshot_of e = Some s ->
  In e trace \/ s = metaData.
Proof.
  induction ms as [|m ms IH]; intros trace trace' err e s; cbn [write_migrations].
  - intros [= <- <-]. by left.
  - destruct (write_migration world program model metaData trace m)
      as [t1 [err1|]] eqn:E1.
    + intros [= <- <-]. by apply (write_migration_events _ _ _ _ _ _ _ _ E1).
    + intros E2 H Hs. destruct (IH _ _ _ _ _ E2 H Hs) as [H'|]; [|by right].
      by apply (write_migration_events _ _ _ _ _ _ _ _ E1).
Qed.

Lemma main_step_events entry metaData trace e s :
  In e (snd (step (metaData, trace) entry)) -> snapshot_of e = Some s ->
  In e trace
  \/ (eligible entry = true
      /\ s = snd (getRawMigrations value_equal (snd entry) metaData)).
Proof.
  unfold main_step. destruct (eligible entry); [|by left].
  unfold createMigrations.
  destruct (getRawMigrations value_equal (snd entry) metaData)
    as [[[]|ms] metaData']; cbn [snd].
  1-3: intros H Hs; apply in_app_or in H as [H|[<-|[]]]; [by left|];
       by rewrite report_no_snapshot in Hs.
  destruct (write_migrations world program (snd entry) metaData' trace ms)
    as [t1 [err|]] eqn:E; cbn [snd]; intros H Hs.
  - apply in_app_or in H as [H|[<-|[]]].
    + destruct (write_migrations_events _ _ _ _ _ _ _ _ E H Hs); auto.
    + by rewrite report_no_snapshot in Hs.
  - destruct (write_migrations_events _ _ _ _ _ _ _ _ E H Hs); auto.
Qed.

Lemma main_loop_events models : forall metaData trace e s,
  In e (snd (fold_left step models (metaData, trace))) ->
  snapshot_of e = Some s ->
  In e trace
  \/ exists k, 0 < k <= length models
               /\ s = memory_after value_equal (firstn k models) metaData.
Proof.
  induction models as [|entry models IH]; intros metaData trace e s H Hs;
    [by left|].
  cbn [fold_left] in H.
  destruct (step (metaData, trace) entry) as [m1 t1] eqn:E.
  pose proof (memory_loop [entry] metaData trace) as Hm.
  cbn [fold_left] in Hm. rewrite E in Hm. cbn [fst] in Hm.
  destruct (IH m1 t1 e s H Hs) as [H1|(k & Hk & ->)].
  - pose proof (main_step_events entry metaData trace e s) as Hstep.
    rewrite E in Hstep. destruct (Hstep H1 Hs) as [|[He ->]]; [by left|].
    right. exists 1. split; [cbn [length]; lia|].
    cbn [firstn]. unfold memory_after. cbn [fold_left]. by rewrite He.
  - right. exists (S k). split; [cbn [length]; lia|].
    cbn [firstn]. rewrite Hm. done.
Qed.

(** X17. What is written to [meta.json] is always the whole snapshot in
    memory: every snapshot a run writes is the empty one of [getMetaData]
    or what the calls of [getRawMigrations] for the first so many models
    have made of the loaded snapshot, with the entries of the models whose
    own files could not be formatted or written. *)
Theorem written_snapshots_are_memory required models metaData trace e s :
  main value_equal world program required models = Some (metaData, trace) ->
  In e trace -> snapshot_of e = Some s ->
  exists k, k <= length models
            /\ s = memory_after value_equal (firstn k models)
                                 (default [] required).
Proof.
  unfold main, getMetaData.
  destruct required as [m0|]; cbn [default].
  - intros [= E] H Hs.
    pose proof (main_loop_events models m0 [] e s) as Hl. rewrite E in Hl.
    destruct (Hl H Hs) as [[]|(k & Hk & ->)]. exists k. split; [lia|done].
  - destruct (writeFile world [] (meta_path world) (snapshot_json []))
      as [t0 [err|]] eqn:E0; [done|].
    intros [= E] H Hs.
    pose proof (main_loop_events models [] t0 e s) as Hl. rewrite E in Hl.
    destruct (Hl H Hs) as [H0|(k & Hk & ->)].
    + exists 0. split; [lia|].
      by destruct (writeFile_events _ _ _ _ _ _ _ E0 H0 Hs) as [[]|[= <-]].
    + exists k. split; [lia|done].
Qed.

Lemma file_at_write path trace data :
  file_at path (trace ++ [file_written path data]) = Some data.
Proof.
  unfold file_at. rewrite fold_left_app. cbn [fold_left].
  by rewrite String.eqb_refl.
Qed.

Lemma file_at_other path trace e :
  (forall p data, e <> file_written p data) ->
  file_at path (trace ++ [e]) = file_at path trace.
Proof.
  intros H. unfold file_at. rewrite fold_left_app. cbn [fold_left].
  destruct e; try done. by destruct (H path0 data).
Qed.

Lemma report_writes_nothing modelName err path (data : @Written Value) :
  report program modelName err <> file_written path data.
Proof. unfold report. by destruct program, err. Qed.

Hypothesis quiet : nothing_fails world.

Lemma write_migration_done (model : @Model Value) metaData trace m :
  exists trace',
    write_migration world program model metaData trace m = (trace', None)
    /\ file_at meta_json trace' = Some (snapshot_json metaData).
Proof.
  destruct quiet as [Hw Hp]. unfold write_migration, writeFile.
  destruct (Hp (formatMigrationContent (content world m))) as [text ->].
  rewrite !Hw. eexists. split; [done|]. apply file_at_write.
Qed.

Lemma write_migrations_done (model : @Model Value) metaData ms : forall trace,
  exists trace',
    write_migrations world program model metaData trace ms = (trace', None)
    /\ (ms <> [] -> file_at meta_json trace' = Some (snapshot_json metaData))
    /\ (ms = [] -> trace' = trace).
Proof.
  induction ms as [|m ms IH]; intros trace.
  - exists trace. by cbn.
  - cbn [write_migrations].
    destruct (write_migration_done model metaData trace m) as (t1 & -> & H1).
    destruct (IH t1) as (t2 & -> & H2 & H3). exists t2.
    split; [done|]. split; [|done]. intros _.
    destruct ms as [|m' ms]; [by rewrite H3|by apply H2].
Qed.

Local Abbreviation on_disk required metaData trace :=
  (match file_at meta_json trace%list with
   | Some data => data = snapshot_json metaData%list
   | None => required = Some metaData%list
   end).

Lemma disk_step required entry metaData trace :
  on_disk required metaData trace ->
  on_disk required (fst (step (metaData, trace) entry))
          (snd (step (metaData, trace) entry)).
Proof.
  intros H. unfold main_step. destruct (eligible entry); [|done].
  unfold createMigrations.
  destruct (getRawMigrations value_equal (snd entry) metaData)
    as [[thrown|ms] metaData'] eqn:E.
  - pose proof (thrown_keeps (snd entry) metaData thrown) as Hk.
    rewrite E in Hk. cbn [fst snd] in Hk. rewrite Hk by done.
    destruct thrown; cbn [fst snd];
      by rewrite file_at_other
        by (intros p data; apply report_writes_nothing).
  - destruct (write_migrations_done (snd entry) metaData' ms trace)
      as (t' & -> & H1 & H2). cbn [fst snd].
    destruct ms as [|m ms].
    + rewrite H2 by done.
      pose proof (quiet_diff value_equal (tableName (snd entry))
                    (getModelColumns (snd entry)) metaData
                    (getModelColumns_distinct _)) as Hk.
      unfold getRawMigrations in E. rewrite E in Hk. cbn [fst snd] in Hk.
      by rewrite Hk.
    + by rewrite H1.
Qed.

Lemma disk_loop required models : forall metaData trace,
  on_disk required metaData trace ->
  on_disk required (fst (fold_left step models (metaData, trace)))
          (snd (fold_left step models (metaData, trace))).
Proof.
  induction models as [|entry models IH]; intros metaData trace H; [done|].
  cbn [fold_left]. pose proof (disk_step required entry metaData trace H) as H'.
  destruct (step (metaData, trace) entry) as [m1 t1]. by apply IH.
Qed.

(** X18. When nothing fails outside, the run comes to an end with
    [meta.json] holding the snapshot that is in memory: the last snapshot
    written is the one in memory, and if none was written the one that was
    loaded is still the one in memory. *)
Theorem snapshot_on_disk_is_memory required models :
  exists metaData trace,
    main value_equal world program required models = Some (metaData, trace)
    /\ match file_at (meta_path world) trace with
       | Some data => data = snapshot_json metaData
       | None => required = Some metaData
       end.
Proof.
  unfold main.
  assert (exists m0 t0, getMetaData world required = Some (m0, t0)
                        /\ on_disk required m0 t0) as (m0 & t0 & -> & H0).
  { unfold getMetaData, writeFile. destruct required as [m|].
    - by exists m, [].
    - destruct quiet as [-> _]. eexists _, _. split; [done|].
      by rewrite (file_at_write _ []). }
  pose proof (disk_loop required models m0 t0 H0) as H.
  destruct (fold_left step models (m0, t0)) as [m1 t1]. by exists m1, t1.
Qed.

End run_facts.

(** ** First and second runs *)

Section runs_more.
Context {Value : Type}.
Variable value_equal : Value -> Value -> bool.
Variable world : @Outside Value.
Variable program : Program.
Implicit Types (metaData : object (object (@ColumnDefinition Value))).
Implicit Types (models : object (@Model Value)).

Local Abbreviation memory := (memory_after value_equal).

Lemma diff_frame table other (modelColumns : object (@ColumnDefinition Value))
    metaData :
  other <> table ->
  Obj.get other (snd (diff value_equal table modelColumns metaData))
  = Obj.get other metaData.
Proof.
  intros Hne. unfold diff, diff_with.
  destruct (Obj.get table metaData) as [metaColumns|].
  - destruct (equal value_equal metaColumns modelColumns); cbn [snd]; [done|].
    apply ObjFacts.get_set_ne. congruence.
  - destruct (String.eqb table "__proto__"); [done|].
    destruct (Obj.inherited table); [done|].
    cbn [snd]. apply ObjFacts.get_set_ne. congruence.
Qed.

Lemma diff_reads_own_table table (modelColumns : object (@ColumnDefinition Value))
    metaData metaData' :
  Obj.get table metaData = Obj.get table metaData' ->
  fst (diff value_equal table modelColumns metaData)
  = fst (diff value_equal table modelColumns metaData').
Proof. intros H. unfold diff, diff_with. rewrite H. by repeat case_match. Qed.

Lemma tables_cons entry models :
  tables (entry :: models)
  = if eligible entry then tableName (snd entry) :: tables models
    else tables models.
Proof. unfold tables. cbn [List.filter]. by destruct (eligible entry). Qed.

Lemma memory_cons entry models metaData :
  memory (entry :: models) metaData
  = memory models
      (if eligible entry
       then snd (getRawMigrations value_equal (snd entry) metaData)
       else metaData).
Proof. done. Qed.

(** The turns of the other models leave a table's entry alone. *)
Lemma memory_frame table models : forall metaData,
  ~ In table (tables models) ->
  Obj.get table (memory models metaData) = Obj.get table metaData.
Proof.
  induction models as [|entry models IH]; intros metaData H; [done|].
  rewrite memory_cons. rewrite tables_cons in H.
  destruct (eligible entry).
  - rewrite IH by (intros H'; apply H; by right).
    apply diff_frame. intros ->. apply H. by left.
  - by apply IH.
Qed.

Lemma settled_second_loop models : forall metaData,
  (forall v, value_equal v v = true) ->
  List.NoDup (tables models) ->
  (forall entry, In entry models -> eligible entry = true ->
     settled_model metaData (snd entry)) ->
  forall entry, In entry models -> eligible entry = true ->
    fst (getRawMigrations value_equal (snd entry) (memory models metaData))
    = inl no_change.
Proof.
  induction models as [|first models IH];
    intros metaData Hrefl Hnd Hst entry Hin He; [done|].
  rewrite memory_cons. rewrite tables_cons in Hnd.
  destruct (eligible first) eqn:E1.
  - apply List.NoDup_cons_iff in Hnd as [Hfresh Hnd].
    assert (forall e, In e models -> eligible e = true ->
              tableName (snd e) <> tableName (snd first)) as Hother.
    { intros e H1 H2 Heq. apply Hfresh. rewrite <- Heq. unfold tables.
      apply in_map_iff. exists e. split; [done|].
      apply List.filter_In. by split. }
    destruct Hin as [<-|Hin].
    + unfold getRawMigrations at 1.
      rewrite (diff_reads_own_table _ _ _
                 (snd (getRawMigrations value_equal (snd first) metaData)))
        by (by apply memory_frame).
      destruct (Hst first (or_introl eq_refl) E1) as (Hundef & Hplain & Hmeta).
      apply second_run_no_change; try done.
      apply getModelColumns_distinct.
    + apply IH; try done. intros e H1 H2.
      destruct (Hst e (or_intror H1) H2) as (Hundef & Hplain & Hmeta).
      assert (Obj.get (tableName (snd e))
                (snd (getRawMigrations value_equal (snd first) metaData))
              = Obj.get (tableName (snd e)) metaData) as Hsame
        by (apply diff_frame; by apply Hother).
      split; [done|]. rewrite Hsame. by split.
  - destruct Hin as [<-|Hin]; [congruence|].
    apply IH; try done. intros e H1 H2. apply Hst; [by right|done].
Qed.


Lemma set_fresh {A} k (v : A) o :
  ~ In k (Obj.keys o) -> Obj.set k v o = (o ++ [(k, v)])%list.
Proof.
  induction o as [|[k0 v0] o IH]; simpl; [done|]. intros H.
  destruct (String.eqb_spec k k0) as [->|Hne]; [by destruct H; left|].
  rewrite IH; [done|]. intros H'. apply H. by right.
Qed.

Lemma first_memory models : forall metaData,
  List.NoDup (tables models) ->
  (forall table, In table (tables models) -> Obj.inherited table = false) ->
  (forall table, In table (tables models) -> ~ In table (Obj.keys metaData)) ->
  memory models metaData
  = (metaData
     ++ map (fun entry => (tableName (snd entry), getModelColumns (snd entry)))
            (List.filter eligible models))%list.
Proof.
  induction models as [|entry models IH]; intros metaData Hnd Hplain Hfresh.
  - cbn. by rewrite app_nil_r.
  - rewrite memory_cons. rewrite tables_cons in Hnd, Hplain, Hfresh.
    cbn [List.filter]. destruct (eligible entry).
    + apply List.NoDup_cons_iff in Hnd as [Hnew Hnd].
      assert (~ In (tableName (snd entry)) (Obj.keys metaData)) as Habsent
        by (apply Hfresh; by left).
      assert (Obj.inherited (tableName (snd entry)) = false) as Hown
        by (apply Hplain; by left).
      unfold getRawMigrations, diff, diff_with.
      apply ObjFacts.get_None in Habsent as Hg. rewrite Hg, Hown.
      destruct (String.eqb_spec (tableName (snd entry)) "__proto__") as [E|_].
      { by rewrite E in Hown. }
      cbn [snd].
      rewrite set_fresh by done. rewrite IH; [|done| |].
      * cbn [map]. by rewrite <- app_assoc.
      * intros table H. apply Hplain. by right.
      * intros table H. unfold Obj.keys. rewrite map_app, in_app_iff.
        intros [H'|[<-|[]]]; [|done]. apply (Hfresh table); [by right|done].
    + by apply IH.
Qed.

Hypothesis quiet : nothing_fails world.

(** X20. A first run. When there is no [meta.json] and nothing fails
    outside, the run over models with tables of their own, none of which
    bears the name of a property of [Object.prototype] or a name that is
    an array index, ends with a snapshot that holds, for every model that
    takes part and in their order, the table with the extracted columns,
    and [meta.json] holds this snapshot. *)
Theorem first_run_snapshot models :
  List.NoDup (tables models) ->
  (forall table, In table (tables models) ->
                 Obj.inherited table = false
                 /\ Obj.index_of table = None) ->
  let created :=
    map (fun entry => (tableName (snd entry), getModelColumns (snd entry)))
        (List.filter eligible models) in
  exists trace,
    main value_equal world program None models = Some (created, trace)
    /\ file_at (meta_path world) trace = Some (snapshot_json created).
Proof.
  intros Hnd Hnames created. unfold main, getMetaData, writeFile.
  destruct quiet as [Hw Hp]. rewrite Hw.
  pose proof (memory_loop value_equal world program models []
                [file_written (meta_path world) (snapshot_json [])]) as Hm.
  pose proof (disk_loop value_equal world program quiet None models []
                [file_written (meta_path world) (snapshot_json [])]) as Hd.
  cbn [app] in *.
  destruct (fold_left (main_step value_equal world program) models
              ([], [file_written (meta_path world) (snapshot_json [])]))
    as [m1 t1].
  cbn [fst snd] in Hm, Hd. exists t1.
  rewrite first_memory in Hm;
    [|done|intros table H; by apply Hnames|by intros table _ []].
  cbn [app] in Hm. subst m1.
  split; [done|].
  unfold file_at at 1 in Hd. cbn [fold_left] in Hd.
  rewrite String.eqb_refl in Hd. specialize (Hd eq_refl).
  destruct (file_at (meta_path world) t1) as [data|]; [by subst data|done].
Qed.

End runs_more.

(** ** The run and the buckets on the sample data *)

Local Ltac distinct_names :=
  repeat (apply List.NoDup_cons; [simpl; intuition discriminate|]);
  apply List.NoDup_nil.

Lemma extracted_definitions_witness :
  In ("name", attributeColumn
                {| attr_type := "STRING"; attr_field := "name";
                   attr_allowNull := JsBool false; attr_unique := None;
                   attr_primaryKey := None; attr_prevColumnName := None;
                   attr_defaultValue := None |})
     (getModelColumns users_model)
  /\ (In ("name", attributeColumn
                    {| attr_type := "STRING"; attr_field := "name";
                       attr_allowNull := JsBool false; attr_unique := None;
                       attr_primaryKey := None; attr_prevColumnName := None;
                       attr_defaultValue := None |})
         (@baseColumns string)
      \/ exists name a,
           In (name, a) (attributes users_model)
           /\ writes_column (name, a) = true
           /\ "name" = attr_field a
           /\ attributeColumn
                {| attr_type := "STRING"; attr_field := "name";
                   attr_allowNull := JsBool false; attr_unique := None;
                   attr_primaryKey := None; attr_prevColumnName := None;
                   attr_defaultValue := None |}
              = attributeColumn a).
Proof.
  assert (In ("name", attributeColumn
                {| attr_type := "STRING"; attr_field := "name";
                   attr_allowNull := JsBool false; attr_unique := None;
                   attr_primaryKey := None; attr_prevColumnName := None;
                   attr_defaultValue := None |})
             (getModelColumns users_model)) as H
    by (vm_compute; right; left; reflexivity).
  split; [exact H|]. exact (extracted_definitions users_model _ _ H).
Defined.

Lemma implicit_columns_fixed_witness :
  timestamps users_model = true
  /\ Obj.get "createdAt" (getModelColumns users_model)
     = Obj.get "createdAt" (@baseColumns string)
  /\ Obj.get "updatedAt" (getModelColumns users_model)
     = Obj.get "updatedAt" (@baseColumns string).
Proof.
  split; [reflexivity|].
  exact (proj1 (implicit_columns_fixed users_model) eq_refl).
Defined.

Lemma descriptors_shape_witness :
  fst (diff String.eqb "users" text_name_and_mail users_three)
  = inr [change_name; rename_email; remove_old]
  /\ (exists ranks,
        map (fun m => option_map fst (label_kind (label m)))
            [change_name; rename_email; remove_old]
        = map Some ranks
        /\ StronglySorted lt ranks)
  /\ (forall m, In m [change_name; rename_email; remove_old] ->
                label m = "initial" ->
                [change_name; rename_email; remove_old] = [m])
  /\ forall m, In m [change_name; rename_email; remove_old] ->
       up m <> []
       /\ length (up m) = length (down m)
       /\ option_map snd (label_kind (label m))
          = Some (Nat.ltb 1 (length (up m)))
       /\ Forall2 (mirrors "users") (up m) (down m).
Proof.
  assert (fst (diff String.eqb "users" text_name_and_mail users_three)
          = inr [change_name; rename_email; remove_old]) as H
    by (vm_compute; reflexivity).
  split; [exact H|].
  exact (descriptors_shape String.eqb "users" text_name_and_mail users_three
           _ H).
Defined.


Lemma up_reads_both_tables_witness :
  List.NoDup (Obj.keys text_name_and_mail)
  /\ up_reads [ ("name", column "DataTypes.STRING" None);
                ("email", column "DataTypes.STRING" None);
                ("old", column "DataTypes.STRING" None) ]
              text_name_and_mail
              (renameColumn "users" "email" "mail"
                 (Some (parsed (column "DataTypes.STRING" (Some "email"))))).
Proof.
  assert (List.NoDup (Obj.keys text_name_and_mail)) as H by distinct_names.
  split; [exact H|].
  apply (up_reads_both_tables String.eqb
           [ ("name", column "DataTypes.STRING" None);
             ("email", column "DataTypes.STRING" None);
             ("old", column "DataTypes.STRING" None) ]
           text_name_and_mail H "users" users_three
           [change_name; rename_email; remove_old] rename_email).
  - reflexivity.
  - vm_compute. reflexivity.
  - right. left. reflexivity.
  - left. reflexivity.
Defined.

Lemma stored_objects_unmarked_witness :
  List.NoDup (Obj.keys text_name_and_mail)
  /\ read (heap (classify String.eqb
                   [ ("name", column "DataTypes.STRING" None);
                     ("email", column "DataTypes.STRING" None);
                     ("old", column "DataTypes.STRING" None) ]
                   text_name_and_mail))
          (metaDataByTableName
             (classify String.eqb
                [ ("name", column "DataTypes.STRING" None);
                  ("email", column "DataTypes.STRING" None);
                  ("old", column "DataTypes.STRING" None) ]
                text_name_and_mail))
     = map (fun e => (fst e, parsed (snd e))) text_name_and_mail.
Proof.
  assert (List.NoDup (Obj.keys text_name_and_mail)) as H by distinct_names.
  split; [exact H|].
  rewrite (stored_objects_unmarked String.eqb
             [ ("name", column "DataTypes.STRING" None);
               ("email", column "DataTypes.STRING" None);
               ("old", column "DataTypes.STRING" None) ]
             text_name_and_mail H).
  vm_compute. reflexivity.
Defined.

Lemma buckets_partition_witness :
  List.NoDup (Obj.keys text_name_and_mail)
  /\ List.NoDup (Obj.keys [ ("name", column "DataTypes.STRING" None);
                            ("email", column "DataTypes.STRING" None);
                            ("old", column "DataTypes.STRING" None) ])
  /\ forall k,
       In k (col_remove
               (columns (classify String.eqb
                           [ ("name", column "DataTypes.STRING" None);
                             ("email", column "DataTypes.STRING" None);
                             ("old", column "DataTypes.STRING" None) ]
                           text_name_and_mail))) ->
       In k (Obj.keys [ ("name", column "DataTypes.STRING" None);
                        ("email", column "DataTypes.STRING" None);
                        ("old", column "DataTypes.STRING" None) ])
       /\ ~ In k (Obj.keys text_name_and_mail)
       /\ Obj.inherited k = false.
Proof.
  assert (List.NoDup (Obj.keys text_name_and_mail)) as H1 by distinct_names.
  assert (List.NoDup (Obj.keys [ ("name", column "DataTypes.STRING" None);
                                 ("email", column "DataTypes.STRING" None);
                                 ("old", column "DataTypes.STRING" None) ]))
    as H2 by distinct_names.
  split; [exact H1|]. split; [exact H2|].
  exact (proj2 (proj2 (proj2
           (buckets_partition String.eqb _ text_name_and_mail H1 H2)))).
Defined.

Lemma hint_free_buckets_witness :
  let stored := [ ("name", column "DataTypes.STRING" None);
                  ("email", column "DataTypes.STRING" None);
                  ("old", column "DataTypes.STRING" None) ] in
  let c := columns (classify String.eqb stored text_name_and_nick) in
  Obj.keys (col_new c) = ["nick"]
  /\ Obj.keys (col_change c) = ["name"]
  /\ col_rename c = []
  /\ col_remove c = ["email"; "old"].
Proof.
  cbv zeta.
  assert (List.NoDup (Obj.keys text_name_and_nick)) as H1 by distinct_names.
  assert (List.NoDup (Obj.keys [ ("name", column "DataTypes.STRING" None);
                                 ("email", column "DataTypes.STRING" None);
                                 ("old", column "DataTypes.STRING" None) ]))
    as H2 by distinct_names.
  assert (forall k d, In (k, d) text_name_and_nick ->
                      truthy (prevColumnName d) = None) as H3.
  { intros k d [[= <- <-]|[[= <- <-]|[]]]; reflexivity. }
  assert (~ In "undefined" (Obj.keys text_name_and_nick)) as H4
    by (simpl; intuition discriminate).
  destruct (hint_free_buckets String.eqb _ text_name_and_nick H1 H2 H3 H4)
    as (E1 & E2 & E3 & E4).
  rewrite E1, E2, E3, E4. vm_compute. repeat split.
Defined.

Lemma silent_run_keeps_snapshot_witness :
  fst (getRawMigrations String.eqb hinted_mail_model
         (snd (getRawMigrations String.eqb name_model [])))
  = inr []
  /\ snd (getRawMigrations String.eqb hinted_mail_model
            (snd (getRawMigrations String.eqb name_model [])))
     = snd (getRawMigrations String.eqb name_model []).
Proof.
  assert (fst (getRawMigrations String.eqb hinted_mail_model
                 (snd (getRawMigrations String.eqb name_model [])))
          = inr []) as H by (vm_compute; reflexivity).
  split; [exact H|].
  exact (silent_run_keeps_snapshot String.eqb hinted_mail_model _ H).
Defined.


Lemma matched_type_shape_witness :
  In (quoted "DataTypes.STRING")
     (matchedTypes (type_line (attributeColumn string_attribute)))
  /\ exists before space body rest,
       type_line (attributeColumn string_attribute)
       = before +:+ type_key +:+ space +:+ quoted "DataTypes.STRING" +:+ rest
       /\ quoted "DataTypes.STRING"
          = type_head +:+ body +:+ String quote EmptyString
       /\ space <> "" /\ all_white_space space = true
       /\ body <> "" /\ has_line_terminator body = false.
Proof.
  assert (In (quoted "DataTypes.STRING")
             (matchedTypes (type_line (attributeColumn string_attribute))))
    as H by (vm_compute; left; reflexivity).
  split; [exact H|]. exact (matched_type_shape _ _ H).
Defined.

Lemma unchanged_models_write_nothing_witness :
  main String.eqb quiet_world script
       (Some [ ("users", getModelColumns users_model) ]) users_and_library
  = Some ([ ("users", getModelColumns users_model) ],
          [ console_error "User" thrown_no_change ]).
Proof.
  apply (unchanged_models_write_nothing String.eqb quiet_world script
           [ ("users", getModelColumns users_model) ] users_and_library).
  intros entry [<-|[<-|[]]] H; [vm_compute; reflexivity|discriminate H].
Defined.

Lemma failures_keep_memory_witness :
  main String.eqb failing_world library None users_and_library
  = Some ([ ("users", getModelColumns users_model) ],
          [ file_written "database/migrations/meta.json" (snapshot_json []);
            consola_error prettier_threw ])
  /\ [ ("users", getModelColumns users_model) ]
     = memory_after String.eqb users_and_library [].
Proof.
  assert (main String.eqb failing_world library None users_and_library
          = Some ([ ("users", getModelColumns users_model) ],
                  [ file_written "database/migrations/meta.json"
                                 (snapshot_json []);
                    consola_error prettier_threw ])) as H
    by (vm_compute; reflexivity).
  split; [exact H|].
  exact (failures_keep_memory String.eqb failing_world library None users_and_library
           _ _ H).
Defined.

Lemma snapshot_on_disk_is_memory_witness :
  nothing_fails quiet_world
  /\ exists metaData trace,
       main String.eqb quiet_world script None users_and_library
       = Some (metaData, trace)
       /\ match file_at (meta_path quiet_world) trace with
          | Some data => data = snapshot_json metaData
          | None => None = Some metaData
          end.
Proof.
  assert (nothing_fails quiet_world) as H.
  { split; [reflexivity|]. intros text. by exists text. }
  split; [exact H|].
  exact (snapshot_on_disk_is_memory String.eqb quiet_world script H None
           users_and_library).
Defined.


Lemma first_run_snapshot_witness :
  nothing_fails quiet_world
  /\ List.NoDup (tables users_and_library)
  /\ (forall table, In table (tables users_and_library) ->
                    Obj.inherited table = false
                    /\ Obj.index_of table = None)
  /\ exists trace,
       main String.eqb quiet_world script None users_and_library
       = Some ([ ("users", getModelColumns users_model) ], trace)
       /\ file_at (meta_path quiet_world) trace
          = Some (snapshot_json [ ("users", getModelColumns users_model) ]).
Proof.
  assert (nothing_fails quiet_world) as H1.
  { split; [reflexivity|]. intros text. by exists text. }
  assert (List.NoDup (tables users_and_library)) as H2
    by (vm_compute; distinct_names).
  assert (forall table, In table (tables users_and_library) ->
                        Obj.inherited table = false
                        /\ Obj.index_of table = None) as H3
    by (intros table [<-|[]]; split; reflexivity).
  split; [exact H1|]. split; [exact H2|]. split; [exact H3|].
  exact (first_run_snapshot String.eqb quiet_world script H1 users_and_library
           H2 H3).
Defined.

Lemma written_snapshots_are_memory_witness :
  let both := [ ("users", getModelColumns name_model);
                ("posts", getModelColumns posts_model) ] in
  main String.eqb picky_world script None users_then_posts
  = Some (both,
          [ file_written "database/migrations/meta.json" (snapshot_json []);
            console_error "User" prettier_threw;
            file_written
              "database/migrations/2024-01-01T00-00-00-initial-posts.js"
              (migration_text "posts");
            console_log
              "Migration created: 2024-01-01T00-00-00-initial-posts.js";
            file_written "database/migrations/meta.json"
                         (snapshot_json both) ])
  /\ exists k, k <= length users_then_posts
               /\ both = memory_after String.eqb (firstn k users_then_posts)
                                      (default [] None).
Proof.
  cbv zeta.
  assert (main String.eqb picky_world script None users_then_posts
          = Some ([ ("users", getModelColumns name_model);
                    ("posts", getModelColumns posts_model) ],
                  [ file_written "database/migrations/meta.json"
                                 (snapshot_json []);
                    console_error "User" prettier_threw;
                    file_written
                      "database/migrations/2024-01-01T00-00-00-initial-posts.js"
                      (migration_text "posts");
                    console_log
                      "Migration created: 2024-01-01T00-00-00-initial-posts.js";
                    file_written "database/migrations/meta.json"
                      (snapshot_json
                         [ ("users", getModelColumns name_model);
                           ("posts", getModelColumns posts_model) ]) ])) as H
    by (vm_compute; reflexivity).
  split; [exact H|].
  apply (written_snapshots_are_memory String.eqb picky_world script None
           users_then_posts _ _
           (file_written "database/migrations/meta.json"
              (snapshot_json [ ("users", getModelColumns name_model);
                               ("posts", getModelColumns posts_model) ]))
           _ H).
  - do 4 right. left. reflexivity.
  - reflexivity.
Defined.

Lemma buckets_keep_order_witness :
  let stored := [ ("name", column "DataTypes.STRING" None);
                  ("email", column "DataTypes.STRING" None);
                  ("old", column "DataTypes.STRING" None) ] in
  let c := columns (classify String.eqb stored text_name_and_nick) in
  List.NoDup (Obj.keys text_name_and_nick)
  /\ List.NoDup (Obj.keys stored)
  /\ col_remove c = ["email"; "old"]
  /\ col_remove c
     = List.filter (fun k => existsb (String.eqb k) (col_remove c))
                   (Obj.keys stored).
Proof.
  cbv zeta.
  assert (List.NoDup (Obj.keys text_name_and_nick)) as H1 by distinct_names.
  assert (List.NoDup (Obj.keys [ ("name", column "DataTypes.STRING" None);
                                 ("email", column "DataTypes.STRING" None);
                                 ("old", column "DataTypes.STRING" None) ]))
    as H2 by distinct_names.
  split; [exact H1|]. split; [exact H2|]. split; [vm_compute; reflexivity|].
  exact (proj2 (proj2 (proj2
           (buckets_keep_order String.eqb _ text_name_and_nick H1 H2)))).
Defined.
